(** * Multi-fidelity deep GP benchmark notebook: embedding and properties

    Shallow embedding of the code cells of
    [emukit/examples/multi_fidelity_dgp/benchmarking_examples.ipynb].

    Python floats are IEEE-754 binary64 numbers, modelled by Rocq's
    primitive [float].  NumPy arrays are mutable objects: they live in a
    store and the notebook's in-place operators ([x /= ...]) update the
    store.  The external packages (NumPy's random generator, the Latin
    design, scikit-learn, SciPy and the four regression models) are not part
    of the notebook; they are the fields of the class [Libraries]. *)

From Stdlib Require Import ZArith Bool PrimFloat Uint63.
From Stdlib Require Import SpecFloat FloatOps FloatAxioms.
From stdpp Require Import base list strings pretty.

Set Default Proof Using "Type".

(** ** Python values *)

Inductive exn :=
  | IndexError
  | KeyError
  | ValueError
  | SystemError
  | LibraryError (msg : string).

Inductive outcome (A : Type) :=
  | Ok (a : A)
  | Raise (e : exn).
Arguments Ok {A} a.
Arguments Raise {A} e.

Definition obind {A B} (c : outcome A) (k : A → outcome B) : outcome B :=
  match c with
  | Ok a => k a
  | Raise e => Raise e
  end.

Declare Scope py_scope.
Delimit Scope py_scope with py.
Notation "x <~ c ;; k" := (obind c (fun x => k))
  (at level 100, c at next level, right associativity) : py_scope.
Open Scope py_scope.

Fixpoint omap_list {A B} (f : A → outcome B) (l : list A) : outcome (list B) :=
  match l with
  | [] => Ok []
  | x :: l' => y <~ f x ;; ys <~ omap_list f l' ;; Ok (y :: ys)
  end.

(** [l[i]] for a non-negative index, and [l[-1]]. *)
Definition getitem {A} (l : list A) (i : nat) : outcome A :=
  match l !! i with
  | Some x => Ok x
  | None => Raise IndexError
  end.

Definition getitem_last {A} (l : list A) : outcome A :=
  match last l with
  | Some x => Ok x
  | None => Raise IndexError
  end.

Fixpoint enumerate_from {A} (k : nat) (l : list A) : list (nat * A) :=
  match l with
  | [] => []
  | x :: l' => (k, x) :: enumerate_from (S k) l'
  end.
Definition enumerate {A} (l : list A) : list (nat * A) := enumerate_from 0 l.

(** [str(n)] of an integer and of a list of integers. *)
Definition str_int (z : Z) : string := pretty z.
Definition str_nat (n : nat) : string := pretty n.

Fixpoint join (sep : string) (l : list string) : string :=
  match l with
  | [] => ""
  | [s] => s
  | s :: l' => s +:+ sep +:+ join sep l'
  end.
Definition str_list (l : list nat) : string :=
  "[" +:+ join ", " (map str_nat l) +:+ "]".

(** A [dict] keeps its keys in insertion order; assigning to a key that is
    present replaces the value where it stands. *)
Definition dict (V : Type) : Type := list (string * V).

Fixpoint dict_set {V} (k : string) (v : V) (d : dict V) : dict V :=
  match d with
  | [] => [(k, v)]
  | (k', v') :: d' =>
      if String.eqb k' k then (k', v) :: d' else (k', v') :: dict_set k v d'
  end.

Fixpoint dict_get {V} (k : string) (d : dict V) : option V :=
  match d with
  | [] => None
  | (k', v') :: d' => if String.eqb k' k then Some v' else dict_get k d'
  end.

Definition dict_keys {V} (d : dict V) : list string := map fst d.
Definition dict_values {V} (d : dict V) : list V := map snd d.

(** [d[k]] *)
Definition dict_item {V} (d : dict V) (k : string) : outcome V :=
  match dict_get k d with
  | Some v => Ok v
  | None => Raise KeyError
  end.

(** ** NumPy arrays of floats *)

Definition float_of_nat (n : nat) : float :=
  PrimFloat.of_uint63 (Uint63.of_Z (Z.of_nat n)).

(** A two-dimensional array: [shape = (length rows, ncols)].  One-dimensional
    arrays (the scaling vector) are plain lists. *)
Record ndarray := NdArray { ncols : nat; rows : list (list float) }.

Definition nrows (a : ndarray) : nat := length (rows a).
Definition shape (a : ndarray) : nat * nat := (nrows a, ncols a).

(** Every row has [ncols] entries: what every array NumPy builds satisfies. *)
Definition well_shaped (a : ndarray) : Prop :=
  Forall (λ r, length r = ncols a) (rows a).

(** A 1-d array of shape [(k,)] and a scalar, seen as 2-d operands. *)
Definition row_vec (v : list float) : ndarray := NdArray (length v) [v].
Definition scalar_arr (s : float) : ndarray := NdArray 1 [[s]].

(** Broadcasting of one axis: equal lengths, or one of them is 1. *)
Definition bshape (n m : nat) : option nat :=
  if decide (n = m) then Some n
  else if decide (n = 1) then Some m
  else if decide (m = 1) then Some n
  else None.

Definition expand {A} (n : nat) (l : list A) : list A :=
  if decide (length l = n) then l
  else match l with
       | [x] => replicate n x
       | _ => l
       end.

(** [a op b] for 2-d operands, with NumPy's broadcasting. *)
Definition broadcast_op (f : float → float → float) (a b : ndarray)
  : outcome ndarray :=
  match bshape (nrows a) (nrows b), bshape (ncols a) (ncols b) with
  | Some n, Some c =>
      Ok (NdArray c
            (zip_with (λ ra rb, zip_with f (expand c ra) (expand c rb))
                      (expand n (rows a)) (expand n (rows b))))
  | _, _ => Raise ValueError
  end.

(** [a op= b]: the broadcast result must have the shape of [a]. *)
Definition inplace_op (f : float → float → float) (a b : ndarray)
  : outcome ndarray :=
  r <~ broadcast_op f a b ;;
  if decide (shape r = shape a) then Ok r else Raise ValueError.

(** [s op a] for a Python scalar [s]. *)
Definition scalar_op (f : float → float → float) (s : float) (a : ndarray)
  : ndarray :=
  NdArray (ncols a) (map (map (f s)) (rows a)).

(** The array of shape [(n, 1)] holding the given entries. *)
Definition column (zs : list float) : ndarray := NdArray 1 (map (λ z, [z]) zs).

Definition np_ones (n : nat) : list float := replicate n 1%float.
Definition np_ones2 (n c : nat) : ndarray := NdArray c (replicate n (np_ones c)).
Definition np_sqrt (a : ndarray) : ndarray :=
  NdArray (ncols a) (map (map PrimFloat.sqrt) (rows a)).

(** [np.concatenate([a, b], axis=1)] *)
Definition np_concatenate_axis1 (a b : ndarray) : outcome ndarray :=
  if decide (nrows a = nrows b)
  then Ok (NdArray (ncols a + ncols b) (zip_with app (rows a) (rows b)))
  else Raise ValueError.

(** ** The external packages *)

(** The four model classes the notebook instantiates. *)
Inductive model_class :=
  | HighFidelityGp
  | LinearAutoRegressiveModel
  | NonLinearAutoRegressiveModel
  | MultiFidelityDeepGP.

(** What the notebook imports.  [ext_state] is the state those packages keep
    between calls: NumPy's global random generator and the fitted models.
    Functions that only read their arguments are pure; the constructors and
    methods of the models may raise, and may write to stdout (the progress
    lines of [optimize], for one): they return the lines they wrote. *)
Class Libraries := {
  ext_state : Type;
  parameter_space : Type;
  model_handle : Type;
  (* numpy.random *)
  random_seed : Z → ext_state → ext_state;
  standard_normal : ext_state → float * ext_state;
  (* emukit LatinDesign(space).get_samples(n) *)
  latin_get_samples : parameter_space → nat → ext_state → ndarray * ext_state;
  (* numpy reductions *)
  np_std_axis0 : ndarray → list float;
  np_mean : list float → float;
  np_sum : ndarray → float;
  (* sklearn.metrics, scipy.stats.norm *)
  r2_score : ndarray → ndarray → outcome float;
  mean_squared_error : ndarray → ndarray → outcome float;
  norm_logpdf : ndarray → ndarray → ndarray → outcome ndarray;
  (* the model wrappers: constructor (returns the object's name attribute
     and the object), optimize() and predict(x) *)
  model_init : model_class → list ndarray → list ndarray → option nat →
               ext_state →
               outcome (string * model_handle) * list string * ext_state;
  model_optimize : model_class → model_handle →
                   ext_state → outcome unit * list string * ext_state;
  model_predict : model_class → model_handle → ndarray →
                  ext_state →
                  outcome (ndarray * ndarray) * list string * ext_state
}.

(** ** Program state and the notebook's monad *)

Definition ref := nat.

Record PrettyTable := Table {
  field_names : list string;
  table_rows : list (string * list float)
}.

(** What a [print] call of the notebook writes, and a line that a package
    wrote ([PLibrary]: on the terminal it is text like any other; the
    constructor keeps its origin). *)
Inductive printed :=
  | PLine (s : string)
  | PShape (sh : nat * nat)
  | PItems (name label : string) (v : float)
  | PTable (t : PrettyTable)
  | PLibrary (s : string).

Section Notebook.
Context `{Libraries}.

(** Calls into the external packages, in the order they are made, with
    their arguments and what they returned; ghost state, read by the
    theorems only.  [fcn_call] is [fcn_tuple.fcn()] and [latin_design_call]
    is [LatinDesign(space)]. *)
Inductive call :=
  | seed_call (seed : Z)
  | fcn_call
  | latin_design_call (space : parameter_space)
  | get_samples_call (n : nat) (result : ndarray)
  | randn_call (n : nat) (result : ndarray)
  | init_call (cls : model_class) (X Y : list ndarray) (n_iter : option nat)
              (result : outcome (string * model_handle))
  | optimize_call (cls : model_class) (obj : model_handle)
                  (result : outcome unit)
  | predict_call (cls : model_class) (obj : model_handle) (x : ndarray)
                 (result : outcome (ndarray * ndarray)).

Record state := State {
  heap : list ndarray;
  ext : ext_state;
  stdout : list printed;
  calls : list call
}.

Definition set_heap (h : list ndarray) (st : state) : state :=
  State h (ext st) (stdout st) (calls st).
Definition set_ext (e : ext_state) (st : state) : state :=
  State (heap st) e (stdout st) (calls st).
Definition add_stdout (p : list printed) (st : state) : state :=
  State (heap st) (ext st) (stdout st ++ p) (calls st).
Definition add_calls (c : list call) (st : state) : state :=
  State (heap st) (ext st) (stdout st) (calls st ++ c).

Definition M (A : Type) : Type := state → outcome A * state.

Definition ret {A} (a : A) : M A := λ st, (Ok a, st).
Definition bind {A B} (c : M A) (k : A → M B) : M B :=
  λ st, match c st with
        | (Ok a, st') => k a st'
        | (Raise e, st') => (Raise e, st')
        end.
Definition lift {A} (c : outcome A) : M A := λ st, (c, st).

Notation "x <- c ;; k" := (bind c (fun x => k))
  (at level 100, c at next level, right associativity) : py_scope.
Notation "c ;; k" := (bind c (fun _ => k))
  (at level 100, right associativity) : py_scope.

Definition alloc (a : ndarray) : M ref :=
  λ st, (Ok (length (heap st)), set_heap (heap st ++ [a]) st).
Definition load (r : ref) : M ndarray :=
  λ st, match heap st !! r with
        | Some a => (Ok a, st)
        | None => (Raise SystemError, st)
        end.
Definition store (r : ref) (a : ndarray) : M unit :=
  λ st, (Ok tt, set_heap (<[r:=a]> (heap st)) st).
Definition print (p : printed) : M unit :=
  λ st, (Ok tt, add_stdout [p] st).
Definition log (c : call) : M unit :=
  λ st, (Ok tt, add_calls [c] st).
Definition ext_call {A} (f : ext_state → A * ext_state) : M A :=
  λ st, let '(a, e) := f (ext st) in (Ok a, set_ext e st).
(** A call of a constructor or a method of a model: what it wrote goes to
    stdout, whether it returns or raises, and the call is recorded with its
    outcome. *)
Definition lib_call {A} (f : ext_state → outcome A * list string * ext_state)
    (entry : outcome A → call) : M A :=
  λ st, let '(r, out, e) := f (ext st) in
        (r, State (heap st) e (stdout st ++ map PLibrary out)
                  (calls st ++ [entry r])).

(** [for x in l: body] *)
Fixpoint for_each {A} (l : list A) (body : A → M unit) : M unit :=
  match l with
  | [] => ret tt
  | x :: l' => body x ;; for_each l' body
  end.

(** A loop that rebinds or appends to a local variable [s]. *)
Fixpoint for_fold {A S} (l : list A) (body : S → A → M S) (s : S) : M S :=
  match l with
  | [] => ret s
  | x :: l' => s' <- body s x ;; for_fold l' body s'
  end.

(** [[f(x) for x in l]] *)
Fixpoint list_comp {A B} (f : A → M B) (l : list A) : M (list B) :=
  match l with
  | [] => ret []
  | x :: l' => y <- f x ;; ys <- list_comp f l' ;; ret (y :: ys)
  end.

(** [r op= b] on the array object [r]. *)
Definition inplace (f : float → float → float) (r : ref) (b : ndarray)
  : M unit :=
  a <- load r ;;
  a' <- lift (inplace_op f a b) ;;
  store r a'.

(** [np.random.seed(seed)] *)
Definition np_random_seed (seed : Z) : M unit :=
  log (seed_call seed) ;;
  ext_call (λ e, (tt, random_seed seed e)).

(** [np.random.randn(n, 1)]: [n] successive standard-normal draws. *)
Fixpoint randn_draws (n : nat) (e : ext_state) : list float * ext_state :=
  match n with
  | 0 => ([], e)
  | S n' =>
      let '(z, e1) := standard_normal e in
      let '(zs, e2) := randn_draws n' e1 in
      (z :: zs, e2)
  end.

Definition np_random_randn (n : nat) : M ndarray :=
  zs <- ext_call (randn_draws n) ;;
  let z := column zs in
  log (randn_call n z) ;;
  ret z.

(** [latin.get_samples(n)]: a new array object. *)
Definition get_samples (space : parameter_space) (n : nat) : M ref :=
  a <- ext_call (latin_get_samples space n) ;;
  log (get_samples_call n a) ;;
  alloc a.

(** ** Cell 2: the benchmark descriptors *)

Record Function := {
  name : string;
  y_scale : float;
  noise_level : list float;
  do_x_scaling : bool;
  num_data : list nat;
  (* [fcn()] returns the list [f] of per-fidelity functions and the space;
     the call builds objects: it draws no random number and writes nothing *)
  fcn : unit → list (ndarray → ndarray) * parameter_space
}.

(** ** Cell 7: generate_data *)

(** Lines 159-193: everything before the shape is printed. *)
Definition generate_data_arrays (fcn_tuple : Function) (n_test_points : nat)
  : M (ref * ref * list ref * list ref) :=
  let do_x_scaling := fcn_tuple.(do_x_scaling) in
  (* fcn, space = fcn_tuple.fcn() *)
  let '(fcn_f, space) := fcn_tuple.(fcn) tt in
  log fcn_call ;;
  (* Generate training data: latin = LatinDesign(space) *)
  log (latin_design_call space) ;;
  X <- list_comp (get_samples space) fcn_tuple.(num_data) ;;
  (* Scale X if required *)
  x0 <- lift (getitem X 0) ;;
  a0 <- load x0 ;;
  let scalings :=
    if do_x_scaling then np_std_axis0 a0 else np_ones (ncols a0) in
  for_each X (λ x, inplace PrimFloat.div x (row_vec scalings)) ;;
  Y <- for_fold (enumerate X) (λ Y ix,
         f_i <- lift (getitem fcn_f ix.1) ;;
         a <- load ix.2 ;;
         arg <- lift (broadcast_op PrimFloat.mul a (row_vec scalings)) ;;
         y <- alloc (f_i arg) ;;
         ret (Y ++ [y])) [] ;;
  let y_scale := fcn_tuple.(y_scale) in
  (* scale y and add noise if required *)
  let noise_levels := fcn_tuple.(noise_level) in
  for_each (zip Y noise_levels) (λ ys,
         a <- load ys.1 ;;
         z <- np_random_randn (nrows a) ;;
         inplace PrimFloat.div ys.1
           (scalar_op PrimFloat.add y_scale (scalar_op PrimFloat.mul ys.2 z))) ;;
  (* Generate test data *)
  x_test <- get_samples space n_test_points ;;
  inplace PrimFloat.div x_test (row_vec scalings) ;;
  f_last <- lift (getitem_last fcn_f) ;;
  a <- load x_test ;;
  arg <- lift (broadcast_op PrimFloat.mul a (row_vec scalings)) ;;
  y_test <- alloc (f_last arg) ;;
  inplace PrimFloat.div y_test (scalar_arr y_scale) ;;
  a <- load x_test ;;
  let i_highest_fidelity :=
    scalar_op PrimFloat.mul (float_of_nat (length fcn_tuple.(num_data) - 1))
              (np_ones2 (nrows a) 1) in
  c <- lift (np_concatenate_axis1 a i_highest_fidelity) ;;
  x_test <- alloc c ;;
  ret (x_test, y_test, X, Y).

Definition generate_data (fcn_tuple : Function) (n_test_points : nat)
  : M (ref * ref * list ref * list ref) :=
  r <- generate_data_arrays fcn_tuple n_test_points ;;
  (* print(X[1].shape) *)
  x1 <- lift (getitem r.1.2 1) ;;
  a1 <- load x1 ;;
  print (PShape (shape a1)) ;;
  ret r.

(** ** The model objects *)

Record model := Model {
  cls : model_class;
  model_name : string;
  obj : model_handle
}.

(** [cls(X, Y)] or [cls(X, Y, n_iter=k)]: the constructor reads the arrays. *)
Definition new_model (c : model_class) (X Y : list ref) (n_iter : option nat)
  : M model :=
  Xa <- list_comp load X ;;
  Ya <- list_comp load Y ;;
  r <- lib_call (model_init c Xa Ya n_iter) (init_call c Xa Ya n_iter) ;;
  ret (Model c r.1 r.2).

Definition set_name (m : model) (s : string) : model :=
  Model (cls m) s (obj m).

Definition optimize (m : model) : M unit :=
  lib_call (model_optimize (cls m) (obj m)) (optimize_call (cls m) (obj m)).

(** [model.predict(x)] returns two new arrays. *)
Definition predict (m : model) (x : ref) : M (ref * ref) :=
  a <- load x ;;
  r <- lib_call (model_predict (cls m) (obj m) a)
                (predict_call (cls m) (obj m) a) ;;
  y_mean <- alloc r.1 ;;
  y_var <- alloc r.2 ;;
  ret (y_mean, y_var).

(** ** Cell 8: calculate_metrics *)

Definition calculate_metrics (y_test y_mean_prediction y_var_prediction : ref)
  : M (dict float) :=
  yt <- load y_test ;;
  ym <- load y_mean_prediction ;;
  yv <- load y_var_prediction ;;
  (* R2 *)
  r2 <- lift (r2_score yt ym) ;;
  (* RMSE *)
  mse <- lift (mean_squared_error yt ym) ;;
  let rmse := PrimFloat.sqrt mse in
  (* Test log likelihood *)
  lp <- lift (norm_logpdf yt ym (np_sqrt yv)) ;;
  let mnll :=
    PrimFloat.div (PrimFloat.opp (np_sum lp)) (float_of_nat (nrows yt)) in
  ret [("r2", r2); ("rmse", rmse); ("mnll", mnll)].

(** ** Cell 6: benchmark_models *)

(** The body of [for model in models]. *)
Definition benchmark_models_iter (x_test y_test : ref)
    (metrics : dict (dict float)) (model : model) : M (dict (dict float)) :=
  optimize model ;;
  p <- predict model x_test ;;
  m <- calculate_metrics y_test p.1 p.2 ;;
  let metrics := dict_set (model_name model) m metrics in
  print (PLine "+ ######################## +") ;;
  r2 <- lift (e <~ dict_item metrics (model_name model) ;; dict_item e "r2") ;;
  print (PItems (model_name model) "r2" r2) ;;
  print (PLine "+ ######################## + ") ;;
  ret metrics.

Definition benchmark_models (models : list model) (x_test y_test : ref)
  : M (dict (dict float)) :=
  for_fold models (benchmark_models_iter x_test y_test) [].

(** ** Cell 5: test_function *)

(** Lines 119-126: seed, data and the list of model objects. *)
Definition test_function_models (fcn : Function) (seed : Z)
  : M (list model * ref * ref) :=
  np_random_seed seed ;;
  r <- generate_data fcn 1000 ;;
  let '(x_test, y_test, X, Y) := r in
  mf_dgp_fix_lf_mean <- new_model MultiFidelityDeepGP X Y (Some 5000) ;;
  let mf_dgp_fix_lf_mean := set_name mf_dgp_fix_lf_mean "mf_dgp_fix_lf_mean" in
  m1 <- new_model HighFidelityGp X Y None ;;
  m2 <- new_model LinearAutoRegressiveModel X Y None ;;
  m3 <- new_model NonLinearAutoRegressiveModel X Y None ;;
  let models := [m1; m2; m3; mf_dgp_fix_lf_mean] in
  ret (models, x_test, y_test).

Definition test_function (fcn : Function) (seed : Z) : M (dict (dict float)) :=
  s <- test_function_models fcn seed ;;
  benchmark_models s.1.1 s.1.2 s.2.

(** ** Cell 4: print_metrics *)

(** [metric[name][metric_name] for metric in metrics.values()] *)
Definition metric_values (metrics : dict (dict (dict float)))
    (name metric_name : string) : outcome (list float) :=
  omap_list (λ metric, e <~ dict_item metric name ;; dict_item e metric_name)
            (dict_values metrics).

(** Lines 99-107: the table that is printed. *)
Definition metrics_table (metrics : dict (dict (dict float)))
  : outcome PrettyTable :=
  first <~ getitem (dict_values metrics) 0 ;;
  let model_names := dict_keys first in
  let metric_names := ["r2"; "mnll"; "rmse"] in
  table_rows <~ omap_list (λ name,
      mean <~ omap_list (λ metric_name,
                vals <~ metric_values metrics name metric_name ;;
                Ok (np_mean vals)) metric_names ;;
      Ok (name, mean)) model_names ;;
  Ok (Table ("model" :: metric_names) table_rows).

Definition print_metrics (metrics : dict (dict (dict float))) : M unit :=
  table <- lift (metrics_table metrics) ;;
  print (PTable table).

(** ** Cell 3: do_benchmark *)

(** The body of [for i, seed in enumerate(seeds)]. *)
Definition do_benchmark_iter (fcn_tuple : Function)
    (metrics : dict (dict (dict float))) (iseed : nat * Z)
  : M (dict (dict (dict float))) :=
  let run_name := str_int iseed.2 +:+ str_list fcn_tuple.(num_data) in
  r <- test_function fcn_tuple iseed.2 ;;
  let metrics := dict_set run_name r metrics in
  print (PLine ("After " +:+ str_nat (iseed.1 + 1) +:+ " runs of "
                +:+ fcn_tuple.(name))) ;;
  print_metrics metrics ;;
  ret metrics.

Definition do_benchmark (fcn_tuple : Function) : M (dict (dict (dict float))) :=
  (* Some random seeds to use *)
  let seeds := [123; 184; 202; 289; 732]%Z in
  for_fold (enumerate seeds) (do_benchmark_iter fcn_tuple) [].

End Notebook.

(** ** Vocabulary of the statements *)

Section Statements.
Context `{Libraries}.

(** An array that [LatinDesign(space).get_samples] returns. *)
Definition sample_of (space : parameter_space) (a : ndarray) : Prop :=
  ∃ n e, a = (latin_get_samples space n e).1.

(** What the packages promise about shapes: the samples of a space are
    well-shaped arrays with one column per dimension of the space, and
    [std(axis=0)] has one entry per column. *)
Definition shape_contract (space : parameter_space) : Prop :=
  (∃ d, ∀ a, sample_of space a → well_shaped a ∧ ncols a = d)
  ∧ ∀ a, length (np_std_axis0 a) = ncols a.

(** The divisor of line 184: [y_scale + std_noise * z]. *)
Definition noise_divisor (y_scale std_noise : float) (z : ndarray) : ndarray :=
  scalar_op PrimFloat.add y_scale (scalar_op PrimFloat.mul std_noise z).

(** What lines 183-184 do to the arrays of [Y], given the noise levels: the
    arrays that [zip] pairs with a noise level are divided by
    [y_scale + std_noise * z] for a fresh draw [z] of their number of rows;
    the others are left as they are.  The last component lists the calls. *)
Inductive noised (y_scale : float)
  : list ndarray → list float → list ndarray → list call → Prop :=
  | noised_nil_l ns : noised y_scale [] ns [] []
  | noised_nil_r ys : noised y_scale ys [] ys []
  | noised_cons y ys sd ns y' ys' zs cs :
      length zs = nrows y →
      inplace_op PrimFloat.div y (noise_divisor y_scale sd (column zs)) = Ok y' →
      noised y_scale ys ns ys' cs →
      noised y_scale (y :: ys) (sd :: ns) (y' :: ys')
             (randn_call (nrows y) (column zs) :: cs).

(** The values that a successful run of lines 159-193 goes through. *)
Record generated := Generated {
  raw_samples : list ndarray;  (* what get_samples returned, per fidelity *)
  scalings : list float;
  X_arrays : list ndarray;     (* the arrays of X when the function returns *)
  Y_raw : list ndarray;        (* the values of fcn.f[i], before line 184 *)
  Y_arrays : list ndarray;     (* the arrays of Y when the function returns *)
  noise_calls : list call;
  raw_test : ndarray;          (* what get_samples returned for the test set *)
  x_test_scaled : ndarray;     (* x_test after line 188 *)
  y_test_array : ndarray;
  x_test_array : ndarray       (* x_test after line 193 *)
}.

Definition generation (fcn_tuple : Function) (n_test_points : nat)
    (st : state) (r : ref * ref * list ref * list ref) (st' : state)
    (g : generated) : Prop :=
  let fcn_f := (fcn_tuple.(fcn) tt).1 in
  let k := length fcn_tuple.(num_data) in
  let b := length (heap st) in
  let s := scalings g in
  length (raw_samples g) = k
  ∧ (∃ raw0, raw_samples g !! 0 = Some raw0
       ∧ s = if fcn_tuple.(do_x_scaling) then np_std_axis0 raw0
             else np_ones (ncols raw0))
  ∧ Forall2 (λ raw x, inplace_op PrimFloat.div raw (row_vec s) = Ok x)
            (raw_samples g) (X_arrays g)
  ∧ length (Y_raw g) = k
  ∧ (∀ i x, X_arrays g !! i = Some x →
       ∃ f_i arg, fcn_f !! i = Some f_i
         ∧ broadcast_op PrimFloat.mul x (row_vec s) = Ok arg
         ∧ Y_raw g !! i = Some (f_i arg))
  ∧ noised fcn_tuple.(y_scale) (Y_raw g) fcn_tuple.(noise_level)
           (Y_arrays g) (noise_calls g)
  ∧ inplace_op PrimFloat.div (raw_test g) (row_vec s) = Ok (x_test_scaled g)
  ∧ (∃ f_last arg, last fcn_f = Some f_last
       ∧ broadcast_op PrimFloat.mul (x_test_scaled g) (row_vec s) = Ok arg
       ∧ inplace_op PrimFloat.div (f_last arg) (scalar_arr fcn_tuple.(y_scale))
         = Ok (y_test_array g))
  ∧ np_concatenate_axis1 (x_test_scaled g)
      (scalar_op PrimFloat.mul (float_of_nat (k - 1))
                 (np_ones2 (nrows (x_test_scaled g)) 1))
    = Ok (x_test_array g)
  ∧ r = (b + 2 * k + 2, b + 2 * k + 1, seq b k, seq (b + k) k)
  ∧ heap st' = heap st ++ X_arrays g ++ Y_arrays g
               ++ [x_test_scaled g; y_test_array g; x_test_array g]
  ∧ stdout st' = stdout st
  ∧ calls st' = calls st
                ++ [fcn_call; latin_design_call (fcn_tuple.(fcn) tt).2]
                ++ zip_with get_samples_call fcn_tuple.(num_data) (raw_samples g)
                ++ noise_calls g
                ++ [get_samples_call n_test_points (raw_test g)].

(** [raws] are the arrays that [latin.get_samples] returned for the training
    sets, in order, and [raw_t] the one it returned for the test set: after
    [fcn()] and [LatinDesign(space)], the calls the run made are those,
    with [randn] calls in between. *)
Definition sampled (fcn_tuple : Function) (n_test_points : nat)
    (st st' : state) (raws : list ndarray) (raw_t : ndarray) : Prop :=
  ∃ cs,
    calls st' = calls st
                ++ [fcn_call; latin_design_call (fcn_tuple.(fcn) tt).2]
                ++ zip_with get_samples_call fcn_tuple.(num_data) raws
                ++ cs ++ [get_samples_call n_test_points raw_t]
    ∧ Forall (λ c, ∃ m z, c = randn_call m z) cs
    ∧ length raws = length fcn_tuple.(num_data).

(** The scaling vector of lines 167-170, from the lowest-fidelity samples. *)
Definition scalings_from (fcn_tuple : Function) (raw0 : ndarray)
  : list float :=
  if fcn_tuple.(do_x_scaling) then np_std_axis0 raw0
  else np_ones (ncols raw0).

(** The floats of an array round-trip through the scaling: dividing an
    entry by its scale and multiplying by it again gives the entry back. *)
Definition round_trips (a : ndarray) (s : list float) : Prop :=
  well_shaped a ∧ length s = ncols a
  ∧ Forall (λ r, Forall2 (λ x sj, PrimFloat.mul (PrimFloat.div x sj) sj = x)
                         r s) (rows a).

(** How an entry [y'] of [Y] relates to the function values [y] it was
    created with, given the noise level paired with it (if any). *)
Definition after_noise (y_scale : float) (noise : option float)
    (y y' : ndarray) : Prop :=
  match noise with
  | Some sd =>
      ∃ zs, length zs = nrows y
        ∧ inplace_op PrimFloat.div y (noise_divisor y_scale sd (column zs))
          = Ok y'
  | None => y' = y
  end.

(** The calls without the arrays they returned. *)
Inductive call_kind :=
  | KSeed (seed : Z)
  | KFcn
  | KDesign
  | KSamples (n : nat)
  | KRandn
  | KInit (cls : model_class)
  | KOptimize (cls : model_class)
  | KPredict (cls : model_class).

Definition kind_of (c : call) : call_kind :=
  match c with
  | seed_call seed => KSeed seed
  | fcn_call => KFcn
  | latin_design_call _ => KDesign
  | get_samples_call n _ => KSamples n
  | randn_call _ _ => KRandn
  | init_call cls _ _ _ _ => KInit cls
  | optimize_call cls _ _ => KOptimize cls
  | predict_call cls _ _ _ => KPredict cls
  end.

(** The values of one metric of one model over the runs of [metrics], in
    the order of the dictionary. *)
Definition run_values (metrics : dict (dict (dict float)))
    (name metric_name : string) (vals : list float) : Prop :=
  Forall2 (λ run v, ∃ e, dict_get name run.2 = Some e
                         ∧ dict_get metric_name e = Some v) metrics vals.

Definition is_table (p : printed) : bool :=
  match p with
  | PTable _ => true
  | _ => false
  end.

(** [run_name] of line 83 and the line printed after run [k] (line 85). *)
Definition run_name (fcn_tuple : Function) (seed : Z) : string :=
  str_int seed +:+ str_list fcn_tuple.(num_data).

Definition after_line (fcn_tuple : Function) (k : nat) : string :=
  "After " +:+ str_nat k +:+ " runs of " +:+ fcn_tuple.(name).

(** The calls of generate_data in a run of test_function, in order. *)
Definition data_calls (fcn_tuple : Function) : list call_kind :=
  [KFcn; KDesign] ++ map KSamples fcn_tuple.(num_data)
  ++ replicate (length fcn_tuple.(num_data) `min` length fcn_tuple.(noise_level))
               KRandn
  ++ [KSamples 1000].

(** The dictionary that calculate_metrics returns for the arrays of the
    targets [yt], the predicted means [ym] and the predicted variances
    [yv]. *)
Definition metrics_of (yt ym yv : ndarray) (d : dict float) : Prop :=
  ∃ r2 mse lp,
    r2_score yt ym = Ok r2
    ∧ mean_squared_error yt ym = Ok mse
    ∧ norm_logpdf yt ym (np_sqrt yv) = Ok lp
    ∧ d = [("r2", r2); ("rmse", PrimFloat.sqrt mse);
           ("mnll", PrimFloat.div (PrimFloat.opp (np_sum lp))
                                  (float_of_nat (nrows yt)))].

(** A model after its turn in the loop of benchmark_models: what its
    [optimize] and its [predict] wrote, the two arrays [predict] returned
    and the metrics entered for it. *)
Record fitted := Fitted {
  f_model : model;
  f_optimize_out : list string;
  f_predict_out : list string;
  f_mean : ndarray;
  f_var : ndarray;
  f_metrics : dict float
}.

(** Its two calls: [optimize()] returned, and [predict(x)] returned the two
    arrays. *)
Definition fitted_calls (x : ndarray) (f : fitted) : list call :=
  [optimize_call (cls (f_model f)) (obj (f_model f)) (Ok tt);
   predict_call (cls (f_model f)) (obj (f_model f)) x
                (Ok (f_mean f, f_var f))].

(** The models of [fs] are fitted and predict at [x] one after the other,
    from the state [e] of the packages to [e']: both calls return, with the
    lines written and the mean and variance that the record holds. *)
Fixpoint fit_all (e : ext_state) (x : ndarray) (fs : list fitted)
    (e' : ext_state) : Prop :=
  match fs with
  | [] => e' = e
  | f :: fs =>
      ∃ e1 e2,
        model_optimize (cls (f_model f)) (obj (f_model f)) e
        = (Ok tt, f_optimize_out f, e1)
        ∧ model_predict (cls (f_model f)) (obj (f_model f)) x e1
          = (Ok (f_mean f, f_var f), f_predict_out f, e2)
        ∧ fit_all e2 x fs e'
  end.

(** What benchmark_models writes for a fitted model: the lines of the two
    calls, then the three lines of lines 142-144. *)
Definition fit_lines (f : fitted) (r2 : float) : list printed :=
  map PLibrary (f_optimize_out f ++ f_predict_out f)
  ++ [PLine "+ ######################## +";
      PItems (model_name (f_model f)) "r2" r2;
      PLine "+ ######################## + "].

Definition entries (fs : list fitted) : list (string * dict float) :=
  map (λ f, (model_name (f_model f), f_metrics f)) fs.

(** [d = dict(); d[k] = v] for the pairs in order. *)
Definition dict_of {V} (kvs : list (string * V)) : dict V :=
  foldl (λ d kv, dict_set kv.1 kv.2 d) [] kvs.

(** [g] holds the arrays of a run of lines 159-193 with [n] test points. *)
Definition data_of (fcn_tuple : Function) (n : nat) (g : generated) : Prop :=
  ∃ st r st', generation fcn_tuple n st r st' g.

(** One run of test_function for [seed]: [cs] are its calls into the
    packages and [run] is the dictionary it returns.  The generator is
    seeded; the data [g] are drawn and built with 1000 test points; the deep
    GP and the three baselines are constructed, in this order, on the arrays
    of [X] and [Y] as generate_data left them; then each model in the order
    high-fidelity GP, linear, non-linear auto-regressive, deep GP is
    fitted and asked for its prediction at the test inputs, and its entry in
    [run] holds the metrics of the test targets against this prediction. *)
Definition is_run (fcn_tuple : Function) (seed : Z) (cs : list call)
    (run : dict (dict float)) : Prop :=
  ∃ g nm4 f1 f2 f3 f4,
    let X := X_arrays g in
    let Y := Y_arrays g in
    let fs := [f1; f2; f3; f4] in
    data_of fcn_tuple 1000 g
    ∧ map (λ f, cls (f_model f)) fs
      = [HighFidelityGp; LinearAutoRegressiveModel;
         NonLinearAutoRegressiveModel; MultiFidelityDeepGP]
    ∧ model_name (f_model f4) = "mf_dgp_fix_lf_mean"
    ∧ Forall (λ f, metrics_of (y_test_array g) (f_mean f) (f_var f)
                              (f_metrics f)) fs
    ∧ run = dict_of (entries fs)
    ∧ cs = [seed_call seed; fcn_call;
            latin_design_call (fcn_tuple.(fcn) tt).2]
           ++ zip_with get_samples_call fcn_tuple.(num_data) (raw_samples g)
           ++ noise_calls g
           ++ [get_samples_call 1000 (raw_test g)]
           ++ [init_call MultiFidelityDeepGP X Y (Some 5000)
                         (Ok (nm4, obj (f_model f4)));
               init_call HighFidelityGp X Y None
                         (Ok (model_name (f_model f1), obj (f_model f1)));
               init_call LinearAutoRegressiveModel X Y None
                         (Ok (model_name (f_model f2), obj (f_model f2)));
               init_call NonLinearAutoRegressiveModel X Y None
                         (Ok (model_name (f_model f3), obj (f_model f3)))]
           ++ flat_map (fitted_calls (x_test_array g)) fs.

End Statements.

(** ** Cell 2: the five descriptors *)

(** The factories of [emukit.test_functions.multi_fidelity], which the
    notebook imports: a call returns the object with the list [f] of
    per-fidelity functions, and the parameter space. *)
Class TestFunctions `{Libraries} := {
  multi_fidelity_borehole_function :
    unit → list (ndarray → ndarray) * parameter_space;
  multi_fidelity_branin_function :
    unit → list (ndarray → ndarray) * parameter_space;
  multi_fidelity_currin_function :
    unit → list (ndarray → ndarray) * parameter_space;
  multi_fidelity_park_function :
    unit → list (ndarray → ndarray) * parameter_space;
  multi_fidelity_hartmann_3d :
    unit → list (ndarray → ndarray) * parameter_space
}.

Section Descriptors.
Context `{TestFunctions}.

(** The integers [y_scale=100] and [y_scale=1] only ever meet floats; the
    literals [0.05] and [0.1] are read to the nearest binary64 number, as
    Python reads them. *)
#[warnings="-inexact-float"]
Definition borehole : Function :=
  {| name := "borehole"; y_scale := 100%float;
     noise_level := [0.05; 0.1]%float;
     do_x_scaling := true; num_data := [60; 5];
     fcn := multi_fidelity_borehole_function |}.

Definition branin : Function :=
  {| name := "branin"; y_scale := 1%float; noise_level := [0; 0; 0]%float;
     do_x_scaling := false; num_data := [80; 30; 10];
     fcn := multi_fidelity_branin_function |}.

Definition currin : Function :=
  {| name := "currin"; y_scale := 1%float; noise_level := [0; 0]%float;
     do_x_scaling := false; num_data := [12; 5];
     fcn := multi_fidelity_currin_function |}.

Definition park : Function :=
  {| name := "park"; y_scale := 1%float; noise_level := [0; 0]%float;
     do_x_scaling := false; num_data := [30; 5];
     fcn := multi_fidelity_park_function |}.

Definition hartmann_3d : Function :=
  {| name := "hartmann"; y_scale := 1%float; noise_level := [0; 0; 0]%float;
     do_x_scaling := false; num_data := [80; 40; 20];
     fcn := multi_fidelity_hartmann_3d |}.

End Descriptors.

(** ** Vocabulary of further statements *)

(** No NaN and no infinity among the entries of an array, and among the
    draws that the [randn] calls of a log returned. *)
Definition finite_array (z : ndarray) : bool :=
  forallb (forallb PrimFloat.is_finite) (rows z).

Definition finite_draws `{Libraries} (cs : list call) : bool :=
  forallb (λ c, match c with
                | randn_call _ z => finite_array z
                | _ => true
                end) cs.

(** A run holds the three metrics of the table for the model [name]. *)
Definition has_metrics (name : string) (run : dict (dict float)) : bool :=
  match dict_get name run with
  | Some e =>
      forallb (λ metric_name, bool_decide (is_Some (dict_get metric_name e)))
              ["r2"; "mnll"; "rmse"]
  | None => false
  end.

(** Every run holds the three metrics of every model of the first run. *)
Definition printable (metrics : dict (dict (dict float))) : bool :=
  match dict_values metrics with
  | [] => false
  | first :: _ =>
      forallb (λ name, forallb (has_metrics name) (dict_values metrics))
              (dict_keys first)
  end.

(** A run holds entries for exactly the given model names, each with the
    three metrics of calculate_metrics. *)
Definition run_of (names : list string) (run : dict (dict float)) : Prop :=
  (∀ k, k ∈ dict_keys run ↔ k ∈ names)
  ∧ Forall (λ m, dict_keys m = ["r2"; "rmse"; "mnll"]) (dict_values run).

(** The names under which test_function hands its four models to
    benchmark_models, when the three baseline wrappers name their objects by
    [wrapper_name]. *)
Definition run_names (wrapper_name : model_class → string) : list string :=
  [wrapper_name HighFidelityGp; wrapper_name LinearAutoRegressiveModel;
   wrapper_name NonLinearAutoRegressiveModel; "mf_dgp_fix_lf_mean"].

Section Vocabulary.
Context `{Libraries}.

(** Every object of a class gets the same [name] attribute from its
    constructor. *)
Definition stable_names (wrapper_name : model_class → string) : Prop :=
  ∀ c Xa Ya n_iter e r out e',
    model_init c Xa Ya n_iter e = (Ok r, out, e') → r.1 = wrapper_name c.

(** The calls made between two states of a run. *)
Definition new_calls (st st' : state) : list call :=
  drop (length (calls st)) (calls st').

(** A descriptor of the kind of branin, currin, park and hartmann_3d: no
    input scaling, unit output scale, a zero noise level for every
    fidelity. *)
Definition plain (fcn_tuple : Function) : Prop :=
  fcn_tuple.(do_x_scaling) = false
  ∧ fcn_tuple.(y_scale) = 1%float
  ∧ fcn_tuple.(noise_level)
    = replicate (length fcn_tuple.(num_data)) 0%float.

(** The functions of a descriptor map arrays whose rows all have the width
    of the array to such arrays. *)
Definition well_shaped_outputs (fcn_tuple : Function) : Prop :=
  ∀ f a, f ∈ (fcn_tuple.(fcn) tt).1 → well_shaped a → well_shaped (f a).

End Vocabulary.

(** ** A test double of the external packages *)

(** Used to run the notebook on concrete inputs.  The Latin design and the
    normal generator read from a script fixed by the seed ([get_samples]
    returns the next scripted array if it has one column per dimension of
    the space, and no rows otherwise); the reductions and the scores are
    computed with float arithmetic; a model predicts mean 0 and variance 1,
    and [optimize] writes one line, and raises for the classes selected by
    [fails]. *)
Module Mock.

Record mock_state := MockState {
  samples : list ndarray;
  normals : list float
}.

Definition fsum (l : list float) : float := fold_left PrimFloat.add l 0%float.
Definition fmean (l : list float) : float :=
  PrimFloat.div (fsum l) (float_of_nat (length l)).
Definition col (j : nat) (a : ndarray) : list float :=
  map (λ r, nth j r 0%float) (rows a).
Definition fstd (l : list float) : float :=
  let m := fmean l in
  PrimFloat.sqrt
    (fmean (map (λ x, let d := PrimFloat.sub x m in PrimFloat.mul d d) l)).
Definition sq_err (a b : list float) : float :=
  fsum (zip_with (λ x y, let d := PrimFloat.sub x y in PrimFloat.mul d d) a b).

Definition default_name (c : model_class) : string :=
  match c with
  | HighFidelityGp => "hf_gp"
  | LinearAutoRegressiveModel => "ar1"
  | NonLinearAutoRegressiveModel => "nargp"
  | MultiFidelityDeepGP => "mf_dgp"
  end.

(** [a] has [d] columns, in its header and in each of its rows. *)
Definition fits (d : nat) (a : ndarray) : bool :=
  bool_decide (ncols a = d)
  && forallb (λ r, bool_decide (length r = d)) (rows a).

Definition lib (script : Z → mock_state) (fails : model_class → bool)
  : Libraries := {|
  ext_state := mock_state;
  parameter_space := nat;
  model_handle := unit;
  random_seed := λ seed _, script seed;
  standard_normal := λ e,
    match normals e with
    | z :: q => (z, MockState (samples e) q)
    | [] => (0%float, e)
    end;
  latin_get_samples := λ d n e,
    match samples e with
    | a :: q => (if fits d a then a else NdArray d [], MockState q (normals e))
    | [] => (NdArray d [], e)
    end;
  np_std_axis0 := λ a, map (λ j, fstd (col j a)) (seq 0 (ncols a));
  np_mean := fmean;
  np_sum := λ a, fsum (concat (rows a));
  r2_score := λ y m,
    let yc := col 0 y in
    Ok (PrimFloat.sub 1
          (PrimFloat.div (sq_err yc (col 0 m))
                         (sq_err yc (replicate (length yc) (fmean yc)))));
  mean_squared_error := λ y m,
    Ok (PrimFloat.div (sq_err (col 0 y) (col 0 m)) (float_of_nat (nrows y)));
  norm_logpdf := λ y m s,
    d <~ broadcast_op PrimFloat.sub y m ;;
    broadcast_op (λ x sd, let u := PrimFloat.div x sd in
                          PrimFloat.opp (PrimFloat.div (PrimFloat.mul u u) 2))
                 d s;
  model_init := λ c _ _ _ e, (Ok (default_name c, tt), [], e);
  model_optimize := λ c _ e,
    if fails c
    then (Raise (LibraryError "optimization failed"),
          ["Warning - optimization restart 1/1 failed"], e)
    else (Ok tt, ["Optimization restart 1/1, f = 0"], e);
  model_predict := λ _ _ x e,
    (Ok (NdArray 1 (replicate (nrows x) [0%float]),
         NdArray 1 (replicate (nrows x) [1%float])), [], e)
|}.

(** Two fidelities in one dimension: the samples 0 and 98 at the lowest
    fidelity, the sample 1 at the highest, and the test points 1, 2, 3. *)
Definition script (seed : Z) : mock_state :=
  MockState [column [0; 98]; column [1]; column [1; 2; 3]]%float
            [0.5; 0.25; 2]%float.

Definition never (c : model_class) : bool := false.
Definition nargp_fails (c : model_class) : bool :=
  match c with
  | NonLinearAutoRegressiveModel => true
  | _ => false
  end.

Definition L : Libraries := lib script never.
Definition L_fail : Libraries := lib script nargp_fails.

Definition st0 : @state L := @State L [] (script 0) [] [].
Definition st0_fail : @state L_fail := @State L_fail [] (script 0) [] [].

(** Descriptors whose functions return their argument. *)
Definition scaled : @Function L :=
  @Build_Function L "scaled" 1%float [0; 0]%float true [2; 1]
                  (λ _, ([λ a, a; λ a, a], 1)).
Definition unscaled : @Function L :=
  @Build_Function L "unscaled" 2%float [0.5]%float false [2; 1]
                  (λ _, ([λ a, a; λ a, a], 1)).
Definition single : @Function L :=
  @Build_Function L "single" 1%float [0]%float false [2]
                  (λ _, ([λ a, a], 1)).
Definition scaled_fail : @Function L_fail :=
  @Build_Function L_fail "scaled" 1%float [0; 0]%float true [2; 1]
                  (λ _, ([λ a, a; λ a, a], 1)).

(** Results of running the notebook's functions on them. *)
Definition value {A} (o : outcome A) (default : A) : A :=
  match o with
  | Ok a => a
  | Raise _ => default
  end.

Definition final_scaled : @state L := (generate_data scaled 3 st0).2.
Definition final_unscaled : @state L := (generate_data unscaled 3 st0).2.
Definition built_single : @state L := (generate_data_arrays single 3 st0).2.
Definition bench_metrics : dict (dict (dict float)) :=
  value (do_benchmark scaled st0).1 [].
Definition bench_final : @state L := (do_benchmark scaled st0).2.

(** The run in which [optimize] of the third model raises. *)
Definition hf_gp : @model L_fail := @Model L_fail HighFidelityGp "hf_gp" tt.
Definition ar1 : @model L_fail :=
  @Model L_fail LinearAutoRegressiveModel "ar1" tt.
Definition nargp : @model L_fail :=
  @Model L_fail NonLinearAutoRegressiveModel "nargp" tt.
Definition mf_dgp : @model L_fail :=
  @Model L_fail MultiFidelityDeepGP "mf_dgp_fix_lf_mean" tt.
Definition fail_setup : @state L_fail :=
  (test_function_models scaled_fail 123 st0_fail).2.
Definition fail_two_done : @state L_fail :=
  (benchmark_models [hf_gp; ar1] 6 5 fail_setup).2.
Definition fail_two_metrics : dict (dict float) :=
  value (benchmark_models [hf_gp; ar1] 6 5 fail_setup).1 [].
Definition fail_final : @state L_fail := (optimize nargp fail_two_done).2.

(** The factories of the test double: identity functions on a space of one
    dimension, two or three fidelities as the descriptors need. *)
Definition functions : @TestFunctions L :=
  @Build_TestFunctions L
    (λ _, ([λ a, a; λ a, a], 1))
    (λ _, ([λ a, a; λ a, a; λ a, a], 1))
    (λ _, ([λ a, a; λ a, a], 1))
    (λ _, ([λ a, a; λ a, a], 1))
    (λ _, ([λ a, a; λ a, a; λ a, a], 1)).


Definition mock_currin : @Function L := @currin L functions.
Definition final_currin : @state L := (generate_data mock_currin 3 st0).2.
Definition final_single : @state L := (do_benchmark single st0).2.

(** The models and the test set of the first run on [scaled]. *)
Definition setup : @state L := (test_function_models scaled 123 st0).2.
Definition models : list (@model L) :=
  [@Model L HighFidelityGp "hf_gp" tt;
   @Model L LinearAutoRegressiveModel "ar1" tt;
   @Model L NonLinearAutoRegressiveModel "nargp" tt;
   @Model L MultiFidelityDeepGP "mf_dgp_fix_lf_mean" tt].
Definition run_metrics : dict (dict float) :=
  value (benchmark_models models 6 5 setup).1 [].
Definition run_final : @state L := (benchmark_models models 6 5 setup).2.

(** Two models under one name. *)
Definition twins : list (@model L) :=
  [@Model L HighFidelityGp "gp" tt; @Model L LinearAutoRegressiveModel "gp" tt].
Definition twins_metrics : dict (dict float) :=
  value (benchmark_models twins 6 5 setup).1 [].
Definition twins_final : @state L := (benchmark_models twins 6 5 setup).2.

(** The array that a reference of [st] points to. *)
Definition stored (st : @state L) (r : ref) : ndarray :=
  default (NdArray 0 []) (heap st !! r).

(** A generator state other than the scripted one. *)
Definition st_other : @state L :=
  @State L [] (MockState [] [7%float]) [] [].

End Mock.

(** * Properties *)

(** ** Two facts of binary64 arithmetic *)

(** Multiplying or dividing by 1.0 is exact for every float, infinities,
    zeros and NaN included; from the specification of the primitive
    operations. *)
Section FloatFacts.
Local Open Scope Z_scope.

Lemma bounded_inv mx ex :
  bounded prec emax mx ex = true →
  fexp prec emax (Zpos (digits2_pos mx) + ex) = ex /\ ex <= emax - prec.
Proof.
  unfold bounded, canonical_mantissa. intros Hb.
  apply andb_prop in Hb as [H1 H2].
  apply Z.eqb_eq in H1. apply Z.leb_le in H2. auto.
Qed.

Lemma shr_fexp_canonical mx ex :
  bounded prec emax mx ex = true →
  shr_fexp prec emax (Zpos mx) ex loc_Exact = (Build_shr_record (Zpos mx) false false, ex).
Proof.
  intros Hb. apply bounded_inv in Hb as [Hc _].
  unfold shr_fexp. simpl Zdigits2. rewrite Hc, Z.sub_diag. reflexivity.
Qed.

Lemma binary_round_aux_exact sx m e mx ex :
  shr_fexp prec emax m e loc_Exact = (Build_shr_record (Zpos mx) false false, ex) →
  bounded prec emax mx ex = true →
  binary_round_aux prec emax sx m e loc_Exact = S754_finite sx mx ex.
Proof.
  intros Hs Hb. unfold binary_round_aux. rewrite Hs. simpl.
  rewrite (shr_fexp_canonical _ _ Hb). simpl.
  apply bounded_inv in Hb as [_ Hle].
  apply Z.leb_le in Hle. rewrite Hle. reflexivity.
Qed.

Lemma SF64mul_1_r s :
  valid_binary s = true →
  SF64mul s (S754_finite false 4503599627370496 (-52)) = s.
Proof.
  destruct s as [sx|sx| |sx mx ex]; intros Hb; unfold SF64mul, SFmul;
    rewrite ?xorb_false_r; try reflexivity.
  simpl in Hb.
  apply binary_round_aux_exact; [|exact Hb].
  apply bounded_inv in Hb as [Hc _].
  rewrite Pos.mul_comm. cbv [Pos.mul].
  unfold shr_fexp, fexp in *. cbn [Zdigits2 digits2_pos].
  set (d := digits2_pos mx) in *.
  match goal with |- context [Z.max (?a + (ex + -52) - prec) _] =>
    replace a with (Zpos d + 52) by lia end.
  match goal with |- context [Z.max ?a ?b - ?c] =>
    replace (Z.max a b - c) with 52
      by (unfold prec, SpecFloat.emin, emax in *; lia) end.
  unfold shr. f_equal. lia.
Qed.

Lemma float_mul_1_r (x : float) : PrimFloat.mul x 1 = x.
Proof.
  apply Prim2SF_inj. rewrite mul_spec.
  replace (Prim2SF 1) with (S754_finite false 4503599627370496 (-52))
    by (vm_compute; reflexivity).
  apply SF64mul_1_r, Prim2SF_valid.
Qed.

Lemma Z_div_eucl_exact a b : 0 < b → Z.div_eucl (a * b) b = (a, 0).
Proof.
  intros Hb.
  assert (Z.div_eucl (a * b) b = ((a * b) / b, (a * b) mod b)) as ->.
  { unfold Z.div, Z.modulo. now destruct (Z.div_eucl (a * b) b). }
  rewrite Z.div_mul, Z.mod_mul by lia. reflexivity.
Qed.

Lemma SF64div_1_r s :
  valid_binary s = true →
  SF64div s (S754_finite false 4503599627370496 (-52)) = s.
Proof.
  destruct s as [sx|sx| |sx mx ex]; intros Hb; unfold SF64div, SFdiv;
    rewrite ?xorb_false_r; try reflexivity.
  simpl in Hb. pose proof Hb as Hb2. apply bounded_inv in Hb2 as [Hc Hle].
  unfold SFdiv_core_binary.
  cbn [Zdigits2 digits2_pos].
  set (d := digits2_pos mx) in *.
  change (Zpos (digits2_pos 4503599627370496)) with 53.
  set (e2 := Z.min _ _).
  assert (e2 = ex - 1 /\ Zpos d = 53 \/ e2 = ex) as He2.
  { subst e2. unfold fexp, prec, SpecFloat.emin, emax in *. lia. }
  destruct He2 as [[He2 Hd]|He2]; rewrite He2.
  - replace (ex - -52 - (ex - 1)) with 53 by lia.
    replace (Z.shiftl (Zpos mx) 53) with (Zpos mx~0 * 4503599627370496).
    2:{ rewrite Z.shiftl_mul_pow2 by lia. change (2 ^ 53) with 9007199254740992. lia. }
    rewrite Z_div_eucl_exact by lia.
    change (new_location 4503599627370496 0) with loc_Exact.
    apply binary_round_aux_exact; [|exact Hb].
    unfold shr_fexp, fexp in *. cbn [Zdigits2 digits2_pos]. fold d.
    match goal with |- context [Z.max ?a ?b - ?c] =>
      replace (Z.max a b - c) with 1
        by (unfold prec, SpecFloat.emin, emax in *; lia) end.
    unfold shr. f_equal. lia.
  - replace (ex - -52 - ex) with 52 by lia.
    replace (Z.shiftl (Zpos mx) 52) with (Zpos mx * 4503599627370496).
    2:{ rewrite Z.shiftl_mul_pow2 by lia. change (2 ^ 52) with 4503599627370496. lia. }
    rewrite Z_div_eucl_exact by lia.
    change (new_location 4503599627370496 0) with loc_Exact.
    apply binary_round_aux_exact; [|exact Hb].
    now apply shr_fexp_canonical.
Qed.

Lemma float_div_1_r (x : float) : PrimFloat.div x 1 = x.
Proof.
  apply Prim2SF_inj. rewrite div_spec.
  replace (Prim2SF 1) with (S754_finite false 4503599627370496 (-52))
    by (vm_compute; reflexivity).
  apply SF64div_1_r, Prim2SF_valid.
Qed.

End FloatFacts.

(** ** Lists, dictionaries and arrays *)


Lemma length_enumerate_from {A} (l : list A) k :
  length (enumerate_from k l) = length l.
Proof. revert k. induction l as [|x l IH]; intros k; simpl; by rewrite ?IH. Qed.

Lemma lookup_enumerate_from {A} (l : list A) k j :
  enumerate_from k l !! j = (λ x, (k + j, x)) <$> l !! j.
Proof.
  revert k j. induction l as [|x l IH]; intros k [|j]; simpl; try done.
  - by rewrite Nat.add_0_r.
  - rewrite IH. destruct (l !! j); simpl; [|done]. do 2 f_equal. lia.
Qed.

Lemma getitem_Ok {A} (l : list A) i x : getitem l i = Ok x ↔ l !! i = Some x.
Proof.
  unfold getitem. destruct (l !! i); split; intros E; congruence.
Qed.

Lemma getitem_last_Ok {A} (l : list A) x :
  getitem_last l = Ok x ↔ last l = Some x.
Proof.
  unfold getitem_last. destruct (last l); split; intros E; congruence.
Qed.

Lemma dict_get_set_eq {V} k (v : V) d : dict_get k (dict_set k v d) = Some v.
Proof.
  induction d as [|[k' v'] d IH]; simpl.
  - by rewrite String.eqb_refl.
  - destruct (String.eqb k' k) eqn:E; simpl; rewrite E; done.
Qed.

Lemma dict_get_set_ne {V} k k' (v : V) d :
  k ≠ k' → dict_get k' (dict_set k v d) = dict_get k' d.
Proof.
  intros Hne. induction d as [|[k0 v0] d IH]; simpl.
  - destruct (String.eqb k k') eqn:E; [|done].
    apply String.eqb_eq in E. done.
  - destruct (String.eqb k0 k) eqn:E; simpl.
    + apply String.eqb_eq in E. subst k0.
      destruct (String.eqb k k') eqn:E'; [|done].
      apply String.eqb_eq in E'. done.
    + by rewrite IH.
Qed.

Lemma dict_get_None {V} k (d : dict V) :
  dict_get k d = None ↔ k ∉ dict_keys d.
Proof.
  induction d as [|[k' v'] d IH]; simpl.
  - split; [intros _; apply not_elem_of_nil | done].
  - destruct (String.eqb k' k) eqn:E.
    + apply String.eqb_eq in E. subst. split; [done|].
      intros Hn. exfalso. apply Hn. left.
    + apply String.eqb_neq in E. rewrite IH. unfold dict_keys. simpl.
      rewrite not_elem_of_cons. split; [intros Hk; split; congruence | tauto].
Qed.

(** Assigning to a fresh key appends it; assigning to a present key keeps
    the keys as they are. *)
Lemma dict_keys_set_fresh {V} k (v : V) d :
  k ∉ dict_keys d → dict_set k v d = d ++ [(k, v)].
Proof.
  induction d as [|[k' v'] d IH]; simpl; [done|].
  unfold dict_keys. simpl. rewrite not_elem_of_cons. intros [Hne Hd].
  destruct (String.eqb k' k) eqn:E.
  - apply String.eqb_eq in E. congruence.
  - by rewrite IH.
Qed.

Lemma dict_keys_set_elem {V} k (v : V) d k' :
  k' ∈ dict_keys (dict_set k v d) → k' = k ∨ k' ∈ dict_keys d.
Proof.
  unfold dict_keys. induction d as [|[k0 v0] d IH]; simpl.
  - rewrite list_elem_of_singleton. by left.
  - destruct (String.eqb k0 k); simpl; rewrite !elem_of_cons; [tauto|].
    intros [->|Hin]; [tauto|]. destruct (IH Hin); tauto.
Qed.

Lemma insert_middle {A} (l1 l2 : list A) x y :
  <[length l1:=x]> (l1 ++ y :: l2) = l1 ++ x :: l2.
Proof.
  rewrite <- (Nat.add_0_r (length l1)). by rewrite insert_app_r.
Qed.

Lemma expand_same {A} n (l : list A) : length l = n → expand n l = l.
Proof. intros E. unfold expand. by rewrite decide_True. Qed.

Lemma expand_singleton {A} n (x : A) : expand n [x] = replicate n x.
Proof.
  unfold expand. simpl. destruct (decide (1 = n)) as [<-|]; done.
Qed.

Lemma bshape_same n : bshape n n = Some n.
Proof. unfold bshape. by rewrite decide_True. Qed.

Lemma bshape_1_r n : bshape n 1 = Some n.
Proof.
  unfold bshape. destruct (decide (n = 1)) as [->|]; done.
Qed.

Lemma zip_with_replicate_r {A B C} (f : A → B → C) (l : list A) y n :
  length l = n → zip_with f l (replicate n y) = map (λ x, f x y) l.
Proof.
  intros <-. induction l as [|x l IH]; simpl; by f_equal.
Qed.

Lemma zip_with_replicate_l {A B C} (f : A → B → C) (l : list B) x n :
  length l = n → zip_with f (replicate n x) l = map (f x) l.
Proof.
  intros <-. induction l as [|y l IH]; simpl; by f_equal.
Qed.

(** Element-wise reading of [a op row] for a row of the width of [a]. *)
Lemma broadcast_op_row_vec f a v :
  well_shaped a → length v = ncols a →
  broadcast_op f a (row_vec v)
  = Ok (NdArray (ncols a) (map (λ r, zip_with f r v) (rows a))).
Proof.
  intros Hw Hv. unfold broadcast_op, row_vec, nrows. simpl.
  rewrite bshape_1_r, Hv, bshape_same. f_equal. f_equal.
  rewrite (expand_same _ (rows a)) by done.
  rewrite expand_singleton, zip_with_replicate_r by done.
  apply map_ext_in. intros r Hr.
  rewrite (expand_same _ v) by done.
  rewrite expand_same; [done|].
  unfold well_shaped in Hw. rewrite Forall_forall in Hw.
  apply Hw. by apply list_elem_of_In.
Qed.

Lemma inplace_op_row_vec f a v :
  well_shaped a → length v = ncols a →
  inplace_op f a (row_vec v)
  = Ok (NdArray (ncols a) (map (λ r, zip_with f r v) (rows a))).
Proof.
  intros Hw Hv. unfold inplace_op. rewrite broadcast_op_row_vec by done.
  simpl. unfold shape, nrows. simpl. rewrite length_map.
  by rewrite decide_True.
Qed.

(** Element-wise reading of [a op= column] for a column with the rows of
    [a]: every entry of row [j] is combined with the [j]-th entry. *)
Lemma inplace_op_column f a (zs : list float) :
  well_shaped a → length zs = nrows a →
  inplace_op f a (column zs)
  = Ok (NdArray (ncols a)
          (zip_with (λ r z, map (λ x, f x z) r) (rows a) zs)).
Proof.
  intros Hw Hz. unfold inplace_op, broadcast_op, column, nrows in *. simpl.
  rewrite length_map, Hz, bshape_same, bshape_1_r. simpl.
  rewrite !expand_same by (by rewrite ?length_map).
  assert (zip_with (λ ra rb, zip_with f (expand (ncols a) ra)
                                        (expand (ncols a) rb))
            (rows a) (map (λ z, [z]) zs)
          = zip_with (λ r z, map (λ x, f x z) r) (rows a) zs) as ->.
  { unfold well_shaped in Hw. revert zs Hz.
    induction Hw as [|r rs Hr Hrs IH]; intros [|z zs] Hz; simpl in *; try done.
    rewrite IH by lia. f_equal.
    rewrite expand_singleton, (expand_same _ r), zip_with_replicate_r; done. }
  unfold shape, nrows. simpl.
  rewrite decide_True; [done|].
  f_equal. rewrite length_zip_with. lia.
Qed.

Lemma inplace_op_scalar f a s :
  well_shaped a →
  inplace_op f a (scalar_arr s)
  = Ok (NdArray (ncols a) (map (map (λ x, f x s)) (rows a))).
Proof.
  intros Hw. unfold inplace_op, broadcast_op, scalar_arr, nrows. simpl.
  rewrite !bshape_1_r. simpl.
  rewrite (expand_same _ (rows a)), expand_singleton by done.
  rewrite zip_with_replicate_r by done.
  assert (map (λ x, zip_with f (expand (ncols a) x) (expand (ncols a) [s]))
              (rows a)
          = map (map (λ x, f x s)) (rows a)) as ->.
  { apply map_ext_in. intros r Hr.
    unfold well_shaped in Hw. rewrite Forall_forall in Hw.
    apply list_elem_of_In, Hw in Hr.
    rewrite expand_singleton, (expand_same _ r), zip_with_replicate_r; done. }
  unfold shape, nrows. simpl. rewrite length_map.
  by rewrite decide_True.
Qed.

Lemma noise_divisor_column y_scale sd zs :
  noise_divisor y_scale sd (column zs)
  = column (map (λ z, PrimFloat.add y_scale (PrimFloat.mul sd z)) zs).
Proof.
  unfold noise_divisor, scalar_op, column. simpl. f_equal.
  rewrite !map_map. done.
Qed.

Lemma nrows_column zs : nrows (column zs) = length zs.
Proof. unfold nrows, column. simpl. by rewrite length_map. Qed.

(** Operating with a vector of ones, for an operation that 1.0 leaves
    unchanged, gives the array back. *)
Lemma broadcast_op_ones f a d :
  (∀ x, f x 1%float = x) → well_shaped a → ncols a = d ∨ d = 1 →
  broadcast_op f a (row_vec (np_ones d)) = Ok a.
Proof.
  intros Hf Hw Hd.
  unfold broadcast_op, row_vec, np_ones, nrows. simpl.
  rewrite bshape_1_r, length_replicate.
  assert (bshape (ncols a) d = Some (ncols a)) as ->.
  { destruct Hd as [<-| ->]; [apply bshape_same | apply bshape_1_r]. }
  assert (expand (ncols a) (replicate d 1%float)
          = replicate (ncols a) 1%float) as He.
  { destruct Hd as [<-| ->].
    - apply expand_same, length_replicate.
    - apply (expand_singleton (ncols a) 1%float). }
  rewrite (expand_same _ (rows a)), expand_singleton by done.
  rewrite zip_with_replicate_r by done.
  destruct a as [c rs]. simpl in *. do 2 f_equal.
  unfold well_shaped in *. simpl in *.
  induction rs as [|r rs IH]; simpl; [done|].
  apply Forall_cons in Hw as [Hr Hw].
  rewrite IH by done. f_equal.
  rewrite expand_same, He, zip_with_replicate_r by done.
  clear -Hf. induction r as [|x r IH]; simpl; [done|].
  by rewrite Hf, IH.
Qed.

Lemma inplace_op_ones f a d a' :
  (∀ x, f x 1%float = x) → well_shaped a →
  inplace_op f a (row_vec (np_ones d)) = Ok a' →
  a' = a ∧ (ncols a = d ∨ d = 1).
Proof.
  intros Hf Hw E.
  assert (ncols a = d ∨ d = 1) as Hd.
  { unfold inplace_op, broadcast_op, row_vec, np_ones, nrows in E.
    simpl in E. rewrite bshape_1_r, length_replicate in E.
    destruct (bshape (ncols a) d) as [c|] eqn:Hc; [|done].
    simpl in E. unfold shape in E. simpl in E.
    destruct (decide _) as [Hs|]; [|done]. injection Hs as _ ->.
    unfold bshape in Hc. repeat case_decide; simplify_eq; auto. }
  split; [|done].
  unfold inplace_op in E. rewrite broadcast_op_ones in E by done.
  simpl in E. rewrite decide_True in E by done. by injection E as <-.
Qed.

(** [(raw / s) * s] is [raw] when its entries round-trip. *)
Lemma rescale_round_trip raw s a arg :
  inplace_op PrimFloat.div raw (row_vec s) = Ok a →
  broadcast_op PrimFloat.mul a (row_vec s) = Ok arg →
  round_trips raw s → arg = raw.
Proof.
  intros Ea Earg (Hw & Hs & Hrt).
  rewrite inplace_op_row_vec in Ea by done. injection Ea as <-.
  rewrite broadcast_op_row_vec in Earg; simpl.
  - injection Earg as <-. simpl. destruct raw as [c rs]. simpl in *.
    f_equal. rewrite map_map. clear Hw.
    induction Hrt as [|r rs Hr Hrt IH]; simpl; [done|].
    rewrite IH. f_equal. clear -Hr.
    induction Hr as [|x sj r s Hx Hr IH]; simpl; [done|].
    by rewrite Hx, IH.
  - unfold well_shaped in *. simpl. rewrite Forall_map.
    eapply Forall_impl; [exact Hw|]. simpl. intros r Hr.
    rewrite length_zip_with. lia.
  - done.
Qed.

(** Conversely, a well-shaped [raw] that comes back from the scaling has
    entries that round-trip. *)
Lemma rescale_round_trip_inv raw s a :
  inplace_op PrimFloat.div raw (row_vec s) = Ok a →
  broadcast_op PrimFloat.mul a (row_vec s) = Ok raw →
  well_shaped raw → length s = ncols raw → round_trips raw s.
Proof.
  intros Ea Earg Hw Hs. split; [done|]. split; [done|].
  rewrite inplace_op_row_vec in Ea by done. injection Ea as <-.
  rewrite broadcast_op_row_vec in Earg; simpl.
  - destruct raw as [c rs]. simpl in *. injection Earg as Earg.
    rewrite map_map in Earg. unfold well_shaped in Hw. simpl in Hw.
    induction Hw as [|r rs Hr Hw IH]; simpl in *; [done|].
    injection Earg as Er Ers. constructor; [|by apply IH].
    clear -Er Hr Hs. rewrite <- Hs in Hr. clear Hs.
    revert s Er Hr. induction r as [|x r IH]; intros [|sj s] Er Hr;
      simpl in *; try done.
    injection Er as Hx Er. constructor; [done|]. apply IH; [done|lia].
  - unfold well_shaped in *. simpl. rewrite Forall_map.
    eapply Forall_impl; [exact Hw|]. simpl. intros r Hr.
    rewrite length_zip_with. lia.
  - done.
Qed.

(** ** Running the monad *)

Section Run.
Context `{Libraries}.

Local Notation "x <- c ;; k" := (bind c (fun x => k))
  (at level 100, c at next level, right associativity).

Lemma bind_Ok_inv {A B} (c : M A) (k : A → M B) st b st' :
  bind c k st = (Ok b, st') →
  ∃ a st1, c st = (Ok a, st1) ∧ k a st1 = (Ok b, st').
Proof.
  unfold bind. destruct (c st) as [[a|e] st1]; [eauto | discriminate].
Qed.

Lemma bind_Ok {A B} (c : M A) (k : A → M B) st a st1 :
  c st = (Ok a, st1) → bind c k st = k a st1.
Proof. unfold bind. by intros ->. Qed.

Lemma bind_Raise {A B} (c : M A) (k : A → M B) st e st1 :
  c st = (Raise e, st1) → bind c k st = (Raise e, st1).
Proof. unfold bind. by intros ->. Qed.

Lemma lift_Ok_inv {A} (c : outcome A) st a st' :
  lift c st = (Ok a, st') → c = Ok a ∧ st' = st.
Proof. unfold lift. intros [= -> ->]. done. Qed.

Lemma load_Ok_inv r st a st' :
  load r st = (Ok a, st') → heap st !! r = Some a ∧ st' = st.
Proof.
  unfold load. destruct (heap st !! r); intros [= <- <-]; done.
Qed.

Lemma load_Ok r st a : heap st !! r = Some a → load r st = (Ok a, st).
Proof. unfold load. by intros ->. Qed.

Lemma inplace_Ok_inv f r b st u st' :
  inplace f r b st = (Ok u, st') →
  ∃ a a', heap st !! r = Some a ∧ inplace_op f a b = Ok a'
          ∧ st' = set_heap (<[r:=a']> (heap st)) st.
Proof.
  unfold inplace. intros E.
  apply bind_Ok_inv in E as (a & st1 & E1 & E).
  apply load_Ok_inv in E1 as [Ha ->].
  apply bind_Ok_inv in E as (a' & st1 & E1 & E).
  apply lift_Ok_inv in E1 as [Ha' ->].
  unfold store in E. injection E as _ <-. eauto.
Qed.

Lemma for_fold_app {A S} (l1 l2 : list A) (body : S → A → M S) s st :
  for_fold (l1 ++ l2) body s st
  = bind (for_fold l1 body s) (λ s', for_fold l2 body s') st.
Proof.
  revert s st. induction l1 as [|x l1 IH]; intros s st; simpl; [reflexivity|].
  unfold bind. destruct (body s x st) as [[s'|e] st1]; [|done].
  by rewrite IH.
Qed.

End Run.

Ltac mprim E1 :=
  lazymatch type of E1 with
  | lift _ _ = (Ok _, _) => apply lift_Ok_inv in E1 as [E1 ->]
  | load _ _ = (Ok _, _) => apply load_Ok_inv in E1 as [E1 ->]
  | ret _ _ = (Ok _, _) => unfold ret in E1; injection E1 as <- <-
  | alloc _ _ = (Ok _, _) => unfold alloc in E1; injection E1 as <- <-
  | print _ _ = (Ok _, _) => unfold print in E1; injection E1 as <- <-
  | log _ _ = (Ok _, _) => unfold log in E1; injection E1 as <- <-
  | _ => idtac
  end.

Tactic Notation "mstep" hyp(E) "as" ident(a) ident(E1) :=
  let st := fresh "st" in
  apply bind_Ok_inv in E as (a & st & E1 & E); mprim E1.

(** ** The loops of generate_data *)

Section Loops.
Context `{Libraries}.

Local Notation "x <- c ;; k" := (bind c (fun x => k))
  (at level 100, c at next level, right associativity).

Lemma get_samples_run space n st :
  ∃ a e1,
    latin_get_samples space n (ext st) = (a, e1)
    ∧ get_samples space n st
      = (Ok (length (heap st)),
         State (heap st ++ [a]) e1 (stdout st)
               (calls st ++ [get_samples_call n a])).
Proof.
  unfold get_samples, bind, ext_call, log, alloc.
  destruct (latin_get_samples space n (ext st)) as [a e1]. simpl. eauto.
Qed.

(** [X = [latin.get_samples(n) for n in num_data]] cannot fail: it appends
    one new array per entry and records the calls. *)
Lemma list_comp_get_samples space nums st :
  ∃ raws e',
    list_comp (get_samples space) nums st
    = (Ok (seq (length (heap st)) (length nums)),
       State (heap st ++ raws) e' (stdout st)
             (calls st ++ zip_with get_samples_call nums raws))
    ∧ length raws = length nums
    ∧ Forall (sample_of space) raws.
Proof.
  revert st. induction nums as [|n nums IH]; intros st; simpl.
  - exists [], (ext st). rewrite !app_nil_r. by destruct st.
  - destruct (get_samples_run space n st) as (a & e1 & Ea & E1).
    rewrite (bind_Ok _ _ _ _ _ E1).
    destruct (IH (State (heap st ++ [a]) e1 (stdout st)
                        (calls st ++ [get_samples_call n a])))
      as (raws & e' & E2 & Hlen & Hraws).
    rewrite (bind_Ok _ _ _ _ _ E2). simpl.
    exists (a :: raws), e'. simpl. rewrite <- !app_assoc. simpl.
    rewrite length_app, Nat.add_1_r. simpl.
    split; [done|]. split; [by rewrite Hlen|].
    constructor; [|done]. exists n, (ext st). by rewrite Ea.
Qed.

(** [for x in X: x op= v] over consecutive array objects. *)
Lemma for_each_inplace f v mid h0 tl e o c st' :
  for_each (seq (length h0) (length mid)) (λ x, inplace f x v)
           (State (h0 ++ mid ++ tl) e o c) = (Ok tt, st') →
  ∃ mid', st' = State (h0 ++ mid' ++ tl) e o c
          ∧ Forall2 (λ a a', inplace_op f a v = Ok a') mid mid'.
Proof.
  revert h0. induction mid as [|a mid IH]; intros h0; simpl.
  - intros [= <-]. exists []. by split.
  - intros E. apply bind_Ok_inv in E as ([] & st1 & E1 & E).
    apply inplace_Ok_inv in E1 as (a0 & a' & Ha0 & Ha' & ->).
    simpl in Ha0. rewrite list_lookup_middle in Ha0 by done.
    injection Ha0 as <-. unfold set_heap in E. simpl in E.
    rewrite insert_middle in E.
    replace (h0 ++ a' :: mid ++ tl) with ((h0 ++ [a']) ++ mid ++ tl) in E
      by (by rewrite <- app_assoc).
    replace (S (length h0)) with (length (h0 ++ [a'])) in E
      by (rewrite length_app; simpl; lia).
    apply IH in E as (mid' & -> & HF).
    exists (a' :: mid'). rewrite <- app_assoc. simpl. by split; [|constructor].
Qed.

(** The loop of lines 175-177 appends one new array per entry of [X]: the
    value of [fcn.f[i]] at [x * scalings]. *)
Lemma for_fold_evaluate (fcn_f : list (ndarray → ndarray)) v xs i Yacc
    hp ys e o c Y st' :
  (∀ r, r ∈ xs → r < length hp) →
  for_fold (enumerate_from i xs) (λ Y ix,
      f_i <- lift (getitem fcn_f ix.1) ;;
      a <- load ix.2 ;;
      arg <- lift (broadcast_op PrimFloat.mul a (row_vec v)) ;;
      y <- alloc (f_i arg) ;;
      ret (Y ++ [y])) Yacc (State (hp ++ ys) e o c) = (Ok Y, st') →
  ∃ ys', st' = State (hp ++ ys ++ ys') e o c
    ∧ Y = Yacc ++ seq (length hp + length ys) (length xs)
    ∧ Forall2 (λ ir y, ∃ a f_i arg,
          hp !! ir.2 = Some a ∧ fcn_f !! ir.1 = Some f_i
          ∧ broadcast_op PrimFloat.mul a (row_vec v) = Ok arg
          ∧ y = f_i arg) (enumerate_from i xs) ys'.
Proof.
  revert i Yacc ys. induction xs as [|r xs IH]; intros i Yacc ys Hr; simpl.
  - intros [= <- <-]. exists []. rewrite !app_nil_r. by split; [|split].
  - intros E. mstep E as Y1 EY.
    mstep EY as f_i Ef. mstep EY as a Ea. mstep EY as arg Earg.
    mstep EY as y Ey. mprim EY. simpl in *.
    apply getitem_Ok in Ef.
    rewrite lookup_app_l in Ea by (apply Hr; left).
    unfold set_heap in E. simpl in E. rewrite <- app_assoc in E.
    apply IH in E as (ys' & -> & -> & HF);
      [|intros r' Hr'; apply Hr; by right].
    exists (f_i arg :: ys'). rewrite <- !app_assoc. simpl.
    split; [done|]. split.
    + rewrite !length_app. simpl. do 3 f_equal; lia.
    + constructor; [|done]. exists a, f_i, arg. done.
Qed.

Lemma randn_draws_length n e : length (randn_draws n e).1 = n.
Proof.
  revert e. induction n as [|n IH]; intros e; simpl; [done|].
  destruct (standard_normal e) as [z e1].
  specialize (IH e1). destruct (randn_draws n e1) as [zs e2].
  simpl in *. by rewrite IH.
Qed.

Lemma np_random_randn_run n st :
  ∃ zs e1,
    length zs = n
    ∧ np_random_randn n st
      = (Ok (column zs),
         State (heap st) e1 (stdout st)
               (calls st ++ [randn_call n (column zs)])).
Proof.
  unfold np_random_randn, bind, ext_call, log, ret.
  pose proof (randn_draws_length n (ext st)) as Hl.
  destruct (randn_draws n (ext st)) as [zs e1]. simpl in *. eauto.
Qed.

Lemma for_each_noise y_scale mid noise hp tl e o c st' :
  for_each (zip (seq (length hp) (length mid)) noise) (λ ys,
      a <- load ys.1 ;;
      z <- np_random_randn (nrows a) ;;
      inplace PrimFloat.div ys.1
        (scalar_op PrimFloat.add y_scale (scalar_op PrimFloat.mul ys.2 z)))
    (State (hp ++ mid ++ tl) e o c) = (Ok tt, st') →
  ∃ mid' cs e',
    st' = State (hp ++ mid' ++ tl) e' o (c ++ cs)
    ∧ noised y_scale mid noise mid' cs.
Proof.
  revert noise hp e c.
  induction mid as [|y mid IH]; intros noise hp e c; simpl.
  - intros [= <-]. exists [], [], e. rewrite app_nil_r. split; [done|constructor].
  - destruct noise as [|sd noise]; simpl.
    + intros [= <-]. exists (y :: mid), [], e. rewrite app_nil_r.
      split; [done|constructor].
    + intros E. mstep E as u E0. mstep E0 as a Ea.
      apply bind_Ok_inv in E0 as (z & st1 & Ez' & E0). simpl in *.
      rewrite list_lookup_middle in Ea by done. injection Ea as <-.
      destruct (np_random_randn_run (nrows y) (State (hp ++ y :: mid ++ tl) e o c))
        as (zs & e1 & Hzs & Ez).
      rewrite Ez in Ez'. injection Ez' as <- <-.
      apply inplace_Ok_inv in E0 as (y0 & y' & Hy0 & Hy' & ->).
      simpl in *. rewrite list_lookup_middle in Hy0 by done.
      injection Hy0 as <-.
      unfold set_heap in E. simpl in E. rewrite insert_middle in E.
      replace (hp ++ y' :: mid ++ tl) with ((hp ++ [y']) ++ mid ++ tl) in E
        by (by rewrite <- app_assoc).
      replace (S (length hp)) with (length (hp ++ [y'])) in E
        by (rewrite length_app; simpl; lia).
      apply IH in E as (mid' & cs & e' & -> & Hn).
      exists (y' :: mid'), (randn_call (nrows y) (column zs) :: cs), e'.
      rewrite <- !app_assoc. simpl. split; [done|].
      by constructor.
Qed.

Lemma noised_length y_scale ys ns ys' cs :
  noised y_scale ys ns ys' cs → length ys' = length ys.
Proof. induction 1; simpl; congruence. Qed.

Lemma generate_data_arrays_Ok fcn_tuple n st r st' :
  generate_data_arrays fcn_tuple n st = (Ok r, st') →
  ∃ g, generation fcn_tuple n st r st' g.
Proof.
  unfold generate_data_arrays, generation.
  destruct (fcn fcn_tuple tt) as [fcn_f space] eqn:Efcn. simpl.
  set (nums := num_data fcn_tuple). set (k := length nums).
  intros E. destruct st as [h e o c0].
  mstep E as u1 El1. mstep E as u2 El2. simpl in E.
  set (c := (c0 ++ [fcn_call]) ++ [latin_design_call space]) in *.
  (* X *)
  apply bind_Ok_inv in E as (X & st1 & EX & E).
  change (add_calls _ (add_calls _ _)) with (State h e o c) in EX.
  destruct (list_comp_get_samples space nums (State h e o c))
    as (raws & e1 & EX' & Hlen & _).
  rewrite EX' in EX. injection EX as <- <-. clear EX'. fold k in E.
  simpl in *.
  (* scalings *)
  mstep E as x0 Ex0. apply getitem_Ok, lookup_seq in Ex0 as [-> Hk].
  mstep E as raw0 Eraw0. simpl in Eraw0.
  rewrite Nat.add_0_r, lookup_app_r, Nat.sub_diag in Eraw0 by done.
  set (s := if do_x_scaling fcn_tuple then np_std_axis0 raw0
            else np_ones (ncols raw0)) in *.
  (* X /= scalings *)
  mstep E as u EXs. destruct u.
  replace (h ++ raws) with (h ++ raws ++ []) in EXs by (by rewrite app_nil_r).
  unfold k in EXs. rewrite <- Hlen in EXs.
  apply for_each_inplace in EXs as (Xs & -> & HXs).
  pose proof (Forall2_length _ _ _ HXs) as HlenXs.
  rewrite app_nil_r in E.
  (* Y *)
  mstep E as Y EY. unfold enumerate in EY.
  replace (h ++ Xs) with ((h ++ Xs) ++ []) in EY by (by rewrite app_nil_r).
  apply for_fold_evaluate in EY as (Yraw & -> & -> & HY).
  2:{ intros r0 Hr0. apply list_elem_of_lookup in Hr0 as [j Hj].
      apply lookup_seq in Hj as [-> Hj]. rewrite length_app. lia. }
  pose proof (Forall2_length _ _ _ HY) as HlenY.
  rewrite length_enumerate_from, length_seq in HlenY.
  simpl in E. rewrite Nat.add_0_r, length_seq in E.
  (* noise *)
  mstep E as u En. destruct u.
  replace ((h ++ Xs) ++ Yraw) with ((h ++ Xs) ++ Yraw ++ []) in En
    by (by rewrite app_nil_r).
  rewrite HlenY in En.
  apply for_each_noise in En as (Ys & cs & e2 & -> & Hn).
  pose proof (noised_length _ _ _ _ _ Hn) as HlenYs.
  rewrite app_nil_r in E.
  (* x_test *)
  apply bind_Ok_inv in E as (xt & st1 & Ext & E).
  match type of Ext with get_samples _ _ ?st0 = _ =>
    destruct (get_samples_run space n st0) as (raw_t & e3 & _ & Ext') end.
  rewrite Ext' in Ext. injection Ext as <- <-. clear Ext'. simpl in E.
  mstep E as u Exts. destruct u.
  apply inplace_Ok_inv in Exts as (a & xts & Ha & Hxts & ->). simpl in *.
  rewrite list_lookup_middle in Ha by done. injection Ha as <-.
  unfold set_heap in E. simpl in E. rewrite insert_middle in E.
  mstep E as f_last Efl. apply getitem_last_Ok in Efl.
  mstep E as a Ea. simpl in Ea.
  rewrite list_lookup_middle in Ea by done. injection Ea as <-.
  mstep E as arg Earg. mstep E as yt Eyt. simpl in E.
  mstep E as u Eyts. destruct u.
  apply inplace_Ok_inv in Eyts as (a & yts & Ha & Hyts & ->). simpl in *.
  rewrite <- app_assoc in Ha. simpl in Ha.
  replace (((h ++ Xs) ++ Ys) ++ [xts; f_last arg])
    with ((((h ++ Xs) ++ Ys) ++ [xts]) ++ [f_last arg]) in Ha, E
    by (by rewrite <- !app_assoc).
  rewrite list_lookup_middle in Ha by (by rewrite <- app_assoc).
  injection Ha as <-.
  unfold set_heap in E. simpl in E.
  replace (length ((h ++ Xs) ++ Ys ++ [xts]))
    with (length (((h ++ Xs) ++ Ys) ++ [xts])) in E
    by (by rewrite <- app_assoc).
  rewrite insert_middle in E.
  mstep E as a Ea. simpl in Ea.
  rewrite <- (app_assoc _ [xts] [yts]) in Ea. simpl in Ea.
  rewrite list_lookup_middle in Ea by done. injection Ea as <-.
  mstep E as xta Exta. mstep E as xt' Ext'. mprim E.
  exists (Generated raws s Xs Yraw Ys cs raw_t xts yts xta). simpl.
  repeat split; try done.
  - by exists raw0.
  - intros i x Hx.
    destruct (Forall2_lookup_l _ _ _ i (i, length h + i) HY) as (y & Hy & a & f_i & arg' & Ha & Hf & Harg & ->).
    { rewrite lookup_enumerate_from, lookup_seq_lt; [done|].
      apply lookup_lt_Some in Hx. lia. }
    simpl in *. rewrite lookup_app_r, Nat.add_comm, Nat.add_sub in Ha by lia.
    rewrite Hx in Ha. injection Ha as <-. eauto.
  - by exists f_last, arg.
  - assert (length Xs = k) as HkX by (unfold k; congruence).
    assert (length Ys = k) as HkY by congruence.
    rewrite !length_app, HkX, HkY. simpl.
    rewrite !pair_equal_spec. repeat split; try lia.
  - rewrite <- !app_assoc. simpl. done.
  - subst c. rewrite <- !app_assoc. done.
Qed.

Lemma generate_data_Ok fcn_tuple n st r st' :
  generate_data fcn_tuple n st = (Ok r, st') →
  ∃ g st1 x1,
    generation fcn_tuple n st r st1 g
    ∧ generate_data_arrays fcn_tuple n st = (Ok r, st1)
    ∧ X_arrays g !! 1 = Some x1
    ∧ st' = add_stdout [PShape (shape x1)] st1.
Proof.
  unfold generate_data. intros E.
  apply bind_Ok_inv in E as (r1 & st1 & E1 & E).
  destruct (generate_data_arrays_Ok _ _ _ _ _ E1) as (g & Hg).
  mstep E as x1 Ex1. mstep E as a1 Ea1. mstep E as u Ep. mprim E.
  exists g, st1, a1. split; [done|]. split; [done|]. split; [|done].
  destruct Hg as (Hlen & _ & HX & _ & _ & _ & _ & _ & _ & -> & Hh & _).
  simpl in Ex1. apply getitem_Ok, lookup_seq in Ex1 as [-> Hk].
  pose proof (Forall2_length _ _ _ HX) as HlenX.
  rewrite Hh, lookup_app_r, Nat.add_comm, Nat.add_sub in Ea1 by lia.
  apply lookup_app_Some in Ea1 as [Ea1|[Hge _]]; [done|].
  destruct g; simpl in *. lia.
Qed.

Lemma noised_lookup y_scale ys ns ys' cs i y sd :
  noised y_scale ys ns ys' cs →
  ys !! i = Some y → ns !! i = Some sd →
  ∃ zs y', length zs = nrows y
    ∧ cs !! i = Some (randn_call (nrows y) (column zs))
    ∧ inplace_op PrimFloat.div y (noise_divisor y_scale sd (column zs)) = Ok y'
    ∧ ys' !! i = Some y'.
Proof.
  intros Hn. revert i. induction Hn as [| |y0 ys sd0 ns y0' ys' zs cs Hz Hy Hn IH];
    intros i Hi Hs; try done.
  destruct i as [|i]; simpl in *.
  - injection Hi as ->. injection Hs as ->. by exists zs, y0'.
  - by apply IH.
Qed.

Lemma noised_lookup_None y_scale ys ns ys' cs i :
  noised y_scale ys ns ys' cs → ns !! i = None → ys' !! i = ys !! i.
Proof.
  intros Hn. revert i. induction Hn; intros i Hs; try done.
  destruct i as [|i]; simpl in *; [done | eauto].
Qed.

Lemma noised_calls y_scale ys ns ys' cs :
  noised y_scale ys ns ys' cs →
  Forall (λ c, ∃ m z, c = randn_call m z) cs
  ∧ length cs = length ys `min` length ns.
Proof.
  induction 1 as [ns|ys| ? ? ? ? ? ? ? ? ? ? ? [IH1 IH2]]; simpl.
  - done.
  - by rewrite Nat.min_0_r.
  - split; [constructor; eauto | by rewrite IH2].
Qed.

End Loops.

(** ** generate_data builds its arrays when the shapes fit *)

Section Totality.
Context `{Libraries}.

Local Notation "x <- c ;; k" := (bind c (fun x => k))
  (at level 100, c at next level, right associativity).

Lemma inplace_run f r b st a a' :
  heap st !! r = Some a → inplace_op f a b = Ok a' →
  inplace f r b st = (Ok tt, set_heap (<[r:=a']> (heap st)) st).
Proof.
  intros Ha Ha'. unfold inplace.
  rewrite (bind_Ok _ _ _ _ _ (load_Ok _ _ _ Ha)).
  unfold bind, lift, store. by rewrite Ha'.
Qed.

Lemma for_each_inplace_total f v mid h0 tl e o c :
  Forall (λ a, ∃ a', inplace_op f a v = Ok a') mid →
  ∃ st', for_each (seq (length h0) (length mid)) (λ x, inplace f x v)
                  (State (h0 ++ mid ++ tl) e o c) = (Ok tt, st').
Proof.
  intros Hmid. revert h0.
  induction Hmid as [|a mid [a' Ha'] _ IH]; intros h0; simpl.
  - by eexists.
  - erewrite bind_Ok; last first.
    { eapply inplace_run; [|exact Ha']. simpl. by apply list_lookup_middle. }
    unfold set_heap. simpl. rewrite insert_middle.
    replace (h0 ++ a' :: mid ++ tl) with ((h0 ++ [a']) ++ mid ++ tl)
      by (by rewrite <- app_assoc).
    replace (S (length h0)) with (length (h0 ++ [a']))
      by (rewrite length_app; simpl; lia).
    apply IH.
Qed.

Lemma for_fold_evaluate_total (fcn_f : list (ndarray → ndarray)) v xs i Yacc
    hp ys e o c :
  (∀ j r, xs !! j = Some r →
     ∃ a f_i arg, hp !! r = Some a ∧ fcn_f !! (i + j) = Some f_i
       ∧ broadcast_op PrimFloat.mul a (row_vec v) = Ok arg) →
  ∃ Y st',
    for_fold (enumerate_from i xs) (λ Y ix,
      f_i <- lift (getitem fcn_f ix.1) ;;
      a <- load ix.2 ;;
      arg <- lift (broadcast_op PrimFloat.mul a (row_vec v)) ;;
      y <- alloc (f_i arg) ;;
      ret (Y ++ [y])) Yacc (State (hp ++ ys) e o c) = (Ok Y, st').
Proof.
  revert i Yacc ys. induction xs as [|r xs IH]; intros i Yacc ys Hxs; simpl.
  - by eexists _, _.
  - destruct (Hxs 0 r eq_refl) as (a & f_i & arg & Ha & Hf & Harg).
    rewrite Nat.add_0_r in Hf.
    erewrite bind_Ok; last first.
    { erewrite bind_Ok; last first.
      { unfold lift, getitem. simpl. rewrite Hf. reflexivity. }
      erewrite bind_Ok; last first.
      { apply load_Ok. simpl. by apply lookup_app_l_Some. }
      erewrite bind_Ok; last first.
      { unfold lift. by rewrite Harg. }
      unfold bind, alloc, ret. simpl. reflexivity. }
    unfold set_heap. simpl. rewrite <- app_assoc.
    apply IH. intros j r' Hj.
    destruct (Hxs (S j) r' Hj) as (a0 & f0 & arg0 & Ha0 & Hf0 & Harg0).
    exists a0, f0, arg0. by replace (S i + j) with (i + S j) by lia.
Qed.

Lemma inplace_op_column_total f a zs :
  length zs = nrows a → ∃ a', inplace_op f a (column zs) = Ok a'.
Proof.
  intros Hz. unfold inplace_op, broadcast_op, column, nrows in *. simpl.
  rewrite length_map, Hz, bshape_same, bshape_1_r. simpl.
  rewrite !expand_same by (by rewrite ?length_map).
  unfold shape, nrows. simpl.
  rewrite decide_True; [by eexists|].
  f_equal. rewrite length_zip_with, length_map. lia.
Qed.

Lemma inplace_op_scalar_total f a s :
  ∃ a', inplace_op f a (scalar_arr s) = Ok a'.
Proof.
  unfold inplace_op, broadcast_op, scalar_arr, nrows. simpl.
  rewrite !bshape_1_r. simpl.
  rewrite (expand_same _ (rows a)), expand_singleton by done.
  unfold shape, nrows. simpl.
  rewrite decide_True; [by eexists|].
  f_equal. rewrite length_zip_with, length_replicate. lia.
Qed.

Lemma for_each_noise_total y_scale mid noise hp tl e o c :
  ∃ st',
    for_each (zip (seq (length hp) (length mid)) noise) (λ ys,
      a <- load ys.1 ;;
      z <- np_random_randn (nrows a) ;;
      inplace PrimFloat.div ys.1
        (scalar_op PrimFloat.add y_scale (scalar_op PrimFloat.mul ys.2 z)))
    (State (hp ++ mid ++ tl) e o c) = (Ok tt, st').
Proof.
  revert noise hp e c.
  induction mid as [|y mid IH]; intros noise hp e c; simpl; [by eexists|].
  destruct noise as [|sd noise]; simpl; [by eexists|].
  destruct (np_random_randn_run (nrows y) (State (hp ++ y :: mid ++ tl) e o c))
    as (zs & e1 & Hzs & Ez).
  destruct (inplace_op_column_total PrimFloat.div y
              (map (λ z, PrimFloat.add y_scale (PrimFloat.mul sd z)) zs))
    as [y' Hy']; [by rewrite length_map|].
  rewrite <- noise_divisor_column in Hy'.
  erewrite bind_Ok; last first.
  { erewrite bind_Ok; last first.
    { apply load_Ok. simpl. by apply list_lookup_middle. }
    erewrite bind_Ok; [|exact Ez].
    eapply inplace_run; [|exact Hy']. simpl. by apply list_lookup_middle. }
  unfold set_heap. simpl. rewrite insert_middle.
  replace (hp ++ y' :: mid ++ tl) with ((hp ++ [y']) ++ mid ++ tl)
    by (by rewrite <- app_assoc).
  replace (S (length hp)) with (length (hp ++ [y']))
    by (rewrite length_app; simpl; lia).
  apply IH.
Qed.

(** Scaling a sample by a vector of its width, and scaling it back. *)
Lemma scale_sample_total v a :
  well_shaped a → length v = ncols a →
  ∃ a', inplace_op PrimFloat.div a (row_vec v) = Ok a'
        ∧ ∃ arg, broadcast_op PrimFloat.mul a' (row_vec v) = Ok arg.
Proof.
  intros Hw Hv. eexists. split; [by apply inplace_op_row_vec|].
  eexists. apply broadcast_op_row_vec; simpl; [|done].
  unfold well_shaped in *. simpl. rewrite Forall_map.
  eapply Forall_impl; [exact Hw|]. simpl. intros r Hr.
  rewrite length_zip_with. lia.
Qed.

(** With at least one fidelity level, a function per level and packages
    that keep their promises about shapes, lines 159-193 succeed. *)
Lemma generate_data_arrays_total fcn_tuple n st :
  shape_contract (fcn_tuple.(fcn) tt).2 →
  1 ≤ length fcn_tuple.(num_data) ≤ length (fcn_tuple.(fcn) tt).1 →
  ∃ r st', generate_data_arrays fcn_tuple n st = (Ok r, st').
Proof.
  unfold generate_data_arrays, shape_contract.
  destruct (fcn fcn_tuple tt) as [fcn_f space] eqn:Efcn. simpl.
  set (nums := num_data fcn_tuple).
  intros [[d Hd] Hstd] [Hk1 Hk2].
  destruct st as [h e o c0].
  do 2 (erewrite bind_Ok; [|reflexivity]).
  change (add_calls _ (add_calls _ _))
    with (State h e o ((c0 ++ [fcn_call]) ++ [latin_design_call space])).
  set (c := (c0 ++ [fcn_call]) ++ [latin_design_call space]).
  (* X *)
  destruct (list_comp_get_samples space nums (State h e o c))
    as (raws & e1 & EX & Hlen & Hraws).
  rewrite (bind_Ok _ _ _ _ _ EX). simpl.
  assert (Forall (λ a, well_shaped a ∧ ncols a = d) raws) as Hshapes.
  { eapply Forall_impl; [exact Hraws|]. apply Hd. }
  destruct (lookup_lt_is_Some_2 raws 0) as [raw0 Hraw0]; [lia|].
  (* scalings *)
  erewrite bind_Ok; last first.
  { unfold lift, getitem. rewrite lookup_seq_lt by lia. reflexivity. }
  erewrite bind_Ok; last first.
  { apply load_Ok. simpl.
    rewrite Nat.add_0_r, lookup_app_r, Nat.sub_diag by done. exact Hraw0. }
  set (s := if do_x_scaling fcn_tuple then np_std_axis0 raw0
            else np_ones (ncols raw0)).
  assert (length s = d) as Hs.
  { rewrite Forall_forall in Hshapes.
    destruct (Hshapes raw0) as [_ Hd0]; [by eapply list_elem_of_lookup_2|].
    subst s. destruct (do_x_scaling fcn_tuple).
    - by rewrite Hstd.
    - unfold np_ones. by rewrite length_replicate. }
  (* X /= scalings *)
  replace (h ++ raws) with (h ++ raws ++ []) by (by rewrite app_nil_r).
  rewrite <- Hlen.
  destruct (for_each_inplace_total PrimFloat.div (row_vec s) raws h [] e1 o
              (c ++ zip_with get_samples_call nums raws)) as [st1 EXs].
  { eapply Forall_impl; [exact Hshapes|]. simpl. intros a [Hw Hc].
    destruct (scale_sample_total s a Hw) as (a' & Ha' & _); [congruence|].
    eauto. }
  rewrite (bind_Ok _ _ _ _ _ EXs).
  apply for_each_inplace in EXs as (Xs & -> & HXs).
  pose proof (Forall2_length _ _ _ HXs) as HlenXs.
  rewrite app_nil_r.
  (* Y *)
  replace (h ++ Xs) with ((h ++ Xs) ++ []) by (by rewrite app_nil_r).
  unfold enumerate.
  destruct (for_fold_evaluate_total fcn_f s (seq (length h) (length raws))
              0 [] (h ++ Xs) [] e1 o
              (c ++ zip_with get_samples_call nums raws)) as (Y & st2 & EY).
  { intros j r Hj. apply lookup_seq in Hj as [-> Hj].
    destruct (lookup_lt_is_Some_2 Xs j) as [a' Ha']; [lia|].
    destruct (Forall2_lookup_r _ _ _ _ _ HXs Ha') as (a & Ha & Hdiv).
    destruct (lookup_lt_is_Some_2 fcn_f j) as [f_j Hf]; [lia|].
    rewrite Forall_forall in Hshapes.
    destruct (Hshapes a) as [Hw Hc]; [by eapply list_elem_of_lookup_2|].
    destruct (scale_sample_total s a Hw) as (a'' & Ha'' & arg & Harg);
      [congruence|].
    rewrite Ha'' in Hdiv. injection Hdiv as ->.
    exists a', f_j, arg. split; [|done].
    rewrite lookup_app_r by lia. by rewrite Nat.add_comm, Nat.add_sub. }
  rewrite (bind_Ok _ _ _ _ _ EY).
  apply for_fold_evaluate in EY as (Yraw & -> & -> & HY).
  2:{ intros r0 Hr0. apply list_elem_of_lookup in Hr0 as [j Hj].
      apply lookup_seq in Hj as [-> Hj]. rewrite length_app. lia. }
  pose proof (Forall2_length _ _ _ HY) as HlenY.
  rewrite length_enumerate_from, length_seq in HlenY.
  simpl. rewrite Nat.add_0_r, length_seq.
  (* noise *)
  replace ((h ++ Xs) ++ Yraw) with ((h ++ Xs) ++ Yraw ++ [])
    by (by rewrite app_nil_r).
  rewrite HlenY.
  destruct (for_each_noise_total (y_scale fcn_tuple) Yraw
              (noise_level fcn_tuple) (h ++ Xs) [] e1 o
              (c ++ zip_with get_samples_call nums raws)) as [st3 En].
  rewrite (bind_Ok _ _ _ _ _ En).
  apply for_each_noise in En as (Ys & cs & e2 & -> & Hn).
  rewrite app_nil_r.
  (* x_test *)
  destruct (get_samples_run space n
              (State ((h ++ Xs) ++ Ys) e2 o
                     ((c ++ zip_with get_samples_call nums raws) ++ cs)))
    as (raw_t & e3 & Eraw & Ext).
  rewrite (bind_Ok _ _ _ _ _ Ext). simpl in *.
  destruct (Hd raw_t) as [Hwt Hct].
  { eexists _, _. by rewrite Eraw. }
  destruct (scale_sample_total s raw_t Hwt) as (xts & Hxts & arg & Harg);
    [congruence|].
  erewrite bind_Ok; last first.
  { eapply inplace_run; [|exact Hxts]. simpl. by apply list_lookup_middle. }
  unfold set_heap. simpl. rewrite insert_middle.
  destruct (last fcn_f) as [f_last|] eqn:Hlast;
    [|apply last_None in Hlast; subst fcn_f; simpl in Hk2; lia].
  erewrite bind_Ok; last first.
  { unfold lift, getitem_last. rewrite Hlast. reflexivity. }
  erewrite bind_Ok; last first.
  { apply load_Ok. simpl. by apply list_lookup_middle. }
  erewrite bind_Ok; last first.
  { unfold lift. by rewrite Harg. }
  erewrite bind_Ok; last first.
  { unfold alloc. reflexivity. }
  unfold set_heap. simpl.
  destruct (inplace_op_scalar_total PrimFloat.div (f_last arg)
              (y_scale fcn_tuple)) as [yts Hyts].
  erewrite bind_Ok; last first.
  { eapply inplace_run; [|exact Hyts]. simpl.
    rewrite <- app_assoc. simpl.
    replace (((h ++ Xs) ++ Ys) ++ [xts; f_last arg])
      with ((((h ++ Xs) ++ Ys) ++ [xts]) ++ [f_last arg])
      by (by rewrite <- !app_assoc).
    apply list_lookup_middle. by rewrite <- app_assoc. }
  unfold set_heap. simpl.
  erewrite bind_Ok; last first.
  { apply load_Ok. simpl.
    rewrite list_lookup_insert_ne by (rewrite !length_app; simpl; lia).
    rewrite <- (app_assoc _ [xts] [f_last arg]). simpl.
    by apply list_lookup_middle. }
  erewrite bind_Ok; last first.
  { unfold lift, np_concatenate_axis1, scalar_op, np_ones2, nrows. simpl.
    rewrite decide_True; [done|].
    by rewrite length_map, length_replicate. }
  unfold bind, alloc, ret. simpl. by eexists _, _.
Qed.

(** With two fidelity levels or more, line 194 finds [X[1]] and
    generate_data returns. *)
Lemma generate_data_total fcn_tuple n st :
  shape_contract (fcn_tuple.(fcn) tt).2 →
  2 ≤ length fcn_tuple.(num_data) ≤ length (fcn_tuple.(fcn) tt).1 →
  ∃ r st', generate_data fcn_tuple n st = (Ok r, st').
Proof.
  intros Hs [Hk1 Hk2].
  destruct (generate_data_arrays_total fcn_tuple n st Hs) as (r & st1 & E);
    [lia|].
  unfold generate_data. rewrite (bind_Ok _ _ _ _ _ E).
  apply generate_data_arrays_Ok in E as (g & Hg).
  destruct Hg as (Hlen & _ & HX & _ & _ & _ & _ & _ & _ & -> & Hh & _).
  pose proof (Forall2_length _ _ _ HX) as HlenX.
  destruct (lookup_lt_is_Some_2 (X_arrays g) 1) as [x1 Hx1]; [lia|].
  simpl.
  erewrite bind_Ok; last first.
  { unfold lift, getitem. rewrite lookup_seq_lt by lia. reflexivity. }
  erewrite bind_Ok; last first.
  { apply load_Ok. rewrite Hh. rewrite lookup_app_r by lia.
    replace (length (heap st) + 1 - length (heap st)) with 1 by lia.
    by apply lookup_app_l_Some. }
  unfold bind, print, ret. simpl. by eexists _, _.
Qed.

End Totality.

(** ** generate_data *)

Section GenerateData.
Context `{Libraries}.

(** Where the returned references point when the arrays have been built. *)
Lemma generation_lookups fcn_tuple n st x_test y_test X Y st1 g :
  generation fcn_tuple n st (x_test, y_test, X, Y) st1 g →
  (∀ i x, X !! i = Some x →
     ∃ a, X_arrays g !! i = Some a ∧ heap st1 !! x = Some a)
  ∧ (∀ i y, Y !! i = Some y →
     ∃ a, Y_arrays g !! i = Some a ∧ heap st1 !! y = Some a)
  ∧ heap st1 !! y_test = Some (y_test_array g)
  ∧ heap st1 !! x_test = Some (x_test_array g).
Proof.
  intros (Hlen & _ & HX & HlenY & _ & Hn & _ & _ & _ & Hr & Hh & _).
  injection Hr as -> -> -> ->.
  pose proof (Forall2_length _ _ _ HX) as HlenX.
  pose proof (noised_length _ _ _ _ _ Hn) as HlenYs.
  set (k := length (num_data fcn_tuple)) in *.
  assert (length (X_arrays g) = k) as HkX by congruence.
  assert (length (Y_arrays g) = k) as HkY by congruence.
  rewrite Hh. repeat split.
  - intros i x Hx. apply lookup_seq in Hx as [-> Hi].
    destruct (lookup_lt_is_Some_2 (X_arrays g) i) as [a Ha]; [lia|].
    exists a. split; [done|].
    rewrite lookup_app_r, Nat.add_comm, Nat.add_sub by lia.
    by apply lookup_app_l_Some.
  - intros i y Hy. apply lookup_seq in Hy as [-> Hi].
    destruct (lookup_lt_is_Some_2 (Y_arrays g) i) as [a Ha]; [lia|].
    exists a. split; [done|].
    rewrite lookup_app_r by lia. rewrite lookup_app_r by lia.
    match goal with |- _ !! ?j = _ => replace j with i by lia end.
    by apply lookup_app_l_Some.
  - rewrite lookup_app_r by lia. rewrite lookup_app_r by lia.
    rewrite lookup_app_r by lia.
    match goal with |- _ !! ?j = _ => replace j with 1 by lia end.
    done.
  - rewrite lookup_app_r by lia. rewrite lookup_app_r by lia.
    rewrite lookup_app_r by lia.
    match goal with |- _ !! ?j = _ => replace j with 2 by lia end.
    done.
Qed.

Lemma generation_sampled fcn_tuple n st r st1 g p :
  generation fcn_tuple n st r st1 g →
  sampled fcn_tuple n st (add_stdout p st1) (raw_samples g) (raw_test g).
Proof.
  intros (Hlen & _ & _ & _ & _ & Hn & _ & _ & _ & _ & _ & _ & Hc).
  exists (noise_calls g). simpl. split; [done|]. split; [|done].
  by apply noised_calls in Hn as [Hn _].
Qed.

(** C10: with exactly one fidelity level, generate_data never returns: once
    all the training and test arrays are built (five new array objects), the
    access to [X[1]] of line 194 raises IndexError.  And the arrays are
    built whenever the packages keep their promises about shapes and
    [fcn.f] has a function for the one level. *)
Theorem generate_data_single_fidelity fcn_tuple n st :
  length fcn_tuple.(num_data) = 1 →
  (∀ r st', generate_data fcn_tuple n st ≠ (Ok r, st'))
  ∧ (∀ r st1,
       generate_data_arrays fcn_tuple n st = (Ok r, st1) →
       generate_data fcn_tuple n st = (Raise IndexError, st1)
       ∧ length (heap st1) = length (heap st) + 5)
  ∧ (shape_contract (fcn_tuple.(fcn) tt).2 →
     (fcn_tuple.(fcn) tt).1 ≠ [] →
     ∃ r st1,
       generate_data_arrays fcn_tuple n st = (Ok r, st1)
       ∧ generate_data fcn_tuple n st = (Raise IndexError, st1)
       ∧ length (heap st1) = length (heap st) + 5).
Proof.
  intros Hk.
  assert (∀ r st1,
            generate_data_arrays fcn_tuple n st = (Ok r, st1) →
            generate_data fcn_tuple n st = (Raise IndexError, st1)
            ∧ length (heap st1) = length (heap st) + 5) as Hraise.
  { intros r st1 E. unfold generate_data.
    rewrite (bind_Ok _ _ _ _ _ E).
    apply generate_data_arrays_Ok in E as (g & Hg).
    destruct Hg as (Hlen & _ & HX & HlenY & _ & Hn & _ & _ & _ & -> & Hh & _).
    apply Forall2_length in HX. apply noised_length in Hn.
    rewrite Hk. simpl. split; [done|].
    rewrite Hh, !length_app. simpl. lia. }
  split; [|split; [exact Hraise|]].
  - intros r st' E.
    apply generate_data_Ok in E as (g & st1 & x1 & Hg & _ & Hx1 & _).
    destruct Hg as (Hlen & _ & HX & _).
    apply Forall2_length in HX. apply lookup_lt_Some in Hx1. lia.
  - intros Hshape Hf.
    destruct (generate_data_arrays_total fcn_tuple n st Hshape)
      as (r & st1 & E).
    { rewrite Hk. destruct (fcn fcn_tuple tt).1; [done|simpl; lia]. }
    exists r, st1. split; [exact E|]. exact (Hraise r st1 E).
Qed.

(** C9: the test targets are the values of the last function of [fcn.f]
    divided by [y_scale]: entry by entry [v / y_scale], with no random draw
    in the divisor, whatever the noise levels of the descriptor. *)
Theorem test_targets_without_noise fcn_tuple n st x_test y_test X Y st' :
  generate_data fcn_tuple n st = (Ok (x_test, y_test, X, Y), st') →
  ∃ f_last arg y,
    last (fcn_tuple.(fcn) tt).1 = Some f_last
    ∧ inplace_op PrimFloat.div (f_last arg) (scalar_arr fcn_tuple.(y_scale))
      = Ok y
    ∧ heap st' !! y_test = Some y
    ∧ (well_shaped (f_last arg) →
       rows y = map (map (λ v, PrimFloat.div v fcn_tuple.(y_scale)))
                    (rows (f_last arg))).
Proof.
  intros E. apply generate_data_Ok in E as (g & st1 & x1 & Hg & _ & _ & ->).
  destruct (generation_lookups _ _ _ _ _ _ _ _ _ Hg) as (_ & _ & Hyt & _).
  destruct Hg as (_ & _ & _ & _ & _ & _ & _ & (f_last & arg & Hf & _ & Hy) & _).
  exists f_last, arg, (y_test_array g). repeat split; try done.
  intros Hw. rewrite inplace_op_scalar in Hy by done.
  injection Hy as <-. done.
Qed.

(** C5: the returned test inputs are the scaled test samples with exactly
    one more column at the end; its entry is [len(num_data) - 1], as a
    float, in every row. *)
Theorem test_inputs_fidelity_column fcn_tuple n st x_test y_test X Y st' :
  generate_data fcn_tuple n st = (Ok (x_test, y_test, X, Y), st') →
  ∃ raws raw0 raw_t xs a,
    sampled fcn_tuple n st st' raws raw_t
    ∧ raws !! 0 = Some raw0
    ∧ inplace_op PrimFloat.div raw_t (row_vec (scalings_from fcn_tuple raw0))
      = Ok xs
    ∧ heap st' !! x_test = Some a
    ∧ ncols a = ncols xs + 1
    ∧ rows a = map (λ r, r ++ [float_of_nat (length fcn_tuple.(num_data) - 1)])
                   (rows xs).
Proof.
  intros E.
  apply generate_data_Ok in E as (g & st1 & x1 & Hg & _ & _ & ->).
  destruct (generation_lookups _ _ _ _ _ _ _ _ _ Hg) as (_ & _ & _ & Hxt).
  pose proof (generation_sampled _ _ _ _ _ _ [PShape (shape x1)] Hg) as Hs.
  destruct Hg as (_ & (raw0 & Hraw0 & Hsc) & _ & _ & _ & _ & Hxs & _ & Hc & _).
  exists (raw_samples g), raw0, (raw_test g), (x_test_scaled g), (x_test_array g).
  unfold scalings_from. rewrite <- Hsc.
  do 4 (split; [done|]).
  unfold np_concatenate_axis1 in Hc.
  destruct (decide _) as [Hn|]; [|done]. injection Hc as <-. simpl.
  split; [done|]. unfold nrows. clear.
  induction (rows (x_test_scaled g)) as [|r l IH]; simpl; [done|].
  by rewrite float_mul_1_r, IH.
Qed.

(** C1: every array of [Y] that has a noise level is divided, row by row,
    by [y_scale + noise_level[i] * z] for a fresh standard-normal draw [z]
    per row: the noise is part of the divisor. *)
Theorem outputs_divided_by_noisy_scale
    fcn_tuple n st x_test y_test X Y st' i y sd :
  generate_data fcn_tuple n st = (Ok (x_test, y_test, X, Y), st') →
  Y !! i = Some y →
  fcn_tuple.(noise_level) !! i = Some sd →
  ∃ f_i arg zs y',
    (fcn_tuple.(fcn) tt).1 !! i = Some f_i
    ∧ length zs = nrows (f_i arg)
    ∧ randn_call (nrows (f_i arg)) (column zs) ∈ calls st'
    ∧ inplace_op PrimFloat.div (f_i arg)
        (noise_divisor fcn_tuple.(y_scale) sd (column zs)) = Ok y'
    ∧ heap st' !! y = Some y'
    ∧ (well_shaped (f_i arg) →
       rows y' = zip_with (λ r z,
                   map (λ v, PrimFloat.div v
                          (PrimFloat.add fcn_tuple.(y_scale)
                                         (PrimFloat.mul sd z))) r)
                 (rows (f_i arg)) zs).
Proof.
  intros E Hy Hsd.
  apply generate_data_Ok in E as (g & st1 & x1 & Hg & _ & _ & ->).
  destruct (generation_lookups _ _ _ _ _ _ _ _ _ Hg) as (_ & HYl & _ & _).
  destruct (HYl _ _ Hy) as (y' & Hy' & Hhy).
  destruct Hg as (Hlen & _ & HX & HlenY & Hev & Hn & _ & _ & _ & _ & _ & _ & Hc).
  apply Forall2_length in HX.
  pose proof (noised_length _ _ _ _ _ Hn) as HlenYs.
  apply lookup_lt_Some in Hy' as Hi.
  destruct (lookup_lt_is_Some_2 (X_arrays g) i) as [x Hx]; [lia|].
  destruct (Hev _ _ Hx) as (f_i & arg & Hf & Harg & Hraw).
  destruct (noised_lookup _ _ _ _ _ _ _ _ Hn Hraw Hsd)
    as (zs & y'' & Hzs & Hcs & Hdiv & Hy'').
  rewrite Hy' in Hy''. injection Hy'' as <-.
  exists f_i, arg, zs, y'. repeat split; try done.
  - simpl. rewrite Hc. apply list_elem_of_lookup_2 in Hcs.
    rewrite !elem_of_app. tauto.
  - intros Hw. rewrite noise_divisor_column in Hdiv.
    rewrite inplace_op_column in Hdiv by (by rewrite ?length_map).
    injection Hdiv as <-. simpl. by rewrite zip_with_fmap_r.
Qed.

(** C4: all training inputs and the test inputs are divided in place by the
    same vector: the axis-wise standard deviation of the lowest-fidelity
    samples when [do_x_scaling] holds, a vector of ones otherwise; in the
    second case the arrays stay equal to what [get_samples] returned. *)
Theorem inputs_scaled_by_one_vector fcn_tuple n st x_test y_test X Y st' :
  generate_data fcn_tuple n st = (Ok (x_test, y_test, X, Y), st') →
  ∃ raws raw0 raw_t xs,
    let s := if fcn_tuple.(do_x_scaling) then np_std_axis0 raw0
             else np_ones (ncols raw0) in
    sampled fcn_tuple n st st' raws raw_t
    ∧ raws !! 0 = Some raw0
    ∧ (∀ i x, X !! i = Some x →
         ∃ raw a, raws !! i = Some raw
           ∧ inplace_op PrimFloat.div raw (row_vec s) = Ok a
           ∧ heap st' !! x = Some a
           ∧ (fcn_tuple.(do_x_scaling) = false → well_shaped raw → a = raw))
    ∧ inplace_op PrimFloat.div raw_t (row_vec s) = Ok xs
    ∧ (∃ a c, heap st' !! x_test = Some a
              ∧ rows a = map (λ r, r ++ [c]) (rows xs))
    ∧ (fcn_tuple.(do_x_scaling) = false → well_shaped raw_t → xs = raw_t).
Proof.
  intros E.
  apply generate_data_Ok in E as (g & st1 & x1 & Hg & _ & _ & ->).
  destruct (generation_lookups _ _ _ _ _ _ _ _ _ Hg) as (HXl & _ & _ & Hxt).
  pose proof (generation_sampled _ _ _ _ _ _ [PShape (shape x1)] Hg) as Hs.
  destruct Hg as (_ & (raw0 & Hraw0 & Hsc) & HX & _ & _ & _ & Hxs & _ & Hc & _).
  exists (raw_samples g), raw0, (raw_test g), (x_test_scaled g). simpl.
  rewrite <- Hsc. do 2 (split; [done|]). split; [|split; [done|split]].
  - intros i x Hx. destruct (HXl _ _ Hx) as (a & Ha & Hh).
    destruct (Forall2_lookup_r _ _ _ _ _ HX Ha) as (raw & Hraw & Hdiv).
    exists raw, a. repeat split; try done.
    intros Hdx Hw. rewrite Hsc, Hdx in Hdiv.
    by apply (inplace_op_ones _ _ _ _ float_div_1_r Hw) in Hdiv as [-> _].
  - exists (x_test_array g),
      (PrimFloat.mul (float_of_nat (length (num_data fcn_tuple) - 1)) 1).
    split; [done|].
    unfold np_concatenate_axis1 in Hc.
    destruct (decide _) as [Hn|]; [|done]. injection Hc as <-. simpl.
    unfold nrows. clear.
    induction (rows (x_test_scaled g)) as [|r l IH]; simpl; [done|].
    by rewrite IH.
  - intros Hdx Hw. rewrite Hsc, Hdx in Hxs.
    by apply (inplace_op_ones _ _ _ _ float_div_1_r Hw) in Hxs as [Heq _].
Qed.

(** C6, as the code has it: [fcn.f[i]] is evaluated at the product of the
    scaled inputs [X[i]] with the scaling vector, and the test targets come
    from the last function at the product of the scaled test inputs with it.
    The product is the original sample where its floats round-trip through
    the division and the multiplication, as they do when [do_x_scaling] is
    false and the scaling vector is all ones; and for a well-shaped sample
    with one scale per column, only there. *)
Theorem function_evaluated_at_rescaled_inputs
    fcn_tuple n st x_test y_test X Y st' :
  generate_data fcn_tuple n st = (Ok (x_test, y_test, X, Y), st') →
  ∃ raws raw0 raw_t xs,
    let s := scalings_from fcn_tuple raw0 in
    sampled fcn_tuple n st st' raws raw_t
    ∧ raws !! 0 = Some raw0
    ∧ (∀ i x y, X !! i = Some x → Y !! i = Some y →
         ∃ raw a f_i arg y',
           raws !! i = Some raw
           ∧ inplace_op PrimFloat.div raw (row_vec s) = Ok a
           ∧ heap st' !! x = Some a
           ∧ (fcn_tuple.(fcn) tt).1 !! i = Some f_i
           ∧ broadcast_op PrimFloat.mul a (row_vec s) = Ok arg
           ∧ heap st' !! y = Some y'
           ∧ after_noise fcn_tuple.(y_scale) (fcn_tuple.(noise_level) !! i)
                         (f_i arg) y'
           ∧ (round_trips raw s → arg = raw)
           ∧ (fcn_tuple.(do_x_scaling) = false → well_shaped raw → arg = raw)
           ∧ (well_shaped raw → length s = ncols raw → arg = raw →
              round_trips raw s))
    ∧ inplace_op PrimFloat.div raw_t (row_vec s) = Ok xs
    ∧ (∃ f_last arg yv,
         last (fcn_tuple.(fcn) tt).1 = Some f_last
         ∧ broadcast_op PrimFloat.mul xs (row_vec s) = Ok arg
         ∧ inplace_op PrimFloat.div (f_last arg)
             (scalar_arr fcn_tuple.(y_scale)) = Ok yv
         ∧ heap st' !! y_test = Some yv
         ∧ (round_trips raw_t s → arg = raw_t)
         ∧ (fcn_tuple.(do_x_scaling) = false → well_shaped raw_t →
            arg = raw_t)
         ∧ (well_shaped raw_t → length s = ncols raw_t → arg = raw_t →
            round_trips raw_t s)).
Proof.
  intros E.
  apply generate_data_Ok in E as (g & st1 & x1 & Hg & _ & _ & ->).
  destruct (generation_lookups _ _ _ _ _ _ _ _ _ Hg) as (HXl & HYl & Hyt & _).
  pose proof (generation_sampled _ _ _ _ _ _ [PShape (shape x1)] Hg) as Hs.
  destruct Hg as (_ & (raw0 & Hraw0 & Hsc) & HX & _ & Hev & Hn & Hxs
                  & (f_last & arg & Hfl & Harg & Hyv) & _).
  exists (raw_samples g), raw0, (raw_test g), (x_test_scaled g). simpl.
  unfold scalings_from. rewrite <- Hsc.
  do 2 (split; [done|]). split; [|split; [done|]].
  - intros i x y Hx Hy.
    destruct (HXl _ _ Hx) as (a & Ha & Hha).
    destruct (HYl _ _ Hy) as (y' & Hy' & Hhy).
    destruct (Forall2_lookup_r _ _ _ _ _ HX Ha) as (raw & Hraw & Hdiv).
    destruct (Hev _ _ Ha) as (f_i & arg_i & Hf & Hmul & Hyraw).
    exists raw, a, f_i, arg_i, y'. do 6 (split; [done|]).
    split; [|split; [|split]].
    + unfold after_noise.
      destruct (noise_level fcn_tuple !! i) as [sd|] eqn:Hsd.
      * destruct (noised_lookup _ _ _ _ _ _ _ _ Hn Hyraw Hsd)
          as (zs & y'' & Hzs & _ & Hd & Hy'').
        rewrite Hy' in Hy''. injection Hy'' as <-. eauto.
      * rewrite (noised_lookup_None _ _ _ _ _ _ Hn Hsd), Hyraw in Hy'.
        by injection Hy' as <-.
    + intros Hrt. by eapply rescale_round_trip.
    + intros Hdx Hw. rewrite Hsc, Hdx in Hdiv, Hmul.
      apply (inplace_op_ones _ _ _ _ float_div_1_r Hw) in Hdiv as [-> Hd].
      rewrite (broadcast_op_ones _ _ _ float_mul_1_r Hw Hd) in Hmul.
      by injection Hmul as <-.
    + intros Hw Hl ->. by eapply rescale_round_trip_inv.
  - exists f_last, arg, (y_test_array g). do 4 (split; [done|]).
    split; [|split].
    + intros Hrt. by eapply rescale_round_trip.
    + intros Hdx Hw. rewrite Hsc, Hdx in Hxs, Harg.
      apply (inplace_op_ones _ _ _ _ float_div_1_r Hw) in Hxs as [Heq Hd].
      rewrite Heq in Harg.
      rewrite (broadcast_op_ones _ _ _ float_mul_1_r Hw Hd) in Harg.
      by injection Harg as <-.
    + intros Hw Hl ->. by eapply rescale_round_trip_inv.
Qed.

End GenerateData.

(** ** calculate_metrics and print_metrics *)

Section Metrics.
Context `{Libraries}.

Lemma omap_list_Ok {A B} (f : A → outcome B) l ys :
  omap_list f l = Ok ys → Forall2 (λ x y, f x = Ok y) l ys.
Proof.
  revert ys. induction l as [|x l IH]; intros ys; simpl.
  - intros [= <-]. constructor.
  - destruct (f x) as [y|] eqn:Ey; simpl; [|done].
    destruct (omap_list f l) as [ys'|]; simpl; [|done].
    intros [= <-]. constructor; [done|]. by apply IH.
Qed.

Lemma calculate_metrics_run y_test y_mean y_var st :
  ∃ r, calculate_metrics y_test y_mean y_var st = (r, st)
    ∧ ∀ d, r = Ok d →
        ∃ yt ym yv r2 mse lp,
          heap st !! y_test = Some yt
          ∧ heap st !! y_mean = Some ym
          ∧ heap st !! y_var = Some yv
          ∧ r2_score yt ym = Ok r2
          ∧ mean_squared_error yt ym = Ok mse
          ∧ norm_logpdf yt ym (np_sqrt yv) = Ok lp
          ∧ d = [("r2", r2); ("rmse", PrimFloat.sqrt mse);
                 ("mnll", PrimFloat.div (PrimFloat.opp (np_sum lp))
                                        (float_of_nat (nrows yt)))].
Proof.
  unfold calculate_metrics, bind, load, lift, ret.
  destruct (heap st !! y_test) as [yt|]; [|by eexists].
  destruct (heap st !! y_mean) as [ym|]; [|by eexists].
  destruct (heap st !! y_var) as [yv|]; [|by eexists].
  destruct (r2_score yt ym) as [r2|] eqn:E1; [|by eexists].
  destruct (mean_squared_error yt ym) as [mse|] eqn:E2; [|by eexists].
  destruct (norm_logpdf yt ym (np_sqrt yv)) as [lp|] eqn:E3; [|by eexists].
  eexists. split; [done|]. intros d [= <-].
  by exists yt, ym, yv, r2, mse, lp.
Qed.

(** C3: calculate_metrics leaves the store as it found it, its result
    depends on nothing but the three arrays it is given, and on success it is
    the dictionary of [r2 = r2_score(targets, means)],
    [rmse = sqrt(mean_squared_error(targets, means))] and
    [mnll = -sum(logpdf(targets, means, sqrt(variances))) / len(targets)]. *)
Theorem calculate_metrics_pure y_test y_mean y_var st :
  (calculate_metrics y_test y_mean y_var st).2 = st
  ∧ (∀ y_test' y_mean' y_var' st2,
       heap st2 !! y_test' = heap st !! y_test →
       heap st2 !! y_mean' = heap st !! y_mean →
       heap st2 !! y_var' = heap st !! y_var →
       (calculate_metrics y_test' y_mean' y_var' st2).1
       = (calculate_metrics y_test y_mean y_var st).1)
  ∧ (∀ d, (calculate_metrics y_test y_mean y_var st).1 = Ok d →
       ∃ yt ym yv r2 mse lp,
         heap st !! y_test = Some yt
         ∧ heap st !! y_mean = Some ym
         ∧ heap st !! y_var = Some yv
         ∧ r2_score yt ym = Ok r2
         ∧ mean_squared_error yt ym = Ok mse
         ∧ norm_logpdf yt ym (np_sqrt yv) = Ok lp
         ∧ d = [("r2", r2); ("rmse", PrimFloat.sqrt mse);
                ("mnll", PrimFloat.div (PrimFloat.opp (np_sum lp))
                                       (float_of_nat (nrows yt)))]).
Proof.
  destruct (calculate_metrics_run y_test y_mean y_var st) as (r & E & Hr).
  rewrite E. simpl. split; [done|]. split; [|done].
  intros y_test' y_mean' y_var' st2 H1 H2 H3.
  clear Hr. unfold calculate_metrics, bind, load, lift, ret in *.
  rewrite H1.
  destruct (heap st !! y_test) as [yt|]; [|by injection E as <-].
  rewrite H2.
  destruct (heap st !! y_mean) as [ym|]; [|by injection E as <-].
  rewrite H3.
  destruct (heap st !! y_var) as [yv|]; [|by injection E as <-].
  destruct (r2_score yt ym) as [r2|]; [|by injection E as <-].
  destruct (mean_squared_error yt ym) as [mse|]; [|by injection E as <-].
  destruct (norm_logpdf yt ym (np_sqrt yv)) as [lp|]; by injection E as <-.
Qed.

Lemma metric_values_Ok metrics name metric_name vals :
  metric_values metrics name metric_name = Ok vals →
  run_values metrics name metric_name vals.
Proof.
  unfold metric_values, run_values, dict_values. intros E.
  apply omap_list_Ok in E. apply Forall2_fmap_l in E.
  eapply Forall2_impl; [exact E|]. simpl. intros [k run] v. simpl.
  unfold dict_item.
  destruct (dict_get name run) as [e|]; simpl; [|done].
  destruct (dict_get metric_name e) as [v'|] eqn:Ev; [|done].
  intros [= <-]. eauto.
Qed.

Lemma metrics_table_Ok metrics t :
  metrics_table metrics = Ok t →
  ∃ first,
    dict_values metrics !! 0 = Some first
    ∧ field_names t = ["model"; "r2"; "mnll"; "rmse"]
    ∧ map fst (table_rows t) = dict_keys first
    ∧ ∀ name means, (name, means) ∈ table_rows t →
        ∃ r2s mnlls rmses,
          means = [np_mean r2s; np_mean mnlls; np_mean rmses]
          ∧ run_values metrics name "r2" r2s
          ∧ run_values metrics name "mnll" mnlls
          ∧ run_values metrics name "rmse" rmses.
Proof.
  unfold metrics_table.
  destruct (getitem (dict_values metrics) 0) as [first|] eqn:Ef; simpl;
    [|done].
  apply getitem_Ok in Ef.
  match goal with |- (table_rows <~ ?c ;; _) = _ → _ =>
    destruct c as [trows|] eqn:Er end; simpl; [|done].
  intros [= <-]. simpl. exists first. do 2 (split; [done|]).
  apply omap_list_Ok in Er. split.
  - clear Ef. induction Er as [|name [n' ms] names trows Hrow Hr IH]; simpl;
      [done|].
    f_equal; [|done]. clear IH.
    destruct (metric_values metrics name "r2"); simpl in Hrow; [|done].
    destruct (metric_values metrics name "mnll"); simpl in Hrow; [|done].
    destruct (metric_values metrics name "rmse"); simpl in Hrow; [|done].
    by injection Hrow as <- _.
  - intros name means Hin.
    apply list_elem_of_lookup in Hin as [j Hj].
    destruct (Forall2_lookup_r _ _ _ _ _ Er Hj) as (name' & _ & Hrow).
    simpl in Hrow.
    destruct (metric_values metrics name' "r2") as [r2s|] eqn:E1;
      simpl in Hrow; [|done].
    destruct (metric_values metrics name' "mnll") as [mnlls|] eqn:E2;
      simpl in Hrow; [|done].
    destruct (metric_values metrics name' "rmse") as [rmses|] eqn:E3;
      simpl in Hrow; [|done].
    injection Hrow as -> <-.
    exists r2s, mnlls, rmses. split; [done|].
    split; [|split]; by apply metric_values_Ok.
Qed.

Lemma print_metrics_Ok metrics st u st' :
  print_metrics metrics st = (Ok u, st') →
  ∃ t, metrics_table metrics = Ok t ∧ st' = add_stdout [PTable t] st.
Proof.
  unfold print_metrics. intros E.
  apply bind_Ok_inv in E as (t & st1 & Et & E).
  apply lift_Ok_inv in Et as [Et ->].
  unfold print in E. injection E as _ <-. eauto.
Qed.

(** C7: print_metrics prints one table; its rows are the models of the
    first run, and the three values in the row of a model are [np.mean] of
    that model's r2, mnll and rmse over all runs of the dictionary. *)
Theorem print_metrics_means metrics st u st' :
  print_metrics metrics st = (Ok u, st') →
  ∃ t first,
    st' = add_stdout [PTable t] st
    ∧ dict_values metrics !! 0 = Some first
    ∧ field_names t = ["model"; "r2"; "mnll"; "rmse"]
    ∧ map fst (table_rows t) = dict_keys first
    ∧ ∀ name means, (name, means) ∈ table_rows t →
        ∃ r2s mnlls rmses,
          means = [np_mean r2s; np_mean mnlls; np_mean rmses]
          ∧ run_values metrics name "r2" r2s
          ∧ run_values metrics name "mnll" mnlls
          ∧ run_values metrics name "rmse" rmses.
Proof.
  intros E. apply print_metrics_Ok in E as (t & Et & ->).
  destruct (metrics_table_Ok _ _ Et) as (first & Hf & Hn & Hk & Hrows).
  by exists t, first.
Qed.

End Metrics.

(** ** benchmark_models, test_function and do_benchmark *)

Section Benchmark.
Context `{Libraries}.

Lemma dict_keys_set_elem_iff {V} k (v : V) d k' :
  k' ∈ dict_keys (dict_set k v d) ↔ k' = k ∨ k' ∈ dict_keys d.
Proof.
  split; [apply dict_keys_set_elem|].
  unfold dict_keys. induction d as [|[k0 v0] d IH]; simpl.
  - rewrite list_elem_of_singleton. intros [->|Hin]; [done|].
    by apply elem_of_nil in Hin.
  - destruct (String.eqb k0 k) eqn:E; simpl; rewrite !elem_of_cons.
    + apply String.eqb_eq in E. subst. tauto.
    + intros [->|[->|Hin]]; tauto.
Qed.

Lemma dict_values_set_Forall {V} (P : V → Prop) k v d :
  P v → Forall P (dict_values d) → Forall P (dict_values (dict_set k v d)).
Proof.
  intros Hv. unfold dict_values.
  induction d as [|[k0 v0] d IH]; simpl; intros Hd.
  - by constructor.
  - apply Forall_cons in Hd as [H0 Hd].
    destruct (String.eqb k0 k); simpl; constructor; auto.
Qed.

Lemma filter_table_library l : filter is_table (map PLibrary l) = [].
Proof.
  induction l as [|x l IH]; simpl; [done|].
  rewrite filter_cons. by destruct (decide _) as [Hp|].
Qed.

(** A call of a model's constructor or method: the state it leaves. *)
Lemma lib_call_run {A} (f : ext_state → outcome A * list string * ext_state)
    (entry : outcome A → call) st :
  ∃ r out e',
    f (ext st) = (r, out, e')
    ∧ lib_call f entry st
      = (r, State (heap st) e' (stdout st ++ map PLibrary out)
                  (calls st ++ [entry r])).
Proof.
  unfold lib_call. destruct (f (ext st)) as [[r out] e']. by exists r, out, e'.
Qed.

Lemma optimize_run m st :
  ∃ r out e',
    model_optimize (cls m) (obj m) (ext st) = (r, out, e')
    ∧ optimize m st
      = (r, State (heap st) e' (stdout st ++ map PLibrary out)
                  (calls st ++ [optimize_call (cls m) (obj m) r])).
Proof. apply lib_call_run. Qed.

Lemma predict_Ok m x st p st' :
  predict m x st = (Ok p, st') →
  ∃ a out e' ym yv,
    heap st !! x = Some a
    ∧ model_predict (cls m) (obj m) a (ext st) = (Ok (ym, yv), out, e')
    ∧ st' = State (heap st ++ [ym; yv]) e' (stdout st ++ map PLibrary out)
                  (calls st
                   ++ [predict_call (cls m) (obj m) a (Ok (ym, yv))])
    ∧ p = (length (heap st), S (length (heap st))).
Proof.
  unfold predict. intros E.
  mstep E as a Ea.
  apply bind_Ok_inv in E as ([ym yv] & st1 & Er & E).
  destruct (lib_call_run (model_predict (cls m) (obj m) a)
              (predict_call (cls m) (obj m) a) st) as (r & out & e' & Ep & Er').
  rewrite Er' in Er. injection Er as -> <-.
  mstep E as y1 E1. mstep E as y2 E2. mprim E.
  exists a, out, e', ym, yv. simpl. rewrite <- app_assoc, length_app. simpl.
  do 3 (split; [done|]). f_equal. lia.
Qed.

Lemma predict_Raise_state m x st e st' :
  predict m x st = (Raise e, st') →
  heap st' = heap st ∧ ∃ out, stdout st' = stdout st ++ map PLibrary out.
Proof.
  unfold predict, bind, load, alloc, ret.
  destruct (heap st !! x) as [a|].
  2:{ intros [= _ <-]. split; [done|]. exists []. by rewrite app_nil_r. }
  destruct (lib_call_run (model_predict (cls m) (obj m) a)
              (predict_call (cls m) (obj m) a) st) as (r & out & e' & _ & ->).
  destruct r as [r|e0]; [done|]. intros [= _ <-]. simpl. eauto.
Qed.

(** One iteration of the loop of benchmark_models that completes. *)
Lemma benchmark_models_iter_Ok x_test y_test metrics m st metrics' st' :
  benchmark_models_iter x_test y_test metrics m st = (Ok metrics', st') →
  ∃ d cs out,
    metrics' = dict_set (model_name m) d metrics
    ∧ dict_keys d = ["r2"; "rmse"; "mnll"]
    ∧ calls st' = calls st ++ cs
    ∧ map kind_of cs = [KOptimize (cls m); KPredict (cls m)]
    ∧ stdout st' = stdout st ++ out
    ∧ filter is_table out = [].
Proof.
  unfold benchmark_models_iter. intros E.
  apply bind_Ok_inv in E as ([] & st1 & Eo & E).
  destruct (optimize_run m st) as (r & oo & e1 & _ & Eo').
  rewrite Eo' in Eo. injection Eo as -> <-.
  apply bind_Ok_inv in E as (p & st2 & Ep & E).
  apply predict_Ok in Ep as (a & po & e2 & ym & yv & _ & _ & -> & ->).
  simpl in E.
  apply bind_Ok_inv in E as (d & st3 & Ec & E).
  match type of Ec with calculate_metrics ?a ?b ?c ?s = _ =>
    destruct (calculate_metrics_run a b c s) as (rc & Ec' & Hd) end.
  rewrite Ec' in Ec. injection Ec as -> <-.
  destruct (Hd d eq_refl) as (yt & ym' & yv' & r2 & mse & lp & _ & _ & _
                              & _ & _ & _ & ->).
  mstep E as u1 E1. mstep E as r2' E2. mstep E as u2 E3.
  mstep E as u3 E4. mprim E. simpl.
  eexists _, _, _. split; [done|]. split; [done|].
  rewrite <- !app_assoc. split; [done|]. split; [done|].
  split; [done|].
  by rewrite !filter_app, !filter_table_library.
Qed.

Lemma benchmark_models_loop_Ok x_test y_test models acc st d st' :
  for_fold models (benchmark_models_iter x_test y_test) acc st = (Ok d, st') →
  (∀ k, k ∈ dict_keys d ↔ k ∈ dict_keys acc ∨ k ∈ map model_name models)
  ∧ (Forall (λ m, dict_keys m = ["r2"; "rmse"; "mnll"]) (dict_values acc) →
     Forall (λ m, dict_keys m = ["r2"; "rmse"; "mnll"]) (dict_values d))
  ∧ (∃ cs, calls st' = calls st ++ cs
       ∧ map kind_of cs
         = flat_map (λ m, [KOptimize (cls m); KPredict (cls m)]) models)
  ∧ ∃ out, stdout st' = stdout st ++ out ∧ filter is_table out = [].
Proof.
  revert acc st. induction models as [|m models IH]; intros acc st; simpl.
  - intros [= <- <-]. repeat split; try done.
    + tauto.
    + intros [Hk|Hk]; [done|]. by apply elem_of_nil in Hk.
    + exists []. by rewrite app_nil_r.
    + exists []. by rewrite app_nil_r.
  - intros E. apply bind_Ok_inv in E as (acc' & st1 & Ei & E).
    apply benchmark_models_iter_Ok in Ei
      as (dm & cs1 & out1 & -> & Hdm & Hc1 & Hk1 & Ho1 & Hf1).
    apply IH in E as (Hk & HF & (cs & Hc & Hkc) & out & Ho & Hf).
    split; [|split; [|split]].
    + intros k. rewrite Hk, dict_keys_set_elem_iff, elem_of_cons. tauto.
    + intros Hacc. apply HF. by apply dict_values_set_Forall.
    + exists (cs1 ++ cs). rewrite Hc, Hc1, <- app_assoc. split; [done|].
      by rewrite map_app, Hk1, Hkc.
    + exists (out1 ++ out). rewrite Ho, Ho1, <- app_assoc.
      split; [done|]. by rewrite filter_app, Hf1, Hf.
Qed.

Lemma list_comp_load_Ok X st l st' :
  list_comp load X st = (Ok l, st') →
  st' = st ∧ Forall2 (λ r a, heap st !! r = Some a) X l.
Proof.
  revert l. induction X as [|x X IH]; intros l; simpl.
  - intros [= <- <-]. by split; [|constructor].
  - intros E. mstep E as a Ea. mstep E as l' El. mprim E.
    apply IH in El as [-> HF]. by split; [|constructor].
Qed.

(** A constructor that returns: it has read the arrays of [X] and [Y] as
    they are in the store, and the object holds what the package made. *)
Lemma new_model_Ok c X Y n_iter st m st' :
  new_model c X Y n_iter st = (Ok m, st') →
  ∃ Xa Ya nm h out e',
    Forall2 (λ r a, heap st !! r = Some a) X Xa
    ∧ Forall2 (λ r a, heap st !! r = Some a) Y Ya
    ∧ model_init c Xa Ya n_iter (ext st) = (Ok (nm, h), out, e')
    ∧ m = Model c nm h
    ∧ st' = State (heap st) e' (stdout st ++ map PLibrary out)
                  (calls st ++ [init_call c Xa Ya n_iter (Ok (nm, h))]).
Proof.
  unfold new_model. intros E.
  apply bind_Ok_inv in E as (Xa & st1 & EX & E).
  apply list_comp_load_Ok in EX as [-> HX].
  apply bind_Ok_inv in E as (Ya & st1 & EY & E).
  apply list_comp_load_Ok in EY as [-> HY].
  apply bind_Ok_inv in E as ([nm h] & st1 & Er & E).
  destruct (lib_call_run (model_init c Xa Ya n_iter)
              (init_call c Xa Ya n_iter) st) as (r & out & e' & Ei & Er').
  rewrite Er' in Er. injection Er as -> <-.
  mprim E. by exists Xa, Ya, nm, h, out, e'.
Qed.

(** The arrays that a constructor read are those of a list of arrays that
    the references point to. *)
Lemma loaded_arrays (h : list ndarray) (X : list ref) Xa arrs :
  Forall2 (λ r a, h !! r = Some a) X Xa →
  length arrs = length X →
  (∀ i x, X !! i = Some x → ∃ a, arrs !! i = Some a ∧ h !! x = Some a) →
  Xa = arrs.
Proof.
  intros HF Hlen Hl. apply list_eq. intros i.
  destruct (X !! i) as [x|] eqn:Hx.
  - destruct (Hl _ _ Hx) as (a & -> & Ha).
    destruct (Forall2_lookup_l _ _ _ _ _ HF Hx) as (a' & -> & Ha').
    congruence.
  - apply Forall2_length in HF. apply lookup_ge_None in Hx.
    rewrite !lookup_ge_None_2; [done|lia..].
Qed.

Lemma kind_of_get_samples nums raws :
  length raws = length nums →
  map kind_of (zip_with get_samples_call nums raws) = map KSamples nums.
Proof.
  revert raws. induction nums as [|n nums IH]; intros [|a raws] Hl;
    simpl in *; try done.
  rewrite IH by lia. done.
Qed.

Lemma kind_of_randn cs :
  Forall (λ c, ∃ m z, c = randn_call m z) cs →
  map kind_of cs = replicate (length cs) KRandn.
Proof.
  induction 1 as [|c cs (m & z & ->) _ IH]; simpl; [done|]. by rewrite IH.
Qed.

Lemma generate_data_footprint fcn_tuple n st r st' :
  generate_data fcn_tuple n st = (Ok r, st') →
  (∃ cs, calls st' = calls st ++ cs
         ∧ map kind_of cs
           = [KFcn; KDesign] ++ map KSamples fcn_tuple.(num_data)
             ++ replicate (length fcn_tuple.(num_data)
                           `min` length fcn_tuple.(noise_level)) KRandn
             ++ [KSamples n])
  ∧ ∃ out, stdout st' = stdout st ++ out ∧ filter is_table out = [].
Proof.
  intros E. apply generate_data_Ok in E as (g & st1 & x1 & Hg & _ & _ & ->).
  destruct Hg as (Hlen & _ & _ & HlenY & _ & Hn & _ & _ & _ & _ & _ & Ho & Hc).
  split.
  - eexists. simpl. split; [exact Hc|].
    apply noised_calls in Hn as [Hn1 Hn2].
    rewrite !map_app, (kind_of_get_samples _ _ Hlen), (kind_of_randn _ Hn1).
    rewrite Hn2, HlenY. done.
  - exists [PShape (shape x1)]. simpl. by rewrite Ho.
Qed.

(** One iteration of the loop of benchmark_models on the test set [xt],
    [yt]: the model is fitted, predicts at [xt] and is scored against
    [yt]. *)
Lemma benchmark_models_iter_run x_test y_test metrics m st metrics' st' xt yt :
  benchmark_models_iter x_test y_test metrics m st = (Ok metrics', st') →
  heap st !! x_test = Some xt → heap st !! y_test = Some yt →
  ∃ f r2,
    f_model f = m
    ∧ fit_all (ext st) xt [f] (ext st')
    ∧ metrics_of yt (f_mean f) (f_var f) (f_metrics f)
    ∧ dict_get "r2" (f_metrics f) = Some r2
    ∧ metrics' = dict_set (model_name m) (f_metrics f) metrics
    ∧ heap st' = heap st ++ [f_mean f; f_var f]
    ∧ calls st' = calls st ++ fitted_calls xt f
    ∧ stdout st' = stdout st ++ fit_lines f r2.
Proof.
  unfold benchmark_models_iter. intros E Hxt Hyt.
  apply bind_Ok_inv in E as ([] & st1 & Eo & E).
  destruct (optimize_run m st) as (r & oo & e1 & Emo & Eo').
  rewrite Eo' in Eo. injection Eo as -> <-.
  apply bind_Ok_inv in E as (p & st2 & Ep & E).
  apply predict_Ok in Ep as (a & po & e2 & ym & yv & Ha & Emp & -> & ->).
  simpl in Ha, Emp. rewrite Hxt in Ha. injection Ha as <-. simpl in E.
  apply bind_Ok_inv in E as (d & st3 & Ec & E).
  match type of Ec with calculate_metrics ?a ?b ?c ?s = _ =>
    destruct (calculate_metrics_run a b c s) as (rc & Ec' & Hd) end.
  rewrite Ec' in Ec. injection Ec as -> <-.
  destruct (Hd d eq_refl) as (yt' & ym' & yv' & r2 & mse & lp & Hyt' & Hym
                              & Hyv & Hr2 & Hmse & Hlp & ->).
  simpl in Hyt', Hym, Hyv.
  rewrite (lookup_app_l_Some _ _ _ _ Hyt) in Hyt'. injection Hyt' as <-.
  rewrite lookup_app_r, Nat.sub_diag in Hym by done. injection Hym as <-.
  rewrite lookup_app_r in Hyv by lia.
  replace (S (length (heap st)) - length (heap st)) with 1 in Hyv by lia.
  injection Hyv as <-.
  mstep E as u1 E1. mstep E as r2' E2. mstep E as u2 E3.
  mstep E as u3 E4. mprim E.
  unfold dict_item in E2. rewrite dict_get_set_eq in E2. simpl in E2.
  injection E2 as <-.
  exists (Fitted m oo po ym yv
            [("r2", r2); ("rmse", PrimFloat.sqrt mse);
             ("mnll", PrimFloat.div (PrimFloat.opp (np_sum lp))
                                    (float_of_nat (nrows yt)))]), r2.
  unfold fit_lines. simpl. split; [done|].
  split; [by exists e1, e2|].
  split; [by exists r2, mse, lp|]. do 3 (split; [done|]).
  rewrite map_app, <- !app_assoc. done.
Qed.

Lemma benchmark_models_loop_run x_test y_test models acc st d st' xt yt :
  for_fold models (benchmark_models_iter x_test y_test) acc st = (Ok d, st') →
  heap st !! x_test = Some xt → heap st !! y_test = Some yt →
  ∃ fs r2s,
    map f_model fs = models
    ∧ fit_all (ext st) xt fs (ext st')
    ∧ Forall (λ f, metrics_of yt (f_mean f) (f_var f) (f_metrics f)) fs
    ∧ Forall2 (λ f r2, dict_get "r2" (f_metrics f) = Some r2) fs r2s
    ∧ d = foldl (λ d kv, dict_set kv.1 kv.2 d) acc (entries fs)
    ∧ calls st' = calls st ++ flat_map (fitted_calls xt) fs
    ∧ stdout st' = stdout st ++ concat (zip_with fit_lines fs r2s).
Proof.
  revert acc st. induction models as [|m models IH]; intros acc st; simpl.
  - intros [= <- <-] _ _. exists [], []. simpl. rewrite !app_nil_r.
    by repeat split.
  - intros E Hxt Hyt. apply bind_Ok_inv in E as (acc' & st1 & Ei & E).
    destruct (benchmark_models_iter_run _ _ _ _ _ _ _ _ _ Ei Hxt Hyt)
      as (f & r2 & Hm & (e1 & e2 & Hfo & Hfp & He) & Hf & Hr2 & -> & Hh & Hc
          & Ho).
    simpl in He.
    apply IH in E as (fs & r2s & Hfs & Hfits & HF & HF2 & -> & Hc' & Ho').
    + rewrite He in Hfits. subst m.
      exists (f :: fs), (r2 :: r2s). simpl. rewrite Hfs. split; [done|].
      split; [by exists e1, e2|]. split; [by constructor|].
      split; [by constructor|]. split; [done|].
      split; [by rewrite Hc', Hc, <- app_assoc|].
      by rewrite Ho', Ho, <- app_assoc.
    + rewrite Hh. by apply lookup_app_l_Some.
    + rewrite Hh. by apply lookup_app_l_Some.
Qed.

(** Lines 119-126: the data are drawn after the seed call, and the four
    constructors have read the arrays of [X] and [Y]. *)
Lemma test_function_models_Ok fcn_tuple seed st models x_test y_test st' :
  test_function_models fcn_tuple seed st = (Ok (models, x_test, y_test), st') →
  ∃ g X Y st_d nm4 m1 m2 m3 m4 out,
    generation fcn_tuple 1000
      (State (heap st) (random_seed seed (ext st)) (stdout st)
             (calls st ++ [seed_call seed]))
      (x_test, y_test, X, Y) st_d g
    ∧ models = [m1; m2; m3; m4]
    ∧ map cls models = [HighFidelityGp; LinearAutoRegressiveModel;
                        NonLinearAutoRegressiveModel; MultiFidelityDeepGP]
    ∧ model_name m4 = "mf_dgp_fix_lf_mean"
    ∧ heap st' = heap st_d
    ∧ calls st'
      = calls st_d
        ++ [init_call MultiFidelityDeepGP (X_arrays g) (Y_arrays g)
                      (Some 5000) (Ok (nm4, obj m4));
            init_call HighFidelityGp (X_arrays g) (Y_arrays g) None
                      (Ok (model_name m1, obj m1));
            init_call LinearAutoRegressiveModel (X_arrays g) (Y_arrays g) None
                      (Ok (model_name m2, obj m2));
            init_call NonLinearAutoRegressiveModel (X_arrays g) (Y_arrays g)
                      None (Ok (model_name m3, obj m3))]
    ∧ stdout st' = stdout st ++ out
    ∧ filter is_table out = [].
Proof.
  unfold test_function_models. intros E.
  apply bind_Ok_inv in E as ([] & st1 & Es & E).
  unfold np_random_seed, bind, log, ext_call in Es. simpl in Es.
  injection Es as <-.
  apply bind_Ok_inv in E as ([[[xt yt] X] Y] & st2 & Eg & E).
  apply generate_data_Ok in Eg as (g & st_d & x1 & Hg & _ & _ & ->).
  destruct (generation_lookups _ _ _ _ _ _ _ _ _ Hg) as (HXl & HYl & _ & _).
  pose proof Hg as (Hlen & _ & HX & HlenY & _ & Hn & _ & _ & _ & Hr & _ & Ho & _).
  apply Forall2_length in HX. apply noised_length in Hn.
  assert (length (X_arrays g) = length X ∧ length (Y_arrays g) = length Y)
    as [HlX HlY].
  { injection Hr as _ _ -> ->. rewrite !length_seq. split; congruence. }
  assert (∀ c n_iter st m st',
            heap st = heap st_d →
            new_model c X Y n_iter st = (Ok m, st') →
            ∃ out, cls m = c ∧ heap st' = heap st_d
              ∧ stdout st' = stdout st ++ map PLibrary out
              ∧ calls st'
                = calls st ++ [init_call c (X_arrays g) (Y_arrays g) n_iter
                                         (Ok (model_name m, obj m))])
    as Hnew.
  { intros c n_iter s0 m s1 Hh Em.
    apply new_model_Ok in Em
      as (Xa & Ya & nm & h & out & e' & HXa & HYa & _ & -> & ->).
    rewrite Hh in HXa, HYa.
    rewrite (loaded_arrays _ _ _ _ HXa HlX HXl).
    rewrite (loaded_arrays _ _ _ _ HYa HlY HYl).
    by exists out. }
  apply bind_Ok_inv in E as (m4 & st3 & E4 & E).
  apply Hnew in E4 as (o4 & Hc4 & Hh4 & Ho4 & Hcc4); [|done].
  apply bind_Ok_inv in E as (m1 & st4 & E1 & E).
  apply Hnew in E1 as (o1 & Hc1 & Hh1 & Ho1 & Hcc1); [|done].
  apply bind_Ok_inv in E as (m2 & st5 & E2 & E).
  apply Hnew in E2 as (o2 & Hc2 & Hh2 & Ho2 & Hcc2); [|done].
  apply bind_Ok_inv in E as (m3 & st6 & E3 & E).
  apply Hnew in E3 as (o3 & Hc3 & Hh3 & Ho3 & Hcc3); [|done].
  unfold ret in E. injection E as <- <- <- <-.
  exists g, X, Y, st_d, (model_name m4), m1, m2, m3,
    (set_name m4 "mf_dgp_fix_lf_mean").
  eexists. split; [exact Hg|]. split; [done|].
  split; [simpl; by rewrite Hc1, Hc2, Hc3, Hc4|]. split; [done|].
  split; [done|]. split.
  { rewrite Hcc3, Hcc2, Hcc1, Hcc4. simpl. by rewrite <- !app_assoc. }
  rewrite Ho3, Ho2, Ho1, Ho4. simpl. rewrite Ho. simpl.
  rewrite <- !app_assoc. split; [done|].
  rewrite !filter_app, !filter_table_library. done.
Qed.

Lemma test_function_Ok fcn_tuple seed st run st' :
  test_function fcn_tuple seed st = (Ok run, st') →
  ∃ cs,
    is_run fcn_tuple seed cs run
    ∧ calls st' = calls st ++ cs
    ∧ ∃ out, stdout st' = stdout st ++ out ∧ filter is_table out = [].
Proof.
  unfold test_function. intros E.
  apply bind_Ok_inv in E as ([[models xt] yt] & st1 & Es & E).
  apply test_function_models_Ok in Es
    as (g & X & Y & st_d & nm4 & m1 & m2 & m3 & m4 & out & Hg & -> & Hcls
        & Hname & Hh & Hc & Ho & Hf).
  destruct (generation_lookups _ _ _ _ _ _ _ _ _ Hg) as (_ & _ & Hyt & Hxt).
  simpl in E. unfold benchmark_models in E.
  pose proof (benchmark_models_loop_Ok _ _ _ _ _ _ _ E)
    as (_ & _ & _ & out' & Ho' & Hf').
  rewrite <- Hh in Hyt, Hxt.
  destruct (benchmark_models_loop_run _ _ _ _ _ _ _ _ _ E Hxt Hyt)
    as (fs & r2s & Hfs & _ & HF & _ & -> & Hc' & _).
  destruct fs as [|f1 [|f2 [|f3 [|f4 [|]]]]]; try done.
  injection Hfs as <- <- <- <-.
  pose proof Hg as (_ & _ & _ & _ & _ & _ & _ & _ & _ & _ & _ & _ & Hcd).
  eexists. split; [|split].
  - exists g, nm4, f1, f2, f3, f4. simpl.
    split; [eexists _, _, _; exact Hg|]. split; [done|]. split; [done|].
    split; [done|]. split; [done|]. reflexivity.
  - rewrite Hc', Hc, Hcd. simpl. repeat (rewrite <- app_assoc; simpl). done.
  - exists (out ++ out'). rewrite Ho', Ho, <- app_assoc.
    split; [done|]. by rewrite filter_app, Hf, Hf'.
Qed.

(** One iteration of the loop of do_benchmark that completes. *)
Lemma do_benchmark_iter_Ok fcn_tuple metrics i seed st metrics' st' :
  do_benchmark_iter fcn_tuple metrics (i, seed) st = (Ok metrics', st') →
  ∃ run cs out t,
    metrics' = dict_set (run_name fcn_tuple seed) run metrics
    ∧ is_run fcn_tuple seed cs run
    ∧ calls st' = calls st ++ cs
    ∧ stdout st' = stdout st ++ out
                   ++ [PLine (after_line fcn_tuple (i + 1)); PTable t]
    ∧ filter is_table out = []
    ∧ metrics_table metrics' = Ok t.
Proof.
  unfold do_benchmark_iter. simpl. intros E.
  apply bind_Ok_inv in E as (run & st1 & Er & E).
  apply test_function_Ok in Er as (cs & Hrun & Hc & out & Ho & Hf).
  mstep E as u El.
  apply bind_Ok_inv in E as ([] & st2 & Ep & E).
  apply print_metrics_Ok in Ep as (t & Ht & ->).
  mprim E. exists run, cs, out, t. simpl.
  split; [done|]. split; [done|]. split; [done|].
  rewrite Ho, <- !app_assoc. done.
Qed.

Lemma do_benchmark_loop_Ok fcn_tuple runs acc st d st' :
  for_fold runs (do_benchmark_iter fcn_tuple) acc st = (Ok d, st') →
  ∀ k, k ∈ dict_keys d →
       k ∈ dict_keys acc ∨ k ∈ map (λ js, run_name fcn_tuple js.2) runs.
Proof.
  revert acc st. induction runs as [|[i seed] runs IH]; intros acc st; simpl.
  - intros [= <- <-]. tauto.
  - intros E. apply bind_Ok_inv in E as (acc' & st1 & Ei & E).
    apply do_benchmark_iter_Ok in Ei as (run & cs & out & t & -> & _).
    intros k Hin. apply (IH _ _ E) in Hin as [Hin|Hin]; [|right; by right].
    apply dict_keys_set_elem in Hin as [->|Hin]; [right; left | by left].
Qed.

(** C8: no handler stands between a model and the caller of do_benchmark.
    If the runs of the seeds before [iseed] have completed, the run of
    [iseed] has built its models, the models before [m] have completed with
    [d] as the metrics dictionary, and [m.optimize()] or [m.predict(x_test)]
    raises [e], then do_benchmark ends there with [e]: after the state [st3]
    in which [m] had its turn, no array is allocated and the notebook prints
    nothing (what the failing call itself wrote is all that reaches stdout),
    [d] holds entries of models before [m] only, and [metrics] holds entries
    of earlier runs only. *)
Theorem model_failure_propagates
    fcn_tuple runs_done iseed runs_left metrics st st1
    models_done m models_left x_test y_test st2 d st3 e st4 :
  enumerate [123; 184; 202; 289; 732]%Z = runs_done ++ iseed :: runs_left →
  for_fold runs_done (do_benchmark_iter fcn_tuple) [] st = (Ok metrics, st1) →
  test_function_models fcn_tuple iseed.2 st1
  = (Ok (models_done ++ m :: models_left, x_test, y_test), st2) →
  benchmark_models models_done x_test y_test st2 = (Ok d, st3) →
  (optimize m st3 = (Raise e, st4)
   ∨ ∃ st', optimize m st3 = (Ok tt, st')
            ∧ predict m x_test st' = (Raise e, st4)) →
  do_benchmark fcn_tuple st = (Raise e, st4)
  ∧ heap st4 = heap st3
  ∧ (∃ out, stdout st4 = stdout st3 ++ map PLibrary out)
  ∧ (∀ k, k ∈ dict_keys d → k ∈ map model_name models_done)
  ∧ (∀ k, k ∈ dict_keys metrics →
          k ∈ map (λ js, run_name fcn_tuple js.2) runs_done).
Proof.
  intros Hseeds Hruns Hsetup Hdone Hfail.
  assert (benchmark_models_iter x_test y_test d m st3 = (Raise e, st4)
          ∧ heap st4 = heap st3
          ∧ ∃ out, stdout st4 = stdout st3 ++ map PLibrary out)
    as (Hiter & Hh & Ho).
  { unfold benchmark_models_iter.
    destruct (optimize_run m st3) as (r & oo & e1 & _ & Eo).
    destruct Hfail as [Hopt|(st' & Hopt & Hpred)].
    - rewrite (bind_Raise _ _ _ _ _ Hopt).
      rewrite Eo in Hopt. injection Hopt as _ <-. simpl. eauto.
    - rewrite (bind_Ok _ _ _ _ _ Hopt), (bind_Raise _ _ _ _ _ Hpred).
      apply predict_Raise_state in Hpred as [-> [po ->]].
      rewrite Eo in Hopt. injection Hopt as _ <-. simpl.
      split; [done|]. split; [done|]. exists (oo ++ po).
      by rewrite map_app, app_assoc. }
  split; [|split; [done|split; [done|split]]].
  - unfold do_benchmark. rewrite Hseeds, for_fold_app.
    rewrite (bind_Ok _ _ _ _ _ Hruns). simpl.
    apply bind_Raise. unfold do_benchmark_iter. apply bind_Raise.
    unfold test_function. rewrite (bind_Ok _ _ _ _ _ Hsetup). simpl.
    unfold benchmark_models in *. rewrite for_fold_app.
    rewrite (bind_Ok _ _ _ _ _ Hdone). simpl.
    by apply bind_Raise.
  - intros k Hk. apply benchmark_models_loop_Ok in Hdone as (Hkeys & _).
    apply Hkeys in Hk as [Hk|Hk]; [|done]. by apply elem_of_nil in Hk.
  - intros k Hk. apply (do_benchmark_loop_Ok _ _ _ _ _ _ Hruns) in Hk as [Hk|Hk];
      [|done].
    by apply elem_of_nil in Hk.
Qed.


End Benchmark.

(** * Further properties *)

(** ** Zero noise *)

(** Adding a zero noise term to a non-zero scale is exact: [sd * z] is a
    zero for a zero [sd] and a finite draw [z], and adding a zero to a float
    other than zero gives the float back. *)
Section ZeroNoise.

Lemma is_zero_SF x :
  PrimFloat.is_zero x = true → ∃ s, Prim2SF x = S754_zero s.
Proof.
  unfold PrimFloat.is_zero. rewrite FloatAxioms.eqb_spec.
  replace (Prim2SF zero) with (S754_zero false) by (vm_compute; reflexivity).
  destruct (Prim2SF x) as [s|s| |s m e]; [eauto|..];
    try destruct s; discriminate.
Qed.

Lemma not_is_zero_SF x s :
  PrimFloat.is_zero x = false → Prim2SF x ≠ S754_zero s.
Proof.
  unfold PrimFloat.is_zero. rewrite FloatAxioms.eqb_spec.
  replace (Prim2SF zero) with (S754_zero false) by (vm_compute; reflexivity).
  intros E Hx. rewrite Hx in E. discriminate.
Qed.

Lemma is_finite_SF z :
  PrimFloat.is_finite z = true →
  (∃ s, Prim2SF z = S754_zero s) ∨ ∃ s m e, Prim2SF z = S754_finite s m e.
Proof.
  unfold PrimFloat.is_finite, PrimFloat.is_nan, PrimFloat.is_infinity.
  rewrite !FloatAxioms.eqb_spec, abs_spec.
  replace (Prim2SF infinity) with (S754_infinity false)
    by (vm_compute; reflexivity).
  destruct (Prim2SF z) as [s|s| |s m e]; [eauto| | |eauto 6];
    try destruct s; discriminate.
Qed.

Lemma float_add_zero_noise y sd z :
  PrimFloat.is_zero sd = true → PrimFloat.is_zero y = false →
  PrimFloat.is_finite z = true →
  PrimFloat.add y (PrimFloat.mul sd z) = y.
Proof.
  intros Hsd Hy Hz. apply Prim2SF_inj. rewrite add_spec, mul_spec.
  destruct (is_zero_SF _ Hsd) as [s ->].
  pose proof (λ s, not_is_zero_SF y s Hy) as Hy0.
  destruct (is_finite_SF _ Hz) as [[s' ->]|(s' & m & e & ->)];
    unfold SF64mul, SFmul, SF64add, SFadd;
    destruct (Prim2SF y) as [sy|sy| |sy my ey]; try reflexivity;
    by destruct (Hy0 sy).
Qed.

End ZeroNoise.

(** ** More on generate_data *)

Section GenerateDataMore.
Context `{Libraries}.

Lemma new_calls_app st st' cs :
  calls st' = calls st ++ cs → new_calls st st' = cs.
Proof. unfold new_calls. intros ->. by rewrite drop_app_length. Qed.

Lemma finite_draws_elem cs n zs :
  finite_draws cs = true → randn_call n (column zs) ∈ cs →
  Forall (λ z, PrimFloat.is_finite z = true) zs.
Proof.
  unfold finite_draws. rewrite forallb_forall. intros Hcs Hin.
  apply list_elem_of_In, Hcs in Hin. unfold finite_array, column in Hin.
  simpl in Hin. rewrite forallb_forall in Hin.
  apply Forall_forall. intros z Hz.
  specialize (Hin [z]). simpl in Hin. rewrite andb_true_r in Hin.
  apply Hin, in_map_iff. exists z. split; [done|]. by apply list_elem_of_In.
Qed.

(** Dividing by [y_scale + sd * z] with a zero [sd] and finite draws is
    dividing by [y_scale]. *)
Lemma zip_with_zero_noise y_scale sd (rs : list (list float)) zs :
  PrimFloat.is_zero sd = true → PrimFloat.is_zero y_scale = false →
  Forall (λ z, PrimFloat.is_finite z = true) zs →
  length zs = length rs →
  zip_with (λ r z, map (λ v, PrimFloat.div v
                          (PrimFloat.add y_scale (PrimFloat.mul sd z))) r)
           rs zs
  = map (map (λ v, PrimFloat.div v y_scale)) rs.
Proof.
  intros Hsd Hy Hzs. revert rs.
  induction Hzs as [|z zs Hz Hzs IH]; intros [|r rs] Hl; simpl in *; try done.
  rewrite IH by lia. by rewrite float_add_zero_noise.
Qed.

Lemma map_div_1 (rs : list (list float)) :
  map (map (λ v, PrimFloat.div v 1)) rs = rs.
Proof.
  induction rs as [|r rs IH]; simpl; [done|]. rewrite IH. f_equal.
  induction r as [|x r IHr]; simpl; [done|]. by rewrite float_div_1_r, IHr.
Qed.

Lemma inplace_op_shape f a b a' :
  inplace_op f a b = Ok a' → shape a' = shape a.
Proof.
  unfold inplace_op. destruct (broadcast_op f a b) as [r|]; simpl; [|done].
  destruct (decide _) as [Hs|]; [|done]. by intros [= <-].
Qed.

(** X1: an entry of [Y] beyond the noise levels ([zip] stops at the shorter
    list) holds the values of its function as they were returned: no
    division by [y_scale], and the run makes as many [randn] calls as there
    are pairs. *)
Theorem outputs_without_noise_level
    fcn_tuple n st x_test y_test X Y st' i y :
  generate_data fcn_tuple n st = (Ok (x_test, y_test, X, Y), st') →
  Y !! i = Some y →
  fcn_tuple.(noise_level) !! i = None →
  (∃ x a f_i arg s,
     X !! i = Some x ∧ heap st' !! x = Some a
     ∧ (fcn_tuple.(fcn) tt).1 !! i = Some f_i
     ∧ broadcast_op PrimFloat.mul a (row_vec s) = Ok arg
     ∧ heap st' !! y = Some (f_i arg))
  ∧ map kind_of (new_calls st st')
    = [KFcn; KDesign] ++ map KSamples fcn_tuple.(num_data)
      ++ replicate (length fcn_tuple.(noise_level)) KRandn ++ [KSamples n].
Proof.
  intros E Hy Hsd.
  pose proof (generate_data_footprint _ _ _ _ _ E) as [(cs & Hcs & Hk) _].
  apply generate_data_Ok in E as (g & st1 & x1 & Hg & _ & _ & ->).
  destruct (generation_lookups _ _ _ _ _ _ _ _ _ Hg) as (HXl & HYl & _ & _).
  destruct (HYl _ _ Hy) as (y' & Hy' & Hhy).
  destruct Hg as (Hlen & _ & HX & HlenY & Hev & Hn & _ & _ & _ & Hr & _).
  injection Hr as _ _ -> ->.
  pose proof (Forall2_length _ _ _ HX) as HlenX.
  pose proof (noised_length _ _ _ _ _ Hn) as HlenYs.
  apply lookup_seq in Hy as [-> Hi].
  destruct (lookup_lt_is_Some_2 (X_arrays g) i) as [a Ha]; [lia|].
  destruct (Hev _ _ Ha) as (f_i & arg & Hf & Harg & Hraw).
  rewrite (noised_lookup_None _ _ _ _ _ _ Hn Hsd), Hraw in Hy'.
  injection Hy' as <-.
  split.
  - exists (length (heap st) + i), a, f_i, arg, (scalings g).
    split; [by apply lookup_seq|].
    split; [|done].
    destruct (HXl i (length (heap st) + i)) as (a' & Ha' & Hh');
      [by apply lookup_seq|].
    rewrite Ha in Ha'. injection Ha' as <-. exact Hh'.
  - rewrite (new_calls_app _ _ _ Hcs), Hk.
    apply lookup_ge_None in Hsd. by rewrite Nat.min_r by lia.
Qed.

(** What a run holds for fidelity level [i]. *)
Lemma generation_level fcn_tuple n st x_test y_test X Y st1 g i y :
  generation fcn_tuple n st (x_test, y_test, X, Y) st1 g →
  Y !! i = Some y →
  ∃ x raw a f_i arg y',
    X !! i = Some x
    ∧ raw_samples g !! i = Some raw
    ∧ inplace_op PrimFloat.div raw (row_vec (scalings g)) = Ok a
    ∧ heap st1 !! x = Some a
    ∧ (fcn_tuple.(fcn) tt).1 !! i = Some f_i
    ∧ broadcast_op PrimFloat.mul a (row_vec (scalings g)) = Ok arg
    ∧ Y_raw g !! i = Some (f_i arg)
    ∧ Y_arrays g !! i = Some y'
    ∧ heap st1 !! y = Some y'.
Proof.
  intros Hg Hy.
  destruct (generation_lookups _ _ _ _ _ _ _ _ _ Hg) as (HXl & HYl & _ & _).
  destruct (HYl _ _ Hy) as (y' & Hy' & Hhy).
  destruct Hg as (Hlen & _ & HX & HlenY & Hev & Hn & _ & _ & _ & Hr & _).
  injection Hr as _ _ -> ->.
  pose proof (Forall2_length _ _ _ HX) as HlenX.
  apply lookup_seq in Hy as [-> Hi].
  destruct (HXl i (length (heap st) + i)) as (a & Ha & Hha);
    [by apply lookup_seq|].
  destruct (Forall2_lookup_r _ _ _ _ _ HX Ha) as (raw & Hraw & Hdiv).
  destruct (Hev _ _ Ha) as (f_i & arg & Hf & Harg & Hyraw).
  exists (length (heap st) + i), raw, a, f_i, arg, y'.
  repeat split; try done. by apply lookup_seq.
Qed.

(** X2: with a zero noise level the noise term vanishes from the divisor:
    if the draws are finite and [y_scale] is not zero, the entries of [Y[i]]
    are the function values divided by [y_scale], and the function values
    themselves when [y_scale] is 1. *)
Theorem zero_noise_divides_by_y_scale
    fcn_tuple n st x_test y_test X Y st' i y sd :
  generate_data fcn_tuple n st = (Ok (x_test, y_test, X, Y), st') →
  Y !! i = Some y →
  fcn_tuple.(noise_level) !! i = Some sd →
  PrimFloat.is_zero sd = true →
  PrimFloat.is_zero fcn_tuple.(y_scale) = false →
  finite_draws (new_calls st st') = true →
  ∃ x a s f_i arg y',
    X !! i = Some x ∧ heap st' !! x = Some a
    ∧ broadcast_op PrimFloat.mul a (row_vec s) = Ok arg
    ∧ (fcn_tuple.(fcn) tt).1 !! i = Some f_i
    ∧ heap st' !! y = Some y'
    ∧ (well_shaped (f_i arg) →
       rows y' = map (map (λ v, PrimFloat.div v fcn_tuple.(y_scale)))
                     (rows (f_i arg))
       ∧ (fcn_tuple.(y_scale) = 1%float → y' = f_i arg)).
Proof.
  intros E Hy Hsd Hsd0 Hys Hfin.
  apply generate_data_Ok in E as (g & st1 & x1 & Hg & _ & _ & ->).
  destruct (generation_level _ _ _ _ _ _ _ _ _ _ _ Hg Hy)
    as (x & raw & a & f_i & arg & y' & Hx & _ & _ & Hhx & Hf & Harg & Hyraw
        & Hy' & Hhy).
  destruct Hg as (_ & _ & _ & _ & _ & Hn & _ & _ & _ & _ & _ & _ & Hc).
  destruct (noised_lookup _ _ _ _ _ _ _ _ Hn Hyraw Hsd)
    as (zs & y'' & Hzs & Hcs & Hdiv & Hy'').
  rewrite Hy' in Hy''. injection Hy'' as <-.
  exists x, a, (scalings g), f_i, arg, y'. do 5 (split; [done|]).
  intros Hw.
  rewrite noise_divisor_column in Hdiv.
  rewrite inplace_op_column in Hdiv by (by rewrite ?length_map).
  rewrite zip_with_fmap_r in Hdiv.
  rewrite zip_with_zero_noise in Hdiv; try done.
  - injection Hdiv as <-. simpl. split; [done|].
    intros ->. rewrite map_div_1. by destruct (f_i arg).
  - rewrite (new_calls_app st (add_stdout [PShape (shape x1)] st1) _ Hc)
      in Hfin.
    eapply finite_draws_elem; [exact Hfin|].
    apply list_elem_of_lookup_2 in Hcs. rewrite !elem_of_app. eauto.
Qed.

(** X3: for a descriptor without input scaling, with unit output scale and
    zero noise levels, finite draws and well-shaped arrays, generate_data
    hands the samples and the function values through unchanged: [X[i]] is
    the sample, [Y[i]] its image under [fcn.f[i]], and the test targets are
    the image of the test sample under the last function. *)
Theorem plain_descriptor_data fcn_tuple n st x_test y_test X Y st' :
  generate_data fcn_tuple n st = (Ok (x_test, y_test, X, Y), st') →
  plain fcn_tuple →
  well_shaped_outputs fcn_tuple →
  finite_draws (new_calls st st') = true →
  ∃ raws raw_t,
    sampled fcn_tuple n st st' raws raw_t
    ∧ (∀ i x y, X !! i = Some x → Y !! i = Some y →
         ∃ raw f_i,
           raws !! i = Some raw
           ∧ (fcn_tuple.(fcn) tt).1 !! i = Some f_i
           ∧ (well_shaped raw →
              heap st' !! x = Some raw ∧ heap st' !! y = Some (f_i raw)))
    ∧ ∃ f_last,
        last (fcn_tuple.(fcn) tt).1 = Some f_last
        ∧ (well_shaped raw_t → heap st' !! y_test = Some (f_last raw_t)).
Proof.
  intros E (Hdx & Hys & Hnl) Hout Hfin.
  apply generate_data_Ok in E as (g & st1 & x1 & Hg & _ & _ & ->).
  pose proof (generation_sampled _ _ _ _ _ _ [PShape (shape x1)] Hg) as Hs.
  destruct (generation_lookups _ _ _ _ _ _ _ _ _ Hg) as (_ & _ & Hyt & _).
  exists (raw_samples g), (raw_test g). split; [done|]. split.
  - intros i x y Hx Hy.
    destruct (generation_level _ _ _ _ _ _ _ _ _ _ _ Hg Hy)
      as (x' & raw & a & f_i & arg & y' & Hx' & Hraw & Hdiv & Hhx & Hf & Harg
          & Hyraw & Hy' & Hhy).
    rewrite Hx in Hx'. injection Hx' as <-.
    exists raw, f_i. do 2 (split; [done|]). intros Hw.
    destruct Hg as (Hlen & (raw0 & _ & Hsc) & _ & HlenY & _ & Hn & _ & _ & _
                    & _ & _ & _ & Hc).
    rewrite Hsc, Hdx in Hdiv, Harg.
    apply (inplace_op_ones _ _ _ _ float_div_1_r Hw) in Hdiv as [-> Hd].
    rewrite (broadcast_op_ones _ _ _ float_mul_1_r Hw Hd) in Harg.
    injection Harg as <-. split; [done|].
    assert (noise_level fcn_tuple !! i = Some 0%float) as Hsd.
    { rewrite Hnl. apply lookup_replicate_2.
      apply lookup_lt_Some in Hyraw. lia. }
    destruct (noised_lookup _ _ _ _ _ _ _ _ Hn Hyraw Hsd)
      as (zs & y'' & Hzs & Hcs & Hdiv & Hy'').
    rewrite Hy' in Hy''. injection Hy'' as <-.
    assert (well_shaped (f_i raw)) as Hwf.
    { apply Hout; [by eapply list_elem_of_lookup_2 | done]. }
    rewrite noise_divisor_column in Hdiv.
    rewrite inplace_op_column in Hdiv by (by rewrite ?length_map).
    rewrite zip_with_fmap_r in Hdiv.
    rewrite zip_with_zero_noise in Hdiv; try done.
    + rewrite Hys, map_div_1 in Hdiv. injection Hdiv as <-.
      simpl. rewrite Hhy. by destruct (f_i raw).
    + by rewrite Hys.
    + rewrite (new_calls_app st (add_stdout [PShape (shape x1)] st1) _ Hc)
      in Hfin.
      eapply finite_draws_elem; [exact Hfin|].
      apply list_elem_of_lookup_2 in Hcs. rewrite !elem_of_app. eauto.
  - destruct Hg as (_ & (raw0 & _ & Hsc) & _ & _ & _ & _ & Hxs
                    & (f_last & arg & Hfl & Harg & Hyv) & _).
    exists f_last. split; [done|]. intros Hw.
    rewrite Hsc, Hdx in Hxs, Harg.
    apply (inplace_op_ones _ _ _ _ float_div_1_r Hw) in Hxs as [Heq Hd].
    rewrite Heq in Harg.
    rewrite (broadcast_op_ones _ _ _ float_mul_1_r Hw Hd) in Harg.
    injection Harg as <-.
    assert (well_shaped (f_last (raw_test g))) as Hwf.
    { apply Hout; [|done]. apply last_Some in Hfl as [l ->].
      rewrite elem_of_app, list_elem_of_singleton. by right. }
    rewrite inplace_op_scalar, Hys, map_div_1 in Hyv by done.
    injection Hyv as Hyv. simpl. rewrite Hyt, <- Hyv.
    by destruct (f_last (raw_test g)).
Qed.

(** X5: the one thing generate_data prints is the shape of [X[1]], and
    this is the shape of the second sample set as [get_samples] returned
    it: the division by the scaling vector does not change shapes. *)
Theorem generate_data_prints_second_shape
    fcn_tuple n st x_test y_test X Y st' :
  generate_data fcn_tuple n st = (Ok (x_test, y_test, X, Y), st') →
  ∃ raws raw_t raw1 x1 a1,
    sampled fcn_tuple n st st' raws raw_t
    ∧ raws !! 1 = Some raw1
    ∧ X !! 1 = Some x1
    ∧ heap st' !! x1 = Some a1
    ∧ shape a1 = shape raw1
    ∧ stdout st' = stdout st ++ [PShape (shape raw1)].
Proof.
  intros E.
  apply generate_data_Ok in E as (g & st1 & a1 & Hg & _ & Ha1 & ->).
  pose proof (generation_sampled _ _ _ _ _ _ [PShape (shape a1)] Hg) as Hs.
  destruct (generation_lookups _ _ _ _ _ _ _ _ _ Hg) as (HXl & _).
  destruct Hg as (Hlen & _ & HX & _ & _ & _ & _ & _ & _ & Hr & _ & Ho & _).
  injection Hr as _ _ -> _.
  destruct (Forall2_lookup_r _ _ _ _ _ HX Ha1) as (raw1 & Hraw1 & Hdiv).
  apply inplace_op_shape in Hdiv.
  apply lookup_lt_Some in Ha1 as Hk.
  apply Forall2_length in HX.
  destruct (HXl 1 (length (heap st) + 1)) as (a' & Ha' & Hh);
    [apply lookup_seq; lia|].
  rewrite Ha1 in Ha'. injection Ha' as <-.
  exists (raw_samples g), (raw_test g), raw1, (length (heap st) + 1), a1.
  split; [done|]. split; [done|].
  split; [apply lookup_seq; lia|].
  split; [done|]. split; [done|].
  simpl. by rewrite Ho, Hdiv.
Qed.

(** X6: when [fcn.f] has one function per entry of [num_data], the
    fidelity index written into the last column of the test inputs is the
    index of the function that produced the test targets. *)
Theorem test_targets_match_fidelity_column
    fcn_tuple n st x_test y_test X Y st' :
  generate_data fcn_tuple n st = (Ok (x_test, y_test, X, Y), st') →
  length (fcn_tuple.(fcn) tt).1 = length fcn_tuple.(num_data) →
  let top := length fcn_tuple.(num_data) - 1 in
  ∃ f s xs arg y a,
    (fcn_tuple.(fcn) tt).1 !! top = Some f
    ∧ broadcast_op PrimFloat.mul xs (row_vec s) = Ok arg
    ∧ inplace_op PrimFloat.div (f arg) (scalar_arr fcn_tuple.(y_scale)) = Ok y
    ∧ heap st' !! y_test = Some y
    ∧ heap st' !! x_test = Some a
    ∧ rows a = map (λ r, r ++ [float_of_nat top]) (rows xs).
Proof.
  intros E Hf top.
  apply generate_data_Ok in E as (g & st1 & x1 & Hg & _ & _ & ->).
  destruct (generation_lookups _ _ _ _ _ _ _ _ _ Hg) as (_ & _ & Hyt & Hxt).
  destruct Hg as (_ & _ & _ & _ & _ & _ & _ & (f_last & arg & Hfl & Harg & Hyv)
                  & Hc & _).
  exists f_last, (scalings g), (x_test_scaled g), arg, (y_test_array g),
    (x_test_array g).
  split.
  { rewrite last_lookup, Hf in Hfl. subst top.
    by replace (length (num_data fcn_tuple) - 1)
      with (pred (length (num_data fcn_tuple))) by lia. }
  do 4 (split; [done|]).
  unfold np_concatenate_axis1 in Hc.
  destruct (decide _) as [Hn|]; [|done]. injection Hc as <-. simpl.
  unfold nrows. fold top. generalize (float_of_nat top). intros c. clear.
  induction (rows (x_test_scaled g)) as [|r l IH]; simpl; [done|].
  by rewrite float_mul_1_r, IH.
Qed.

End GenerateDataMore.

(** ** When generate_data returns, and when an index is out of range *)

Section GenerateDataBounds.
Context `{Libraries}.

Local Notation "x <- c ;; k" := (bind c (fun x => k))
  (at level 100, c at next level, right associativity).

(** X7: with at least two fidelity levels, a function per level and
    packages that keep their promises about shapes, generate_data returns
    its four results, with one array of [X] and one of [Y] per level. *)
Theorem generate_data_returns fcn_tuple n st :
  shape_contract (fcn_tuple.(fcn) tt).2 →
  2 ≤ length fcn_tuple.(num_data) ≤ length (fcn_tuple.(fcn) tt).1 →
  ∃ x_test y_test X Y st',
    generate_data fcn_tuple n st = (Ok (x_test, y_test, X, Y), st')
    ∧ length X = length fcn_tuple.(num_data)
    ∧ length Y = length fcn_tuple.(num_data).
Proof.
  intros Hs Hk.
  destruct (generate_data_total fcn_tuple n st Hs Hk)
    as ([[[x_test y_test] X] Y] & st' & E).
  exists x_test, y_test, X, Y, st'. split; [done|].
  apply generate_data_Ok in E as (g & st1 & x1 & Hg & _).
  destruct Hg as (_ & _ & _ & _ & _ & _ & _ & _ & _ & Hr & _).
  injection Hr as _ _ -> ->. by rewrite !length_seq.
Qed.


End GenerateDataBounds.

(** ** When print_metrics prints *)

Section PrintMetricsMore.
Context `{Libraries}.

Lemma omap_list_total {A B} (f : A → outcome B) l :
  (∀ x, x ∈ l → ∃ y, f x = Ok y) → ∃ ys, omap_list f l = Ok ys.
Proof.
  induction l as [|x l IH]; intros Hf; simpl; [by eexists|].
  destruct (Hf x) as [y ->]; [left|]. simpl.
  destruct IH as [ys ->]; [intros x' Hx'; apply Hf; by right|].
  simpl. by eexists.
Qed.

Lemma omap_list_Raise {A B} (f : A → outcome B) l e0 e :
  (∀ x e', x ∈ l → f x = Raise e' → e' = e0) →
  omap_list f l = Raise e → e = e0.
Proof.
  induction l as [|x l IH]; intros Hf; simpl; [done|].
  destruct (f x) as [y|e'] eqn:Ex; simpl.
  - destruct (omap_list f l) as [ys|e'] eqn:El; simpl; [done|].
    intros [= <-]. apply IH; [|done]. intros x' e'' Hx'. apply Hf. by right.
  - intros [= <-]. eapply Hf; [left|done].
Qed.

Lemma dict_items_Raise (run : dict (dict float)) name metric_name e :
  (e' <~ dict_item run name ;; dict_item e' metric_name) = Raise e →
  e = KeyError.
Proof.
  unfold dict_item. destruct (dict_get name run) as [e'|]; simpl.
  - destruct (dict_get metric_name e'); by intros [= <-].
  - by intros [= <-].
Qed.

Lemma has_metrics_items name run metric_name :
  has_metrics name run = true → metric_name ∈ ["r2"; "mnll"; "rmse"] →
  ∃ v, (e <~ dict_item run name ;; dict_item e metric_name) = Ok v.
Proof.
  unfold has_metrics, dict_item.
  destruct (dict_get name run) as [e|]; [|done].
  intros He Hm. rewrite forallb_forall in He.
  apply list_elem_of_In, He, bool_decide_eq_true in Hm as [v Hv].
  simpl. rewrite Hv. eauto.
Qed.

Lemma metrics_table_printable metrics :
  printable metrics = true → ∃ t, metrics_table metrics = Ok t.
Proof.
  unfold printable, metrics_table.
  destruct (dict_values metrics) as [|first rest] eqn:Ev; [done|].
  intros Hp. rewrite forallb_forall in Hp.
  change (getitem (first :: rest) 0) with (Ok first). cbn [obind].
  match goal with |- ∃ t, (table_rows <~ ?c ;; _) = _ =>
    assert (∃ trows, c = Ok trows) as [trows ->]; [|by eexists] end.
  apply omap_list_total. intros name Hname.
  apply list_elem_of_In, Hp in Hname. rewrite forallb_forall in Hname.
  match goal with |- ∃ y, (mean <~ ?c ;; _) = _ =>
    assert (∃ mean, c = Ok mean) as [mean ->]; [|by eexists] end.
  apply omap_list_total. intros metric_name Hm.
  unfold metric_values. rewrite Ev.
  match goal with |- ∃ y, (vals <~ ?c ;; _) = _ =>
    assert (∃ vals, c = Ok vals) as [vals ->]; [|by eexists] end.
  apply omap_list_total. intros run Hrun.
  apply has_metrics_items; [|done]. by apply Hname, list_elem_of_In.
Qed.

Lemma metrics_table_Raise metrics e :
  metrics ≠ [] → metrics_table metrics = Raise e → e = KeyError.
Proof.
  unfold metrics_table. intros Hne.
  destruct metrics as [|[k first] rest]; [done|].
  change (getitem (dict_values ((k, first) :: rest)) 0) with (Ok first).
  cbn [obind].
  match goal with |- (table_rows <~ ?c ;; _) = _ → _ =>
    destruct c as [trows|e'] eqn:Er end; cbn [obind]; [done|].
  intros [= <-]. eapply omap_list_Raise; [|exact Er].
  intros name e1 _. cbn beta.
  match goal with |- (mean <~ ?c ;; _) = _ → _ =>
    destruct c as [mean|e2] eqn:Em end; cbn [obind]; [done|].
  intros [= <-]. eapply omap_list_Raise; [|exact Em].
  intros metric_name e3 _. cbn beta.
  destruct (metric_values _ name metric_name) as [vals|e4] eqn:Ev;
    cbn [obind]; [done|].
  intros [= <-]. unfold metric_values in Ev.
  eapply omap_list_Raise; [|exact Ev].
  intros run e5 _. apply dict_items_Raise.
Qed.

Lemma run_values_has_metric metrics name metric_name vals run :
  run_values metrics name metric_name vals → run ∈ dict_values metrics →
  ∃ e, dict_get name run = Some e ∧ is_Some (dict_get metric_name e).
Proof.
  unfold run_values, dict_values. intros Hv Hrun.
  apply list_elem_of_fmap in Hrun as ([k run'] & -> & Hin).
  apply list_elem_of_lookup in Hin as [j Hj].
  destruct (Forall2_lookup_l _ _ _ j _ Hv Hj) as (v & _ & e & He & Hm).
  exists e. split; [done|]. by exists v.
Qed.

Lemma metrics_table_Ok_printable metrics t :
  metrics_table metrics = Ok t → printable metrics = true.
Proof.
  intros Et.
  destruct (metrics_table_Ok _ _ Et) as (first & Hf & _ & Hk & Hrows).
  unfold printable.
  destruct (dict_values metrics) as [|first' rest] eqn:Ev; [done|].
  injection Hf as ->. rewrite <- Ev.
  apply forallb_forall. intros name Hname. apply forallb_forall.
  intros run Hrun. apply list_elem_of_In in Hname, Hrun.
  rewrite <- Hk in Hname.
  apply list_elem_of_fmap in Hname as ([name' means] & -> & Hin).
  destruct (Hrows _ _ Hin) as (r2s & mnlls & rmses & _ & H1 & H2 & H3).
  simpl. unfold has_metrics.
  destruct (run_values_has_metric _ _ _ _ _ H1 Hrun) as (e & He & Hr2).
  destruct (run_values_has_metric _ _ _ _ _ H2 Hrun) as (e2 & He2 & Hmnll).
  destruct (run_values_has_metric _ _ _ _ _ H3 Hrun) as (e3 & He3 & Hrmse).
  rewrite He in He2, He3 |- *. injection He2 as <-. injection He3 as <-.
  simpl. by rewrite !bool_decide_true.
Qed.

(** X9: how print_metrics fails.  On an empty dictionary, [[0]] of line 99
    raises IndexError; on a dictionary in which some run lacks a model of
    the first run, or one of its three metrics, the lookup of line 106
    raises KeyError.  In both cases nothing is printed. *)
Theorem print_metrics_errors metrics st :
  (metrics = [] → print_metrics metrics st = (Raise IndexError, st))
  ∧ (metrics ≠ [] → printable metrics = false →
     print_metrics metrics st = (Raise KeyError, st)).
Proof.
  split.
  - by intros ->.
  - intros Hne Hp. unfold print_metrics, bind, lift.
    destruct (metrics_table metrics) as [t|e] eqn:Et.
    + apply metrics_table_Ok_printable in Et. congruence.
    + by rewrite (metrics_table_Raise _ _ Hne Et).
Qed.

(** X10: print_metrics prints its table, and does nothing else, exactly
    when every run of the dictionary holds the three metrics of every model
    of the first run; the table then has one row per model of the first
    run. *)
Theorem print_metrics_succeeds metrics st :
  printable metrics = true →
  ∃ t first,
    print_metrics metrics st = (Ok tt, add_stdout [PTable t] st)
    ∧ dict_values metrics !! 0 = Some first
    ∧ map fst (table_rows t) = dict_keys first.
Proof.
  intros Hp. destruct (metrics_table_printable _ Hp) as [t Et].
  destruct (metrics_table_Ok _ _ Et) as (first & Hf & _ & Hk & _).
  exists t, first. split; [|done].
  unfold print_metrics, bind, lift, print. by rewrite Et.
Qed.

End PrintMetricsMore.

(** ** The dictionary and the lines of benchmark_models *)

Section BenchmarkModelsMore.
Context `{Libraries}.

Lemma dict_keys_set {V} k (v : V) d :
  dict_keys (dict_set k v d)
  = if decide (k ∈ dict_keys d) then dict_keys d else dict_keys d ++ [k].
Proof.
  unfold dict_keys. induction d as [|[k' v'] d IH]; simpl.
  - done.
  - destruct (String.eqb k' k) eqn:E; simpl.
    + apply String.eqb_eq in E. subst.
      clear IH. rewrite decide_True; [done | apply list_elem_of_here].
    + apply String.eqb_neq in E. rewrite IH.
      destruct (decide (k ∈ map fst d)) as [Hin|Hin].
      * rewrite decide_True; [done | by apply list_elem_of_further].
      * rewrite decide_False; [done|].
        rewrite not_elem_of_cons. split; congruence.
Qed.

Lemma dict_keys_set_NoDup {V} k (v : V) d :
  NoDup (dict_keys d) → NoDup (dict_keys (dict_set k v d)).
Proof.
  intros Hd. rewrite dict_keys_set. case_decide; [done|].
  apply NoDup_app. split; [done|]. split; [|apply NoDup_singleton].
  intros x Hx Hk. apply list_elem_of_singleton in Hk. by subst.
Qed.

Lemma foldl_dict_set_keys {V} (nes : list (string * V)) acc :
  NoDup (dict_keys acc) →
  NoDup (dict_keys (foldl (λ acc ne, dict_set ne.1 ne.2 acc) acc nes))
  ∧ ∀ k, k ∈ dict_keys (foldl (λ acc ne, dict_set ne.1 ne.2 acc) acc nes)
         ↔ k ∈ dict_keys acc ∨ k ∈ nes.*1.
Proof.
  revert acc. induction nes as [|[n e] nes IH]; intros acc Hacc; simpl.
  - split; [done|]. intros k. rewrite elem_of_nil. tauto.
  - destruct (IH (dict_set n e acc)) as [Hnd Hk];
      [by apply dict_keys_set_NoDup|].
    split; [done|]. intros k. rewrite Hk, dict_keys_set, elem_of_cons.
    case_decide; [|rewrite elem_of_app, list_elem_of_singleton; tauto].
    split; [tauto|]. intros [?|[->|?]]; tauto.
Qed.

Lemma foldl_dict_set_fresh {V} (nes : list (string * V)) acc :
  NoDup (dict_keys acc ++ nes.*1) →
  foldl (λ acc ne, dict_set ne.1 ne.2 acc) acc nes = acc ++ nes.
Proof.
  revert acc. induction nes as [|[n e] nes IH]; intros acc Hnd; simpl.
  - by rewrite app_nil_r.
  - simpl in Hnd. rewrite dict_keys_set_fresh.
    + rewrite IH; [by rewrite <- app_assoc|].
      unfold dict_keys in *. by rewrite fmap_app, <- app_assoc.
    + apply NoDup_app in Hnd as (_ & Hd & _). intros Hin.
      apply (Hd n Hin). left.
Qed.

Lemma entries_keys fs : (entries fs).*1 = map model_name (map f_model fs).
Proof. unfold entries. induction fs as [|f fs IH]; simpl; by f_equal. Qed.

Lemma entries_values fs : (entries fs).*2 = map f_metrics fs.
Proof. unfold entries. induction fs as [|f fs IH]; simpl; by f_equal. Qed.

(** A name looked up after the loop: the entry of the last model with this
    name. *)
Lemma dict_get_entries fs (acc : dict (dict float)) k :
  dict_get k (foldl (λ d kv, dict_set kv.1 kv.2 d) acc (entries fs))
  = match last (filter (λ f, model_name (f_model f) = k) fs) with
    | Some f => Some (f_metrics f)
    | None => dict_get k acc
    end.
Proof.
  revert acc. induction fs as [|f fs IH]; intros acc; simpl; [done|].
  rewrite IH, filter_cons.
  destruct (decide (model_name (f_model f) = k)) as [<-|Hne].
  - destruct (filter _ fs) as [|f' l]; simpl.
    + by rewrite dict_get_set_eq.
    + destruct (last (f' :: l)) eqn:El; [done|]. by apply last_None in El.
  - destruct (last (filter _ fs)); [done|]. by apply dict_get_set_ne.
Qed.

(** X11: when the models have different names, the dictionary that
    benchmark_models returns has one entry per model, in the order of the
    list: the metrics of the test targets against the model's prediction at
    the test inputs.  For every model, in this order, stdout receives what
    its optimize and predict wrote and then the three lines of lines
    142-144, with the r2 value that the dictionary holds for it. *)
Theorem benchmark_models_distinct_names
    models x_test y_test st d st' xt yt :
  benchmark_models models x_test y_test st = (Ok d, st') →
  heap st !! x_test = Some xt →
  heap st !! y_test = Some yt →
  NoDup (map model_name models) →
  dict_keys d = map model_name models
  ∧ ∃ fs r2s,
      map f_model fs = models
      ∧ fit_all (ext st) xt fs (ext st')
      ∧ dict_values d = map f_metrics fs
      ∧ Forall (λ f, metrics_of yt (f_mean f) (f_var f) (f_metrics f)) fs
      ∧ Forall2 (λ f r2, dict_get "r2" (f_metrics f) = Some r2) fs r2s
      ∧ stdout st' = stdout st ++ concat (zip_with fit_lines fs r2s).
Proof.
  unfold benchmark_models. intros E Hxt Hyt Hnd.
  destruct (benchmark_models_loop_run _ _ _ _ _ _ _ _ _ E Hxt Hyt)
    as (fs & r2s & Hfs & Hfits & HF & HF2 & -> & _ & Ho).
  rewrite foldl_dict_set_fresh by (by rewrite entries_keys, Hfs). simpl.
  unfold dict_keys, dict_values. change (map fst ?l) with (l.*1).
  change (map snd ?l) with (l.*2).
  rewrite entries_keys, entries_values, Hfs. split; [done|].
  by exists fs, r2s.
Qed.

(** X12: under names that repeat, the dictionary of benchmark_models keeps
    one entry per name, and the entry under a name is that of the last
    model of this name in the list: the dictionary has as many entries as
    models only if the names are all different. *)
Theorem benchmark_models_one_entry_per_name
    models x_test y_test st d st' xt yt :
  benchmark_models models x_test y_test st = (Ok d, st') →
  heap st !! x_test = Some xt →
  heap st !! y_test = Some yt →
  NoDup (dict_keys d)
  ∧ (∀ k, k ∈ dict_keys d ↔ k ∈ map model_name models)
  ∧ length d ≤ length models
  ∧ (length d = length models → NoDup (map model_name models))
  ∧ ∃ fs,
      map f_model fs = models
      ∧ fit_all (ext st) xt fs (ext st')
      ∧ Forall (λ f, metrics_of yt (f_mean f) (f_var f) (f_metrics f)) fs
      ∧ ∀ k, dict_get k d
             = f_metrics
               <$> last (filter (λ f, model_name (f_model f) = k) fs).
Proof.
  unfold benchmark_models. intros E Hxt Hyt.
  destruct (benchmark_models_loop_run _ _ _ _ _ _ _ _ _ E Hxt Hyt)
    as (fs & r2s & Hfs & Hfits & HF & _ & Hd & _ & _).
  destruct (foldl_dict_set_keys (entries fs) [])
    as [Hnd Hkeys]; [apply NoDup_nil_2|].
  rewrite <- Hd in Hnd, Hkeys.
  assert (∀ k, k ∈ dict_keys d ↔ k ∈ map model_name models) as Hiff.
  { intros k. rewrite Hkeys, entries_keys, Hfs. simpl. rewrite elem_of_nil.
    tauto. }
  assert (dict_keys d ⊆+ map model_name models) as Hsub.
  { apply NoDup_submseteq; [done|]. intros k. apply Hiff. }
  assert (length d = length (dict_keys d)) as Hld
    by (unfold dict_keys; by rewrite length_map).
  split; [done|]. split; [done|]. split; [|split].
  - apply submseteq_length in Hsub. rewrite length_map in Hsub. lia.
  - intros Hl. apply submseteq_length_Permutation in Hsub.
    + by rewrite <- Hsub.
    + rewrite length_map. lia.
  - exists fs. do 3 (split; [done|]). intros k.
    rewrite Hd, dict_get_entries. simpl. by destruct (last _).
Qed.

End BenchmarkModelsMore.

(** ** Seeding, and a descriptor with one fidelity level *)

Section DoBenchmarkMore.
Context `{Libraries}.

Lemma bind_ext {A B} (c : M A) (k : A → M B) st1 st2 :
  c st1 = c st2 → bind c k st1 = bind c k st2.
Proof. unfold bind. by intros ->. Qed.

(** X13: test_function seeds the generator before it does anything else.
    If seeding fixes the state of the packages whatever it was before,
    neither test_function nor do_benchmark depends on that state: what they
    return, print and leave behind is the same from any two states that
    differ in it only. *)
Theorem runs_determined_by_seed fcn_tuple st e1 e2 :
  (∀ seed e e', random_seed seed e = random_seed seed e') →
  (∀ seed, test_function fcn_tuple seed (set_ext e1 st)
           = test_function fcn_tuple seed (set_ext e2 st))
  ∧ do_benchmark fcn_tuple (set_ext e1 st)
    = do_benchmark fcn_tuple (set_ext e2 st).
Proof.
  intros Hseed.
  assert (∀ seed, test_function fcn_tuple seed (set_ext e1 st)
                  = test_function fcn_tuple seed (set_ext e2 st)) as Ht.
  { intros seed. unfold test_function, test_function_models.
    do 2 apply bind_ext.
    unfold np_random_seed, bind, log, ext_call. simpl.
    by rewrite (Hseed seed e1 e2). }
  split; [exact Ht|].
  unfold do_benchmark. simpl. apply bind_ext.
  unfold do_benchmark_iter. apply bind_ext. apply Ht.
Qed.

(** With one fidelity level, line 194 raises once the arrays are built. *)
Lemma generate_data_one_level fcn_tuple n st :
  length fcn_tuple.(num_data) = 1 →
  (∀ r st', generate_data fcn_tuple n st ≠ (Ok r, st'))
  ∧ (shape_contract (fcn_tuple.(fcn) tt).2 →
     (fcn_tuple.(fcn) tt).1 ≠ [] →
     ∃ cs st', generate_data fcn_tuple n st = (Raise IndexError, st')
       ∧ stdout st' = stdout st
       ∧ calls st' = calls st ++ cs
       ∧ map kind_of cs
         = [KFcn; KDesign] ++ map KSamples fcn_tuple.(num_data)
           ++ replicate (length fcn_tuple.(num_data)
                         `min` length fcn_tuple.(noise_level)) KRandn
           ++ [KSamples n]).
Proof.
  intros Hk. split.
  - intros r st' E.
    apply generate_data_Ok in E as (g & st1 & x1 & Hg & _ & Hx1 & _).
    destruct Hg as (Hlen & _ & HX & _).
    apply Forall2_length in HX. apply lookup_lt_Some in Hx1. lia.
  - intros Hshape Hf.
    destruct (generate_data_arrays_total fcn_tuple n st Hshape)
      as (r & st1 & E).
    { rewrite Hk. destruct (fcn fcn_tuple tt).1; [done|simpl; lia]. }
    destruct (generate_data_arrays_Ok _ _ _ _ _ E) as (g & Hg).
    destruct Hg as (Hlen & _ & _ & HlenY & _ & Hn & _ & _ & _ & -> & _ & Ho & Hc).
    eexists _, st1. split; [|split; [done|split; [exact Hc|]]].
    + unfold generate_data. rewrite (bind_Ok _ _ _ _ _ E).
      rewrite Hk. reflexivity.
    + apply noised_calls in Hn as [Hn1 Hn2].
      rewrite !map_app, (kind_of_get_samples _ _ Hlen), (kind_of_randn _ Hn1).
      rewrite Hn2, HlenY. done.
Qed.

(** X14: do_benchmark on a descriptor with one fidelity level never
    returns.  When the packages keep their promises about shapes and
    [fcn.f] is not empty, it raises IndexError in the first run, after the
    data of seed 123 have been drawn: no model is constructed and nothing
    is printed. *)
Theorem do_benchmark_one_level fcn_tuple st :
  length fcn_tuple.(num_data) = 1 →
  (∀ d st', do_benchmark fcn_tuple st ≠ (Ok d, st'))
  ∧ (shape_contract (fcn_tuple.(fcn) tt).2 →
     (fcn_tuple.(fcn) tt).1 ≠ [] →
     ∃ st', do_benchmark fcn_tuple st = (Raise IndexError, st')
       ∧ stdout st' = stdout st
       ∧ map kind_of (new_calls st st')
         = [KSeed 123] ++ data_calls fcn_tuple).
Proof.
  intros Hk.
  assert (∀ s, np_random_seed 123 s
               = (Ok tt, State (heap s) (random_seed 123 (ext s)) (stdout s)
                               (calls s ++ [seed_call 123]))) as Hseed.
  { intros s. reflexivity. }
  split.
  - intros d st' E. unfold do_benchmark in E. simpl in E.
    apply bind_Ok_inv in E as (d1 & st1 & E & _).
    unfold do_benchmark_iter in E.
    apply bind_Ok_inv in E as (r & st2 & E & _).
    unfold test_function in E.
    apply bind_Ok_inv in E as (s & st3 & E & _).
    unfold test_function_models in E.
    apply bind_Ok_inv in E as (u & st4 & _ & E).
    apply bind_Ok_inv in E as (r' & st5 & E & _).
    by apply (generate_data_one_level _ 1000 st4 Hk) in E.
  - intros Hshape Hf.
    destruct (generate_data_one_level fcn_tuple 1000
                (State (heap st) (random_seed 123 (ext st)) (stdout st)
                       (calls st ++ [seed_call 123])) Hk)
      as [_ Hraise].
    destruct (Hraise Hshape Hf) as (cs & st' & E & Ho & Hc & Hcs).
    exists st'. split; [|split; [done|]].
    + unfold do_benchmark. simpl. apply bind_Raise.
      unfold do_benchmark_iter. apply bind_Raise.
      unfold test_function. apply bind_Raise.
      unfold test_function_models.
      rewrite (bind_Ok _ _ _ _ _ (Hseed st)). simpl.
      by apply bind_Raise.
    + simpl in Hc. rewrite <- app_assoc in Hc.
      rewrite (new_calls_app _ _ _ Hc), map_app, Hcs. done.
Qed.

End DoBenchmarkMore.

(** ** The descriptors of cell 2 *)

Section DescriptorsMore.
Context `{TestFunctions}.

(** X15: each of the five descriptors of the notebook names two or three
    fidelity levels and as many noise levels, and all but borehole are
    plain.  So for each of them, if its factory supplies a function per
    level and the packages keep their promises about shapes, generate_data
    returns (line 194 finds [X[1]]), and every array of [Y] has met a noise
    level. *)
Theorem notebook_descriptors_generate d n st :
  d ∈ [borehole; branin; currin; park; hartmann_3d] →
  (d = borehole ∨ plain d)
  ∧ length d.(noise_level) = length d.(num_data)
  ∧ (shape_contract (d.(fcn) tt).2 →
     length (d.(fcn) tt).1 = length d.(num_data) →
     ∃ x_test y_test X Y st',
       generate_data d n st = (Ok (x_test, y_test, X, Y), st')
       ∧ length Y = length d.(noise_level)).
Proof.
  intros Hd.
  assert ((d = borehole ∨ plain d)
          ∧ length d.(noise_level) = length d.(num_data)
          ∧ 2 ≤ length d.(num_data)) as (Hp & Hnl & Hk).
  { rewrite !elem_of_cons, elem_of_nil in Hd.
    destruct Hd as [->|[->|[->|[->|[->|[]]]]]];
      (split; [|split; simpl; [done|lia]]);
      first [by left | right; by repeat split]. }
  split; [done|]. split; [done|]. intros Hs Hf.
  destruct (generate_data_total d n st Hs)
    as ([[[x_test y_test] X] Y] & st' & E); [lia|].
  exists x_test, y_test, X, Y, st'. split; [done|].
  apply generate_data_Ok in E as (g & st1 & x1 & Hg & _).
  destruct Hg as (_ & _ & _ & _ & _ & _ & _ & _ & _ & Hr & _).
  injection Hr as _ _ _ ->. by rewrite length_seq.
Qed.

End DescriptorsMore.

(** ** The tables of do_benchmark *)

Section TablesMore.
Context `{Libraries}.
Variable wrapper_name : model_class → string.
Hypothesis Hstable : stable_names wrapper_name.

Lemma new_model_name c X Y n_iter st m st' :
  new_model c X Y n_iter st = (Ok m, st') → model_name m = wrapper_name c.
Proof using Hstable.
  intros E.
  apply new_model_Ok in E as (Xa & Ya & nm & h & out & e' & _ & _ & Ei & -> & _).
  simpl. exact (Hstable _ _ _ _ _ _ _ _ Ei).
Qed.

Lemma test_function_run_of fcn_tuple seed st run st' :
  test_function fcn_tuple seed st = (Ok run, st') → run_of (run_names wrapper_name) run.
Proof using Hstable.
  unfold test_function. intros E.
  apply bind_Ok_inv in E as ([[models xt] yt] & st1 & Es & E).
  unfold test_function_models in Es.
  apply bind_Ok_inv in Es as ([] & st2 & _ & Es).
  apply bind_Ok_inv in Es as ([[[x_test y_test] X] Y] & st3 & _ & Es).
  apply bind_Ok_inv in Es as (m4 & st4 & E4 & Es).
  apply bind_Ok_inv in Es as (m1 & st5 & E1 & Es).
  apply bind_Ok_inv in Es as (m2 & st6 & E2 & Es).
  apply bind_Ok_inv in Es as (m3 & st7 & E3 & Es).
  apply new_model_name in E1, E2, E3.
  unfold ret in Es. injection Es as <- <- <- <-.
  simpl in E. unfold benchmark_models in E.
  apply benchmark_models_loop_Ok in E as (Hkeys & HF & _).
  split; [|by apply HF; constructor].
  intros k. rewrite Hkeys. simpl. rewrite E1, E2, E3. unfold run_names.
  rewrite elem_of_nil. tauto.
Qed.

Lemma dict_get_values {V} k (d : dict V) v :
  dict_get k d = Some v → v ∈ dict_values d.
Proof.
  unfold dict_values. induction d as [|[k' v'] d IH]; simpl; [done|].
  destruct (String.eqb k' k).
  - intros [= <-]. left.
  - intros Hv. right. by apply IH.
Qed.

Lemma run_of_has_metrics names run name :
  run_of names run → name ∈ names → has_metrics name run = true.
Proof.
  intros [Hk Hv] Hn. apply Hk in Hn. unfold has_metrics.
  destruct (dict_get name run) as [e|] eqn:He;
    [|by apply dict_get_None in He].
  apply dict_get_values in He. rewrite Forall_forall in Hv.
  apply Hv in He. apply forallb_forall. intros m Hm.
  apply bool_decide_eq_true.
  destruct (dict_get m e) as [v|] eqn:Em; [done|].
  apply dict_get_None in Em. rewrite He in Em. destruct Em.
  apply list_elem_of_In in Hm. set (l := ["r2"; "mnll"; "rmse"]) in Hm.
  subst l. rewrite !elem_of_cons in *. tauto.
Qed.

Lemma printable_runs names metrics :
  metrics ≠ [] → Forall (run_of names) (dict_values metrics) →
  printable metrics = true.
Proof.
  intros Hne Hall. unfold printable.
  destruct (dict_values metrics) as [|first rest] eqn:Ev.
  { destruct metrics; done. }
  apply forallb_forall. intros name Hname. apply forallb_forall.
  intros run Hrun. apply list_elem_of_In in Hname, Hrun.
  rewrite Forall_forall in Hall.
  eapply run_of_has_metrics; [by apply Hall|].
  destruct (Hall first) as [Hk _]; [left|]. by apply Hk.
Qed.

Lemma dict_set_nonempty {V} k (v : V) d : dict_set k v d ≠ [].
Proof. destruct d as [|[k' v'] d]; simpl; [done|]. by destruct (String.eqb k' k). Qed.

Lemma do_benchmark_loop_run_of fcn_tuple runs acc st d st' :
  for_fold runs (do_benchmark_iter fcn_tuple) acc st = (Ok d, st') →
  Forall (run_of (run_names wrapper_name)) (dict_values acc) →
  Forall (run_of (run_names wrapper_name)) (dict_values d).
Proof using Hstable.
  revert acc st. induction runs as [|[i seed] runs IH]; intros acc st; simpl.
  - by intros [= <- <-].
  - intros E Hacc. apply bind_Ok_inv in E as (acc' & st1 & Ei & E).
    eapply IH; [exact E|].
    unfold do_benchmark_iter in Ei.
    apply bind_Ok_inv in Ei as (run & st2 & Er & Ei).
    apply test_function_run_of in Er.
    mstep Ei as u El. apply bind_Ok_inv in Ei as ([] & st3 & _ & Ei).
    mprim Ei. by apply dict_values_set_Forall.
Qed.

Lemma for_fold_Raise {A S} (l : list A) (body : S → A → M S) s st e st' :
  for_fold l body s st = (Raise e, st') →
  ∃ l1 x l2 s1 st1,
    l = l1 ++ x :: l2
    ∧ for_fold l1 body s st = (Ok s1, st1)
    ∧ body s1 x st1 = (Raise e, st').
Proof.
  revert s st. induction l as [|x l IH]; intros s st; simpl; [done|].
  unfold bind. destruct (body s x st) as [[s'|e'] st1] eqn:Eb.
  - intros E. apply IH in E as (l1 & y & l2 & s1 & st2 & -> & E1 & E2).
    exists (x :: l1), y, l2, s1, st2. split; [done|]. split; [|done].
    simpl. unfold bind. by rewrite Eb.
  - intros [= <- <-]. by exists [], x, l, s, st.
Qed.

(** X16: the tables of do_benchmark cannot fail.  If the wrappers give
    their objects the same names in every run, a run whose test_function
    returns is always entered and printed: after the runs before it, the
    dictionary holds the four models with their three metrics in every run,
    so print_metrics finds every key.  Hence do_benchmark raises only the
    exception of a test_function that raised, in the state it left. *)
Theorem tables_never_fail fcn_tuple :
  (∀ runs metrics st st1 i seed run st2,
     for_fold runs (do_benchmark_iter fcn_tuple) [] st = (Ok metrics, st1) →
     test_function fcn_tuple seed st1 = (Ok run, st2) →
     ∃ t, do_benchmark_iter fcn_tuple metrics (i, seed) st1
          = (Ok (dict_set (run_name fcn_tuple seed) run metrics),
             add_stdout [PLine (after_line fcn_tuple (i + 1)); PTable t] st2))
  ∧ (∀ st e st',
       do_benchmark fcn_tuple st = (Raise e, st') →
       ∃ runs_done iseed runs_left metrics st1,
         enumerate [123; 184; 202; 289; 732]%Z
         = runs_done ++ iseed :: runs_left
         ∧ for_fold runs_done (do_benchmark_iter fcn_tuple) [] st
           = (Ok metrics, st1)
         ∧ test_function fcn_tuple iseed.2 st1 = (Raise e, st')).
Proof using Hstable.
  assert (∀ runs metrics st st1 i seed run st2,
     for_fold runs (do_benchmark_iter fcn_tuple) [] st = (Ok metrics, st1) →
     test_function fcn_tuple seed st1 = (Ok run, st2) →
     ∃ t, do_benchmark_iter fcn_tuple metrics (i, seed) st1
          = (Ok (dict_set (run_name fcn_tuple seed) run metrics),
             add_stdout [PLine (after_line fcn_tuple (i + 1)); PTable t] st2))
    as Hiter.
  { intros runs metrics st st1 i seed run st2 Eruns Erun.
    apply do_benchmark_loop_run_of in Eruns; [|constructor].
    pose proof (test_function_run_of _ _ _ _ _ Erun) as Hrun.
    destruct (metrics_table_printable
                (dict_set (run_name fcn_tuple seed) run metrics)) as [t Et].
    { apply (printable_runs (run_names wrapper_name)); [apply dict_set_nonempty|].
      by apply dict_values_set_Forall. }
    exists t. unfold do_benchmark_iter. rewrite (bind_Ok _ _ _ _ _ Erun).
    unfold bind, print, print_metrics, lift, ret. simpl.
    unfold run_name in Et. rewrite Et. simpl.
    unfold add_stdout. simpl. by rewrite <- app_assoc. }
  split; [exact Hiter|].
  intros st e st' E. unfold do_benchmark in E.
  apply for_fold_Raise in E
    as (l1 & [i seed] & l2 & metrics & st1 & Hl & Eruns & Eit).
  exists l1, (i, seed), l2, metrics, st1. split; [done|]. split; [done|].
  simpl. destruct (test_function fcn_tuple seed st1) as [[run|e'] st2] eqn:Et.
  - destruct (Hiter _ _ _ _ i _ _ _ Eruns Et) as [t Eok]. congruence.
  - unfold do_benchmark_iter in Eit. rewrite (bind_Raise _ _ _ _ _ Et) in Eit.
    by injection Eit as <- <-.
Qed.

End TablesMore.

(** ** The statements on concrete runs *)

Lemma outputs_divided_by_noisy_scale_witness :
  generate_data Mock.unscaled 3 Mock.st0
  = (Ok (6, 5, [0; 1], [2; 3]), Mock.final_unscaled)
  ∧ [2; 3] !! 0 = Some 2
  ∧ noise_level Mock.unscaled !! 0 = Some 0.5%float
  ∧ ∃ f_i arg zs y',
      (fcn Mock.unscaled tt).1 !! 0 = Some f_i
      ∧ length zs = nrows (f_i arg)
      ∧ randn_call (nrows (f_i arg)) (column zs) ∈ calls Mock.final_unscaled
      ∧ inplace_op PrimFloat.div (f_i arg)
          (noise_divisor (y_scale Mock.unscaled) 0.5 (column zs)) = Ok y'
      ∧ heap Mock.final_unscaled !! 2 = Some y'
      ∧ (well_shaped (f_i arg) →
         rows y' = zip_with (λ r z,
                     map (λ v, PrimFloat.div v
                            (PrimFloat.add (y_scale Mock.unscaled)
                                           (PrimFloat.mul 0.5 z))) r)
                   (rows (f_i arg)) zs).
Proof.
  split; [vm_compute; reflexivity|].
  split; [reflexivity|]. split; [reflexivity|].
  apply (outputs_divided_by_noisy_scale (H:=Mock.L) Mock.unscaled 3 Mock.st0
           6 5 [0; 1] [2; 3] Mock.final_unscaled 0 2 0.5%float);
    vm_compute; reflexivity.
Defined.


Lemma calculate_metrics_pure_witness :
  (calculate_metrics 5 4 4 Mock.final_scaled).2 = Mock.final_scaled
  ∧ ∃ d, (calculate_metrics 5 4 4 Mock.final_scaled).1 = Ok d
         ∧ dict_keys d = ["r2"; "rmse"; "mnll"].
Proof.
  destruct (calculate_metrics_pure (H:=Mock.L) 5 4 4 Mock.final_scaled)
    as (Hst & _ & Hd).
  split; [exact Hst|].
  destruct (calculate_metrics 5 4 4 Mock.final_scaled).1 as [d|] eqn:E;
    [|vm_compute in E; discriminate E].
  exists d. split; [reflexivity|].
  destruct (Hd d eq_refl) as (? & ? & ? & ? & ? & ? & _ & _ & _ & _ & _ & _ & ->).
  reflexivity.
Defined.

Lemma inputs_scaled_by_one_vector_witness :
  generate_data Mock.unscaled 3 Mock.st0
  = (Ok (6, 5, [0; 1], [2; 3]), Mock.final_unscaled)
  ∧ ∃ raws raw0, raws !! 0 = Some raw0
      ∧ sampled Mock.unscaled 3 Mock.st0 Mock.final_unscaled raws
                (column [1; 2; 3]%float).
Proof.
  split; [vm_compute; reflexivity|].
  destruct (inputs_scaled_by_one_vector (H:=Mock.L) Mock.unscaled 3 Mock.st0
              6 5 [0; 1] [2; 3] Mock.final_unscaled)
    as (raws & raw0 & raw_t & xs & Hs & H0 & _); [vm_compute; reflexivity|].
  exists raws, raw0. split; [exact H0|].
  destruct Hs as (cs & Hc & Hcs & Hlen).
  assert (raw_t = column [1; 2; 3]%float) as <-.
  { apply (f_equal last) in Hc. rewrite !app_assoc, last_snoc in Hc.
    vm_compute in Hc. injection Hc as <-. reflexivity. }
  exists cs. split; [exact Hc|]. split; [exact Hcs | exact Hlen].
Defined.

Lemma test_inputs_fidelity_column_witness :
  generate_data Mock.scaled 3 Mock.st0
  = (Ok (6, 5, [0; 1], [2; 3]), Mock.final_scaled)
  ∧ ∃ raws raw0 raw_t xs a,
      sampled Mock.scaled 3 Mock.st0 Mock.final_scaled raws raw_t
      ∧ raws !! 0 = Some raw0
      ∧ inplace_op PrimFloat.div raw_t
          (row_vec (scalings_from Mock.scaled raw0)) = Ok xs
      ∧ heap Mock.final_scaled !! 6 = Some a
      ∧ ncols a = ncols xs + 1
      ∧ rows a = map (λ r, r ++ [float_of_nat (length (num_data Mock.scaled) - 1)])
                     (rows xs).
Proof.
  split; [vm_compute; reflexivity|].
  apply (test_inputs_fidelity_column (H:=Mock.L) Mock.scaled 3 Mock.st0
           6 5 [0; 1] [2; 3] Mock.final_scaled).
  vm_compute. reflexivity.
Defined.

Lemma function_evaluated_at_rescaled_inputs_witness :
  generate_data Mock.unscaled 3 Mock.st0
  = (Ok (6, 5, [0; 1], [2; 3]), Mock.final_unscaled)
  ∧ ∃ f_last arg yv,
      last (fcn Mock.unscaled tt).1 = Some f_last
      ∧ inplace_op PrimFloat.div (f_last arg)
          (scalar_arr (y_scale Mock.unscaled)) = Ok yv
      ∧ heap Mock.final_unscaled !! 5 = Some yv.
Proof.
  split; [vm_compute; reflexivity|].
  destruct (function_evaluated_at_rescaled_inputs (H:=Mock.L) Mock.unscaled 3
              Mock.st0 6 5 [0; 1] [2; 3] Mock.final_unscaled)
    as (raws & raw0 & raw_t & xs & _ & _ & _ & _
        & f_last & arg & yv & Hf & _ & Hyv & Hh & _ & _ & _);
    [vm_compute; reflexivity|].
  exists f_last, arg, yv. split; [exact Hf|]. split; [exact Hyv | exact Hh].
Defined.

(** C6, as stated, fails: with the lowest-fidelity samples 0 and 98 the
    scaling is 49; the sample 1 of the next fidelity is stored as [1 / 49],
    and its function (the identity here) is evaluated at [(1 / 49) * 49],
    which is not the float 1. *)
Lemma rescaled_input_differs_from_sample :
  generate_data Mock.scaled 3 Mock.st0
  = (Ok (6, 5, [0; 1], [2; 3]), Mock.final_scaled)
  ∧ calls Mock.final_scaled !! 2
    = Some (get_samples_call 2 (column [0; 98]%float))
  ∧ calls Mock.final_scaled !! 3 = Some (get_samples_call 1 (column [1%float]))
  ∧ scalings_from Mock.scaled (column [0; 98]%float) = [49%float]
  ∧ heap Mock.final_scaled !! 1 = Some (column [PrimFloat.div 1 49])
  ∧ broadcast_op PrimFloat.mul (column [PrimFloat.div 1 49]) (row_vec [49%float])
    = Ok (column [PrimFloat.mul (PrimFloat.div 1 49) 49])
  ∧ heap Mock.final_scaled !! 3
    = Some (column [PrimFloat.mul (PrimFloat.div 1 49) 49])
  ∧ column [PrimFloat.mul (PrimFloat.div 1 49) 49] ≠ column [1%float].
Proof.
  do 7 (split; [vm_compute; reflexivity|]).
  intros E.
  apply (f_equal (λ a, match rows a with
                       | [x] :: _ => PrimFloat.eqb x 1
                       | _ => true
                       end)) in E.
  vm_compute in E. discriminate.
Qed.

Lemma print_metrics_means_witness :
  print_metrics Mock.bench_metrics Mock.bench_final
  = (Ok tt, (print_metrics Mock.bench_metrics Mock.bench_final).2)
  ∧ ∃ t first,
      (print_metrics Mock.bench_metrics Mock.bench_final).2
      = add_stdout [PTable t] Mock.bench_final
      ∧ dict_values Mock.bench_metrics !! 0 = Some first
      ∧ map fst (table_rows t) = dict_keys first.
Proof.
  split; [vm_compute; reflexivity|].
  destruct (print_metrics_means (H:=Mock.L) Mock.bench_metrics
              Mock.bench_final tt
              (print_metrics Mock.bench_metrics Mock.bench_final).2)
    as (t & first & Hst & Hf & _ & Hk & _); [vm_compute; reflexivity|].
  exists t, first. split; [exact Hst|]. split; [exact Hf | exact Hk].
Defined.

Lemma model_failure_propagates_witness :
  enumerate [123; 184; 202; 289; 732]%Z
  = [] ++ (0, 123%Z) :: [(1, 184%Z); (2, 202%Z); (3, 289%Z); (4, 732%Z)]
  ∧ for_fold [] (do_benchmark_iter Mock.scaled_fail) [] Mock.st0_fail
    = (Ok [], Mock.st0_fail)
  ∧ test_function_models Mock.scaled_fail 123 Mock.st0_fail
    = (Ok ([Mock.hf_gp; Mock.ar1] ++ Mock.nargp :: [Mock.mf_dgp], 6, 5),
       Mock.fail_setup)
  ∧ benchmark_models [Mock.hf_gp; Mock.ar1] 6 5 Mock.fail_setup
    = (Ok Mock.fail_two_metrics, Mock.fail_two_done)
  ∧ optimize Mock.nargp Mock.fail_two_done
    = (Raise (LibraryError "optimization failed"), Mock.fail_final)
  ∧ do_benchmark Mock.scaled_fail Mock.st0_fail
    = (Raise (LibraryError "optimization failed"), Mock.fail_final)
  ∧ dict_keys Mock.fail_two_metrics = ["hf_gp"; "ar1"].
Proof.
  do 5 (split; [vm_compute; reflexivity|]).
  split; [|vm_compute; reflexivity].
  apply (model_failure_propagates (H:=Mock.L_fail) Mock.scaled_fail
           [] (0, 123%Z) [(1, 184%Z); (2, 202%Z); (3, 289%Z); (4, 732%Z)]
           [] Mock.st0_fail Mock.st0_fail
           [Mock.hf_gp; Mock.ar1] Mock.nargp [Mock.mf_dgp] 6 5
           Mock.fail_setup Mock.fail_two_metrics Mock.fail_two_done
           (LibraryError "optimization failed") Mock.fail_final);
    [vm_compute; reflexivity .. |].
  left. vm_compute. reflexivity.
Defined.

(** The line that the failing optimize of this run wrote is on stdout. *)
Lemma failed_optimize_output :
  stdout Mock.fail_final
  = stdout Mock.fail_two_done
    ++ [PLibrary "Warning - optimization restart 1/1 failed"].
Proof. vm_compute. reflexivity. Qed.

Lemma test_targets_without_noise_witness :
  generate_data Mock.unscaled 3 Mock.st0
  = (Ok (6, 5, [0; 1], [2; 3]), Mock.final_unscaled)
  ∧ ∃ f_last arg y,
      last (fcn Mock.unscaled tt).1 = Some f_last
      ∧ inplace_op PrimFloat.div (f_last arg)
          (scalar_arr (y_scale Mock.unscaled)) = Ok y
      ∧ heap Mock.final_unscaled !! 5 = Some y
      ∧ (well_shaped (f_last arg) →
         rows y = map (map (λ v, PrimFloat.div v (y_scale Mock.unscaled)))
                      (rows (f_last arg))).
Proof.
  split; [vm_compute; reflexivity|].
  apply (test_targets_without_noise (H:=Mock.L) Mock.unscaled 3 Mock.st0
           6 5 [0; 1] [2; 3] Mock.final_unscaled).
  vm_compute; reflexivity.
Defined.

(** The test double keeps the promises about shapes. *)
Lemma mock_shape_contract script fails (space : nat) :
  @shape_contract (Mock.lib script fails) space.
Proof.
  split.
  - exists space. intros a (n & e & ->). simpl.
    destruct (Mock.samples e) as [|a q]; simpl.
    { split; [apply Forall_nil_2 | reflexivity]. }
    destruct (Mock.fits space a) eqn:E; simpl.
    2:{ split; [apply Forall_nil_2 | reflexivity]. }
    unfold Mock.fits in E. apply andb_prop in E as [Hc Hr].
    apply bool_decide_eq_true in Hc.
    split; [|exact Hc].
    unfold well_shaped. rewrite Hc. apply Forall_forall. intros r Hr'.
    rewrite forallb_forall in Hr.
    apply list_elem_of_In in Hr'. apply Hr in Hr'.
    by apply bool_decide_eq_true in Hr'.
  - intros a. simpl. by rewrite length_map, length_seq.
Qed.

Lemma generate_data_single_fidelity_witness :
  length (num_data Mock.single) = 1
  ∧ shape_contract (fcn Mock.single tt).2
  ∧ (fcn Mock.single tt).1 ≠ []
  ∧ generate_data_arrays Mock.single 3 Mock.st0
    = (Ok (4, 3, [0], [1]), Mock.built_single)
  ∧ generate_data Mock.single 3 Mock.st0
    = (Raise IndexError, Mock.built_single)
  ∧ length (heap Mock.built_single) = length (heap Mock.st0) + 5.
Proof.
  split; [reflexivity|].
  split; [apply mock_shape_contract|].
  split; [discriminate|].
  split; [vm_compute; reflexivity|].
  destruct (generate_data_single_fidelity (H:=Mock.L) Mock.single 3 Mock.st0)
    as (_ & Hraise & _); [reflexivity|].
  apply (Hraise (4, 3, [0], [1])). vm_compute. reflexivity.
Defined.

(** ** Further statements on concrete runs *)

Lemma outputs_without_noise_level_witness :
  generate_data Mock.unscaled 3 Mock.st0
  = (Ok (6, 5, [0; 1], [2; 3]), Mock.final_unscaled)
  ∧ [2; 3] !! 1 = Some 3
  ∧ noise_level Mock.unscaled !! 1 = None
  ∧ ∃ f_i arg,
      (fcn Mock.unscaled tt).1 !! 1 = Some f_i
      ∧ heap Mock.final_unscaled !! 3 = Some (f_i arg).
Proof.
  split; [vm_compute; reflexivity|].
  split; [reflexivity|]. split; [reflexivity|].
  destruct (outputs_without_noise_level (H:=Mock.L) Mock.unscaled 3 Mock.st0
              6 5 [0; 1] [2; 3] Mock.final_unscaled 1 3)
    as [(x & a & f_i & arg & s & _ & _ & Hf & _ & Hh) _];
    [vm_compute; reflexivity ..|].
  exists f_i, arg. split; [exact Hf | exact Hh].
Defined.

Lemma zero_noise_divides_by_y_scale_witness :
  generate_data Mock.scaled 3 Mock.st0
  = (Ok (6, 5, [0; 1], [2; 3]), Mock.final_scaled)
  ∧ noise_level Mock.scaled !! 0 = Some 0%float
  ∧ PrimFloat.is_zero (y_scale Mock.scaled) = false
  ∧ finite_draws (new_calls Mock.st0 Mock.final_scaled) = true
  ∧ ∃ f_i arg y',
      (fcn Mock.scaled tt).1 !! 0 = Some f_i
      ∧ heap Mock.final_scaled !! 2 = Some y'
      ∧ (well_shaped (f_i arg) → y' = f_i arg).
Proof.
  split; [vm_compute; reflexivity|].
  split; [reflexivity|].
  split; [vm_compute; reflexivity|]. split; [vm_compute; reflexivity|].
  destruct (zero_noise_divides_by_y_scale (H:=Mock.L) Mock.scaled 3 Mock.st0
              6 5 [0; 1] [2; 3] Mock.final_scaled 0 2 0%float)
    as (x & a & s & f_i & arg & y' & _ & _ & _ & Hf & Hh & Hy);
    [vm_compute; reflexivity ..|].
  exists f_i, arg, y'. split; [exact Hf|]. split; [exact Hh|].
  intros Hw. destruct (Hy Hw) as [_ H1]. apply H1. reflexivity.
Defined.

Lemma plain_descriptor_data_witness :
  generate_data Mock.mock_currin 3 Mock.st0
  = (Ok (6, 5, [0; 1], [2; 3]), Mock.final_currin)
  ∧ plain Mock.mock_currin
  ∧ well_shaped_outputs Mock.mock_currin
  ∧ finite_draws (new_calls Mock.st0 Mock.final_currin) = true
  ∧ ∃ raws raw_t, sampled Mock.mock_currin 3 Mock.st0 Mock.final_currin raws raw_t.
Proof.
  assert (plain Mock.mock_currin) as Hp.
  { split; [reflexivity|]. split; reflexivity. }
  assert (well_shaped_outputs Mock.mock_currin) as Hout.
  { intros f a Hf Hw. simpl in Hf.
    apply elem_of_cons in Hf as [->|Hf]; [exact Hw|].
    apply elem_of_cons in Hf as [->|Hf]; [exact Hw|].
    apply elem_of_nil in Hf. destruct Hf. }
  split; [vm_compute; reflexivity|].
  split; [exact Hp|]. split; [exact Hout|].
  split; [vm_compute; reflexivity|].
  destruct (plain_descriptor_data (H:=Mock.L) Mock.mock_currin 3 Mock.st0
              6 5 [0; 1] [2; 3] Mock.final_currin)
    as (raws & raw_t & Hs & _);
    [vm_compute; reflexivity | exact Hp | exact Hout
     | vm_compute; reflexivity |].
  exists raws, raw_t. exact Hs.
Defined.

Lemma generate_data_prints_second_shape_witness :
  generate_data Mock.scaled 3 Mock.st0
  = (Ok (6, 5, [0; 1], [2; 3]), Mock.final_scaled)
  ∧ ∃ raw1, stdout Mock.final_scaled = stdout Mock.st0 ++ [PShape (shape raw1)].
Proof.
  split; [vm_compute; reflexivity|].
  destruct (generate_data_prints_second_shape (H:=Mock.L) Mock.scaled 3
              Mock.st0 6 5 [0; 1] [2; 3] Mock.final_scaled)
    as (raws & raw_t & raw1 & x1 & a1 & _ & _ & _ & _ & _ & Ho);
    [vm_compute; reflexivity|].
  exists raw1. exact Ho.
Defined.

Lemma test_targets_match_fidelity_column_witness :
  generate_data Mock.scaled 3 Mock.st0
  = (Ok (6, 5, [0; 1], [2; 3]), Mock.final_scaled)
  ∧ length (fcn Mock.scaled tt).1 = length (num_data Mock.scaled)
  ∧ ∃ f arg y,
      (fcn Mock.scaled tt).1 !! 1 = Some f
      ∧ inplace_op PrimFloat.div (f arg) (scalar_arr (y_scale Mock.scaled))
        = Ok y
      ∧ heap Mock.final_scaled !! 5 = Some y.
Proof.
  split; [vm_compute; reflexivity|]. split; [reflexivity|].
  destruct (test_targets_match_fidelity_column (H:=Mock.L) Mock.scaled 3
              Mock.st0 6 5 [0; 1] [2; 3] Mock.final_scaled)
    as (f & s & xs & arg & y & a & Hf & _ & Hy & Hh & _);
    [vm_compute; reflexivity | reflexivity |].
  exists f, arg, y. split; [exact Hf|]. split; [exact Hy | exact Hh].
Defined.

Lemma generate_data_returns_witness :
  shape_contract (fcn Mock.scaled tt).2
  ∧ 2 ≤ length (num_data Mock.scaled) ≤ length (fcn Mock.scaled tt).1
  ∧ ∃ x_test y_test X Y st',
      generate_data Mock.scaled 3 Mock.st0 = (Ok (x_test, y_test, X, Y), st')
      ∧ length X = length (num_data Mock.scaled)
      ∧ length Y = length (num_data Mock.scaled).
Proof.
  split; [apply mock_shape_contract|].
  split; [simpl; lia|].
  apply (generate_data_returns (H:=Mock.L) Mock.scaled 3 Mock.st0);
    [apply mock_shape_contract | simpl; lia].
Defined.


Lemma print_metrics_errors_witness :
  [("run", [("gp", [("r2", 1%float)])])] ≠ []
  ∧ printable [("run", [("gp", [("r2", 1%float)])])] = false
  ∧ print_metrics [("run", [("gp", [("r2", 1%float)])])] Mock.st0
    = (Raise KeyError, Mock.st0).
Proof.
  split; [discriminate|]. split; [reflexivity|].
  destruct (print_metrics_errors (H:=Mock.L)
              [("run", [("gp", [("r2", 1%float)])])] Mock.st0) as [_ Hkey].
  apply Hkey; [discriminate | reflexivity].
Defined.

Lemma print_metrics_succeeds_witness :
  printable Mock.bench_metrics = true
  ∧ ∃ t first,
      print_metrics Mock.bench_metrics Mock.bench_final
      = (Ok tt, add_stdout [PTable t] Mock.bench_final)
      ∧ dict_values Mock.bench_metrics !! 0 = Some first
      ∧ map fst (table_rows t) = dict_keys first.
Proof.
  split; [vm_compute; reflexivity|].
  apply (print_metrics_succeeds (H:=Mock.L) Mock.bench_metrics Mock.bench_final).
  vm_compute. reflexivity.
Defined.

Lemma benchmark_models_distinct_names_witness :
  benchmark_models Mock.models 6 5 Mock.setup
  = (Ok Mock.run_metrics, Mock.run_final)
  ∧ heap Mock.setup !! 6 = Some (Mock.stored Mock.setup 6)
  ∧ heap Mock.setup !! 5 = Some (Mock.stored Mock.setup 5)
  ∧ NoDup (map model_name Mock.models)
  ∧ dict_keys Mock.run_metrics = ["hf_gp"; "ar1"; "nargp"; "mf_dgp_fix_lf_mean"]
  ∧ ∃ fs r2s,
      map f_model fs = Mock.models
      ∧ stdout Mock.run_final
        = stdout Mock.setup ++ concat (zip_with fit_lines fs r2s).
Proof.
  assert (NoDup (map model_name Mock.models)) as Hnd.
  { apply (bool_decide_unpack (NoDup (map model_name Mock.models))).
    vm_compute. exact I. }
  assert (heap Mock.setup !! 6 = Some (Mock.stored Mock.setup 6)) as Hx
    by (vm_compute; reflexivity).
  assert (heap Mock.setup !! 5 = Some (Mock.stored Mock.setup 5)) as Hy
    by (vm_compute; reflexivity).
  split; [vm_compute; reflexivity|]. split; [exact Hx|]. split; [exact Hy|].
  split; [exact Hnd|].
  destruct (benchmark_models_distinct_names (H:=Mock.L) Mock.models 6 5
              Mock.setup Mock.run_metrics Mock.run_final
              (Mock.stored Mock.setup 6) (Mock.stored Mock.setup 5))
    as [Hk (fs & r2s & Hfs & _ & _ & _ & _ & Ho)];
    [vm_compute; reflexivity | exact Hx | exact Hy | exact Hnd |].
  split; [exact Hk|]. exists fs, r2s. split; [exact Hfs | exact Ho].
Defined.

Lemma benchmark_models_one_entry_per_name_witness :
  benchmark_models Mock.twins 6 5 Mock.setup
  = (Ok Mock.twins_metrics, Mock.twins_final)
  ∧ heap Mock.setup !! 6 = Some (Mock.stored Mock.setup 6)
  ∧ heap Mock.setup !! 5 = Some (Mock.stored Mock.setup 5)
  ∧ length Mock.twins_metrics ≤ length Mock.twins
  ∧ ∃ fs,
      map f_model fs = Mock.twins
      ∧ dict_get "gp" Mock.twins_metrics
        = f_metrics
          <$> last (filter (λ f, model_name (f_model f) = "gp") fs).
Proof.
  assert (heap Mock.setup !! 6 = Some (Mock.stored Mock.setup 6)) as Hx
    by (vm_compute; reflexivity).
  assert (heap Mock.setup !! 5 = Some (Mock.stored Mock.setup 5)) as Hy
    by (vm_compute; reflexivity).
  split; [vm_compute; reflexivity|]. split; [exact Hx|]. split; [exact Hy|].
  destruct (benchmark_models_one_entry_per_name (H:=Mock.L) Mock.twins 6 5
              Mock.setup Mock.twins_metrics Mock.twins_final
              (Mock.stored Mock.setup 6) (Mock.stored Mock.setup 5))
    as (_ & _ & Hle & _ & fs & Hfs & _ & _ & Hget);
    [vm_compute; reflexivity | exact Hx | exact Hy |].
  split; [exact Hle|]. exists fs. split; [exact Hfs | exact (Hget "gp")].
Defined.

Lemma runs_determined_by_seed_witness :
  (∀ seed e e', @random_seed Mock.L seed e = @random_seed Mock.L seed e')
  ∧ do_benchmark Mock.scaled (set_ext (ext Mock.st_other) Mock.st0)
    = do_benchmark Mock.scaled (set_ext (ext Mock.st0) Mock.st0).
Proof.
  split; [reflexivity|].
  apply (runs_determined_by_seed (H:=Mock.L) Mock.scaled Mock.st0
           (ext Mock.st_other) (ext Mock.st0)).
  reflexivity.
Defined.

Lemma do_benchmark_one_level_witness :
  length (num_data Mock.single) = 1
  ∧ shape_contract (fcn Mock.single tt).2
  ∧ (fcn Mock.single tt).1 ≠ []
  ∧ do_benchmark Mock.single Mock.st0 = (Raise IndexError, Mock.final_single)
  ∧ ∃ st', do_benchmark Mock.single Mock.st0 = (Raise IndexError, st')
      ∧ stdout st' = stdout Mock.st0.
Proof.
  split; [reflexivity|].
  split; [apply mock_shape_contract|].
  split; [discriminate|].
  split; [vm_compute; reflexivity|].
  destruct (do_benchmark_one_level (H:=Mock.L) Mock.single Mock.st0)
    as [_ Hraise]; [reflexivity|].
  destruct Hraise as (st' & E & Ho & _);
    [apply mock_shape_contract | discriminate |].
  exists st'. split; [exact E | exact Ho].
Defined.

Lemma notebook_descriptors_generate_witness :
  Mock.mock_currin ∈ [@borehole Mock.L Mock.functions; @branin Mock.L Mock.functions;
                 Mock.mock_currin; @park Mock.L Mock.functions;
                 @hartmann_3d Mock.L Mock.functions]
  ∧ shape_contract (fcn Mock.mock_currin tt).2
  ∧ length (fcn Mock.mock_currin tt).1 = length (num_data Mock.mock_currin)
  ∧ ∃ x_test y_test X Y st',
      generate_data Mock.mock_currin 3 Mock.st0 = (Ok (x_test, y_test, X, Y), st')
      ∧ length Y = length (noise_level Mock.mock_currin).
Proof.
  assert (Mock.mock_currin
          ∈ [@borehole Mock.L Mock.functions; @branin Mock.L Mock.functions;
             Mock.mock_currin; @park Mock.L Mock.functions;
             @hartmann_3d Mock.L Mock.functions]) as Hin.
  { do 2 apply list_elem_of_further. apply list_elem_of_here. }
  split; [exact Hin|].
  split; [apply mock_shape_contract|]. split; [reflexivity|].
  destruct (notebook_descriptors_generate (H0:=Mock.functions) Mock.mock_currin 3
              Mock.st0 Hin) as (_ & _ & Hgen).
  apply Hgen; [apply mock_shape_contract | reflexivity].
Defined.

Lemma tables_never_fail_witness :
  @stable_names Mock.L Mock.default_name
  ∧ test_function Mock.scaled 123 Mock.st0
    = (Ok Mock.run_metrics, Mock.run_final)
  ∧ ∃ t, do_benchmark_iter Mock.scaled [] (0, 123%Z) Mock.st0
         = (Ok (dict_set (run_name Mock.scaled 123) Mock.run_metrics []),
            add_stdout [PLine (after_line Mock.scaled (0 + 1)); PTable t]
                       Mock.run_final).
Proof.
  assert (@stable_names Mock.L Mock.default_name) as Hn.
  { intros c Xa Ya n_iter e r out e' E. injection E as <- _ _. reflexivity. }
  split; [exact Hn|]. split; [vm_compute; reflexivity|].
  destruct (tables_never_fail (H:=Mock.L) Mock.default_name Hn Mock.scaled)
    as [Hiter _].
  apply (Hiter [] [] Mock.st0 Mock.st0 0 123%Z Mock.run_metrics Mock.run_final);
    vm_compute; reflexivity.
Defined.
